(** * nestjs-file-uploader: storage strategies, file service and folder tree

    A shallow embedding of the storage back-ends
    ([LocalStorageStrategy], [AWSS3Strategy] and their two subclasses), of the
    [StorageFactory] registry, and of the two services [FileService] and
    [FolderService], followed by the properties of the specification that
    concern them.

    Asynchronous methods are run to completion one after the other, so that a
    method is a function from the world before the call to a result and the
    world after it.  The world holds the three tables of the migration
    ([files], [folders], [folders_closure]), the local disk, the two object
    stores, the clock, the id generator and the logger output. *)

From stdpp Require Import base decidable option list strings pretty.
From Stdlib Require Import ZArith Lia Ascii.

Open Scope string_scope.
Open Scope Z_scope.
Open Scope list_scope.

(** ** Entities *)

(** [StorageType] of [file.entity.ts]. *)
Inductive StorageType : Set :=
  | LOCAL
  | AWS_S3
  | DIGITAL_OCEAN
  | LINUX_FOLDER.

#[global] Instance StorageType_eq_dec : EqDecision StorageType.
Proof. solve_decision. Defined.

(** The string value of each member of the enum. *)
Definition StorageType_value (t : StorageType) : string :=
  match t with
  | LOCAL => "local"
  | AWS_S3 => "aws_s3"
  | DIGITAL_OCEAN => "digital_ocean"
  | LINUX_FOLDER => "linux_folder"
  end.

(** Timestamps are readings of the world's clock. *)
Definition Date := nat.

(** A row of the [files] table.  The two timestamps the ORM maintains by
    itself ([createdAt], [updatedAt]) and the [folder] relation object (the
    row holds [folderId]) are left out; [metadata] is kept as its JSON
    text. *)
Module File.
Record t : Type := mk {
    id : string;
    name : string;
    originalName : string;
    path : string;
    url : option string;
    size : Z;
    mimetype : string;
    extension : string;
    storageType : StorageType;
    storageBucket : option string;
    storageKey : option string;
    folderId : option string;
    uploadedBy : option string;
    deletedBy : option string;
    metadata : option string;
    description : option string;
    tags : option (list string);
    isPublic : bool;
    checksum : option string;
    deletedAt : option Date
  }.

Definition with_deletedAt (d : option Date) (f : t) : t :=
    mk (id f) (name f) (originalName f) (path f) (url f) (size f) (mimetype f)
       (extension f) (storageType f) (storageBucket f) (storageKey f)
       (folderId f) (uploadedBy f) (deletedBy f) (metadata f) (description f)
       (tags f) (isPublic f) (checksum f) d.

Definition with_deletedBy (b : option string) (f : t) : t :=
    mk (id f) (name f) (originalName f) (path f) (url f) (size f) (mimetype f)
       (extension f) (storageType f) (storageBucket f) (storageKey f)
       (folderId f) (uploadedBy f) b (metadata f) (description f)
       (tags f) (isPublic f) (checksum f) (deletedAt f).

Definition with_folderId (fo : option string) (f : t) : t :=
    mk (id f) (name f) (originalName f) (path f) (url f) (size f) (mimetype f)
       (extension f) (storageType f) (storageBucket f) (storageKey f)
       fo (uploadedBy f) (deletedBy f) (metadata f) (description f)
       (tags f) (isPublic f) (checksum f) (deletedAt f).

Definition with_id (i : string) (f : t) : t :=
    mk i (name f) (originalName f) (path f) (url f) (size f) (mimetype f)
       (extension f) (storageType f) (storageBucket f) (storageKey f)
       (folderId f) (uploadedBy f) (deletedBy f) (metadata f) (description f)
       (tags f) (isPublic f) (checksum f) (deletedAt f).
End File.

(** A row of the [folders] table, with the same omissions; [parent],
    [children] and [files] are relations the ORM derives from [parentId],
    the closure table and [files.folderId]. *)
Module Folder.
Record t : Type := mk {
    id : string;
    name : string;
    description : option string;
    path : option string;
    parentId : option string;
    createdBy : option string;
    deletedBy : option string;
    metadata : option string;
    isPublic : bool;
    fileCount : Z;
    totalSize : Z;
    deletedAt : option Date
  }.

Definition with_deletedAt (d : option Date) (f : t) : t :=
    mk (id f) (name f) (description f) (path f) (parentId f) (createdBy f)
       (deletedBy f) (metadata f) (isPublic f) (fileCount f) (totalSize f) d.

Definition with_deletedBy (b : option string) (f : t) : t :=
    mk (id f) (name f) (description f) (path f) (parentId f) (createdBy f)
       b (metadata f) (isPublic f) (fileCount f) (totalSize f) (deletedAt f).

Definition with_parentId (p : option string) (f : t) : t :=
    mk (id f) (name f) (description f) (path f) p (createdBy f)
       (deletedBy f) (metadata f) (isPublic f) (fileCount f) (totalSize f)
       (deletedAt f).

Definition with_path (p : option string) (f : t) : t :=
    mk (id f) (name f) (description f) p (parentId f) (createdBy f)
       (deletedBy f) (metadata f) (isPublic f) (fileCount f) (totalSize f)
       (deletedAt f).

Definition with_stats (c s : Z) (f : t) : t :=
    mk (id f) (name f) (description f) (path f) (parentId f) (createdBy f)
       (deletedBy f) (metadata f) (isPublic f) c s (deletedAt f).

Definition with_id (i : string) (f : t) : t :=
    mk i (name f) (description f) (path f) (parentId f) (createdBy f)
       (deletedBy f) (metadata f) (isPublic f) (fileCount f) (totalSize f)
       (deletedAt f).
End Folder.

#[global] Instance Folder_eq_dec : EqDecision Folder.t.
Proof. solve_decision. Defined.

(** ** The world *)

(** The local disk: the regular files, each under its path as [path.join]
    gives it (every full path of the module is one), and the paths on which
    the operating system refuses [writeFile], [copyFile] and [unlink]
    whatever the reason (a read-only mount, a file owned by somebody else, a
    path that names or crosses something that is no regular file).
    Directories have no entry of their own: the disk records regular files
    only. *)
Record Disk : Type := mkDisk {
  entries : list (string * string);
  denied : list string
}.

(** An S3-compatible endpoint: the objects by bucket and key, an outage
    (every request of the client then throws the given message), and the keys
    the store refuses to delete. *)
Record ObjectStore : Type := mkObjectStore {
  objects : list ((string * string) * string);
  outage : option string;
  locked : list string
}.

Record World : Type := mkWorld {
  files : list File.t;
  folders : list Folder.t;
  folders_closure : list (string * string);
  disk : Disk;
  aws : ObjectStore;
  spaces : ObjectStore;
  now : Date;
  fresh : nat;
  log : list string
}.

Definition set_files (v : list File.t) (w : World) : World :=
  mkWorld v (folders w) (folders_closure w) (disk w) (aws w) (spaces w)
          (now w) (fresh w) (log w).
Definition set_folders (v : list Folder.t) (w : World) : World :=
  mkWorld (files w) v (folders_closure w) (disk w) (aws w) (spaces w)
          (now w) (fresh w) (log w).
Definition set_closure (v : list (string * string)) (w : World) : World :=
  mkWorld (files w) (folders w) v (disk w) (aws w) (spaces w)
          (now w) (fresh w) (log w).
Definition set_disk (v : Disk) (w : World) : World :=
  mkWorld (files w) (folders w) (folders_closure w) v (aws w) (spaces w)
          (now w) (fresh w) (log w).
Definition set_aws (v : ObjectStore) (w : World) : World :=
  mkWorld (files w) (folders w) (folders_closure w) (disk w) v (spaces w)
          (now w) (fresh w) (log w).
Definition set_spaces (v : ObjectStore) (w : World) : World :=
  mkWorld (files w) (folders w) (folders_closure w) (disk w) (aws w) v
          (now w) (fresh w) (log w).
Definition set_fresh (v : nat) (w : World) : World :=
  mkWorld (files w) (folders w) (folders_closure w) (disk w) (aws w)
          (spaces w) (now w) v (log w).
Definition set_log (v : list string) (w : World) : World :=
  mkWorld (files w) (folders w) (folders_closure w) (disk w) (aws w)
          (spaces w) (now w) (fresh w) v.

(** ** Exceptions ([file-upload.exceptions.ts]), the plain [Error], the
    named exceptions of the object-store client, and the [QueryFailedError]
    with which the ORM reports a statement the database refuses *)

Inductive Exn : Type :=
  | FileNotFoundException (fileId : string)
  | FolderNotFoundException (folderId : string)
  | FileAlreadyDeletedException (fileId : string)
  | StorageOperationException (operation error : string)
  | FolderNotEmptyException (folderId : string)
  | ServiceException (name msg : string)
  | QueryFailedError (msg : string)
  | Error (msg : string).

(** [error.message]. *)
Definition message (e : Exn) : string :=
  match e with
  | FileNotFoundException i => "File with ID " +:+ i +:+ " not found"
  | FolderNotFoundException i => "Folder with ID " +:+ i +:+ " not found"
  | FileAlreadyDeletedException i =>
      "File with ID " +:+ i +:+ " is already deleted"
  | StorageOperationException op err =>
      "Storage operation '" +:+ op +:+ "' failed: " +:+ err
  | FolderNotEmptyException i =>
      "Folder with ID " +:+ i +:+ " is not empty. Delete or move files first."
  | ServiceException _ m => m
  | QueryFailedError m => m
  | Error m => m
  end.

(** ** Computations

    A call returns a value, throws, or has not returned within the recursion
    depth allotted to it (the recursive methods take that depth as a
    parameter; [try]/[catch] does not catch the third outcome). *)
Inductive Result (A : Type) : Type :=
  | Ok (a : A)
  | Throw (e : Exn)
  | Unfinished.
Arguments Ok {A} a.
Arguments Throw {A} e.
Arguments Unfinished {A}.

Definition succeeded {A} (r : Result A) : bool :=
  match r with Ok _ => true | _ => false end.

Definition M (A : Type) : Type := World -> Result A * World.

Definition ret {A} (a : A) : M A := fun w => (Ok a, w).
Definition throw {A} (e : Exn) : M A := fun w => (Throw e, w).
Definition unfinished {A} : M A := fun w => (Unfinished, w).

Definition bind {A B} (m : M A) (k : A -> M B) : M B :=
  fun w =>
    match m w with
    | (Ok a, w') => k a w'
    | (Throw e, w') => (Throw e, w')
    | (Unfinished, w') => (Unfinished, w')
    end.

(** [try { m } catch (error) { h error }]. *)
Definition try_catch {A} (m : M A) (h : Exn -> M A) : M A :=
  fun w =>
    match m w with
    | (Throw e, w') => h e w'
    | r => r
    end.

Definition get {A} (f : World -> A) : M A := fun w => (Ok (f w), w).
Definition modify (f : World -> World) : M unit := fun w => (Ok tt, f w).

Declare Scope m_scope.
Delimit Scope m_scope with M.
Notation "x <- m ;; k" := (bind m (fun x => k))
  (at level 100, m at next level, right associativity) : m_scope.
Notation "m ;;; k" := (bind m (fun _ => k))
  (at level 100, right associativity) : m_scope.
Open Scope m_scope.

(** [for (const x of xs) { await body(x) }]. *)
Fixpoint for_of {A} (xs : list A) (body : A -> M unit) : M unit :=
  match xs with
  | [] => ret tt
  | x :: xs' => body x ;;; for_of xs' body
  end.

(** The [Logger]: the levels write to the same output. *)
Definition logger_log (msg : string) : M unit :=
  modify (fun w => set_log (log w ++ ["LOG " +:+ msg]) w).
Definition logger_error (msg : string) : M unit :=
  modify (fun w => set_log (log w ++ ["ERROR " +:+ msg]) w).
Definition logger_warn (msg : string) : M unit :=
  modify (fun w => set_log (log w ++ ["WARN " +:+ msg]) w).
Definition logger_debug (msg : string) : M unit :=
  modify (fun w => set_log (log w ++ ["DEBUG " +:+ msg]) w).

(** JavaScript truthiness of an optional string: [undefined] and the empty
    string are falsy. *)
Definition truthy (o : option string) : bool :=
  match o with
  | Some s => negb (String.eqb s "")
  | None => false
  end.

(** [a || b] on optional strings; under the guard [truthy a], [or_else a ""]
    is the string [a]. *)
Definition or_else (a : option string) (b : string) : string :=
  match a with
  | Some s => if String.eqb s "" then b else s
  | None => b
  end.

(** ** Paths ([path.posix] of Node) *)

(** The segments of a path: the texts between its separators. *)
Fixpoint split_slash (s : string) : list string :=
  match s with
  | EmptyString => [EmptyString]
  | String c rest =>
      if Ascii.eqb c "/"%char then EmptyString :: split_slash rest
      else match split_slash rest with
           | seg :: segs => String c seg :: segs
           | [] => [String c EmptyString]
           end
  end.

(** One step of [normalizeString]: the stack of the segments kept so far,
    the last one first, and the next segment.  An empty segment and [.] are
    skipped; [..] removes the segment before it, stays when there is none to
    remove and the path is relative, and is dropped at the root. *)
Definition normalize_step (allowAboveRoot : bool) (kept : list string)
    (seg : string) : list string :=
  if (String.eqb seg "" || String.eqb seg ".")%bool then kept
  else if String.eqb seg ".." then
    match kept with
    | top :: below =>
        if String.eqb top ".."
        then (if allowAboveRoot then seg :: kept else kept)
        else below
    | [] => if allowAboveRoot then [seg] else []
    end
  else seg :: kept.

Definition starts_with_slash (s : string) : bool :=
  match s with
  | String c _ => Ascii.eqb c "/"%char
  | EmptyString => false
  end.

Fixpoint ends_with_slash (s : string) : bool :=
  match s with
  | EmptyString => false
  | String c EmptyString => Ascii.eqb c "/"%char
  | String _ rest => ends_with_slash rest
  end.

(** [path.normalize]. *)
Definition path_normalize (p : string) : string :=
  if String.eqb p "" then "."
  else
    let isAbsolute := starts_with_slash p in
    let trailingSeparator := ends_with_slash p in
    let kept := foldl (normalize_step (negb isAbsolute)) [] (split_slash p) in
    let body := String.concat "/" (reverse kept) in
    if String.eqb body "" then
      (if isAbsolute then "/" else if trailingSeparator then "./" else ".")
    else
      (if isAbsolute then "/" else "") +:+ body
      +:+ (if trailingSeparator then "/" else "").

(** [path.join(a, b)]: the non-empty arguments with a separator between
    them, normalized. *)
Definition path_join (a b : string) : string :=
  if String.eqb a "" then (if String.eqb b "" then "." else path_normalize b)
  else if String.eqb b "" then path_normalize a
  else path_normalize (a +:+ "/" +:+ b).

(** [path.dirname]: the path up to the last separator that has a name after
    it, separators at the end apart; [.] or [/] when there is none. *)
Fixpoint drop_while (P : ascii → bool) (l : list ascii) : list ascii :=
  match l with
  | a :: rest => if P a then drop_while P rest else l
  | [] => []
  end.

Definition path_dirname (p : string) : string :=
  match p with
  | EmptyString => "."
  | String c rest =>
      let hasRoot := Ascii.eqb c "/"%char in
      let is_slash := fun a : ascii => Ascii.eqb a "/"%char in
      let named := drop_while is_slash (reverse (String.list_ascii_of_string rest)) in
      match drop_while (fun a => negb (is_slash a)) named with
      | [] => if hasRoot then "/" else "."
      | _ :: [] => if hasRoot then "//" else String c EmptyString
      | _ :: before =>
          String c (String.string_of_list_ascii (reverse before))
      end
  end.

(** The part of [s] from its last [.] on, when that is not its first
    character. *)
Fixpoint last_dot_suffix (s : string) : option string :=
  match s with
  | EmptyString => None
  | String c rest =>
      match last_dot_suffix rest with
      | Some e => Some e
      | None => if Ascii.eqb c "."%char then Some s else None
      end
  end.

(** [path.extname]: the extension of the last segment that is not empty
    (separators at the end are passed over); none for a name without a dot,
    for a name whose only dot comes first, and for [..]. *)
Definition path_extname (p : string) : string :=
  match filter (fun seg => seg ≠ "") (reverse (split_slash p)) with
  | String c rest :: _ =>
      if String.eqb (String c rest) ".." then ""
      else match last_dot_suffix rest with
           | Some e => e
           | None => ""
           end
  | _ => ""
  end.

(** [ext.replace('.', '')] on an extension. *)
Definition strip_dot (ext : string) : string :=
  match ext with
  | String c rest => if Ascii.eqb c "."%char then rest else ext
  | EmptyString => ext
  end.

(** ** Storage strategies ([storage-strategy.interface.ts]) *)

Record FileUploadResult : Type := mkFileUploadResult {
  r_path : string;
  r_url : option string;
  r_key : option string;
  r_bucket : option string;
  r_size : Z;
  r_mimetype : string
}.

Record FileDeleteResult : Type := mkFileDeleteResult {
  success : bool;
  d_message : option string
}.

(** [Express.Multer.File], the fields the module reads. *)
Record MulterFile : Type := mkMulterFile {
  originalname : string;
  m_mimetype : string;
  buffer : string
}.

(** The argument of [upload]: [Buffer | Express.Multer.File]. *)
Inductive Upload : Type :=
  | IsBuffer (b : string)
  | IsFile (f : MulterFile).

Definition buffer_of (u : Upload) : string :=
  match u with IsBuffer b => b | IsFile f => buffer f end.

(** [IStorageStrategy]: the methods the services call, with [deleteMultiple]
    and [exists]. *)
Record IStorageStrategy : Type := mkStrategy {
  upload : Upload -> string -> M FileUploadResult;
  delete : string -> M FileDeleteResult;
  deleteMultiple : list string -> M (list FileDeleteResult);
  exists_ : string -> M bool
}.

(** *** The file system calls *)

(** [existsSync], for the regular files of the disk. *)
Definition existsSync (p : string) : M bool :=
  get (fun w => bool_decide (p ∈ (entries (disk w)).*1)).

(** [fs.mkdir(p, { recursive: true })]: it makes directories and touches no
    regular file, so the entries of the disk are as they were. *)
Definition fs_mkdir (p : string) : M unit := ret tt.

Definition put_entry (p body : string) (es : list (string * string))
  : list (string * string) :=
  filter (fun e => e.1 ≠ p) es ++ [(p, body)].

Definition fs_writeFile (p body : string) : M unit :=
  fun w =>
    if bool_decide (p ∈ denied (disk w))
    then (Throw (Error ("EACCES: permission denied, open '" +:+ p +:+ "'")), w)
    else (Ok tt,
          set_disk (mkDisk (put_entry p body (entries (disk w)))
                           (denied (disk w))) w).

Definition fs_unlink (p : string) : M unit :=
  fun w =>
    if bool_decide (p ∈ denied (disk w))
    then (Throw (Error ("EACCES: permission denied, unlink '" +:+ p +:+ "'")), w)
    else if bool_decide (p ∈ (entries (disk w)).*1)
    then (Ok tt,
          set_disk (mkDisk (filter (fun e => e.1 ≠ p) (entries (disk w)))
                           (denied (disk w))) w)
    else (Throw (Error ("ENOENT: no such file or directory, unlink '"
                        +:+ p +:+ "'")), w).

(** [(await fs.stat(p)).size]. *)
Definition fs_stat_size (p : string) : M Z :=
  fun w =>
    match list_find (fun e => e.1 = p) (entries (disk w)) with
    | Some (_, e) => (Ok (Z.of_nat (String.length e.2)), w)
    | None => (Throw (Error ("ENOENT: no such file or directory, stat '"
                             +:+ p +:+ "'")), w)
    end.

(** *** [LocalStorageStrategy] ([local.strategy.ts]) *)

Record LocalStorageConfig : Type := mkLocalStorageConfig {
  uploadPath : string;
  baseUrl : option string;
  createFolderIfNotExists : option bool
}.

Module LocalStorageStrategy.
Section Methods.
Variable config : LocalStorageConfig.

Definition getFullPath (filename : string) : string :=
    path_join (uploadPath config) filename.

Definition getPublicUrl (filename : string) : string :=
    if truthy (baseUrl config)
    then or_else (baseUrl config) "" +:+ "/" +:+ filename
    else "".

Definition upload (file : Upload) (filename : string) : M FileUploadResult :=
    try_catch
      (let fullPath := getFullPath filename in
       let directory := path_dirname fullPath in
       present <- existsSync directory ;;
       (if negb present then fs_mkdir directory else ret tt) ;;;
       fs_writeFile fullPath (buffer_of file) ;;;
       sz <- fs_stat_size fullPath ;;
       let mimetype :=
         match file with
         | IsBuffer _ => "application/octet-stream"
         | IsFile f => m_mimetype f
         end in
       logger_log ("File uploaded successfully: " +:+ filename) ;;;
       ret (mkFileUploadResult fullPath (Some (getPublicUrl filename))
                               None None sz mimetype))
      (fun error =>
         logger_error ("Upload failed for " +:+ filename +:+ ": "
                       +:+ message error) ;;;
         throw error).

Definition delete (filepath : string) : M FileDeleteResult :=
    try_catch
      (let fullPath := getFullPath filepath in
       present <- existsSync fullPath ;;
       if present : bool then
         fs_unlink fullPath ;;;
         logger_log ("File deleted successfully: " +:+ filepath) ;;;
         ret (mkFileDeleteResult true (Some "File deleted successfully"))
       else
         ret (mkFileDeleteResult false (Some "File not found")))
      (fun error =>
         logger_error ("Delete failed for " +:+ filepath +:+ ": "
                       +:+ message error) ;;;
         ret (mkFileDeleteResult false (Some (message error)))).

Fixpoint deleteMultiple_loop (filepaths : list string)
      (results : list FileDeleteResult) : M (list FileDeleteResult) :=
    match filepaths with
    | [] => ret results
    | filepath :: rest =>
        result <- delete filepath ;;
        deleteMultiple_loop rest (results ++ [result])
    end.

Definition deleteMultiple (filepaths : list string)
    : M (list FileDeleteResult) :=
    deleteMultiple_loop filepaths [].

Definition exists_ (filepath : string) : M bool :=
    existsSync (getFullPath filepath).

Definition strategy : IStorageStrategy :=
    mkStrategy upload delete deleteMultiple exists_.
End Methods.
End LocalStorageStrategy.

(** *** [LinuxFolderStrategy] ([linux-folder.strategy.ts]) *)

Record LinuxFolderConfig : Type := mkLinuxFolderConfig {
  l_uploadPath : string;
  l_baseUrl : option string;
  l_createFolderIfNotExists : option bool;
  permissions : option string;
  owner : option (nat * nat)
}.

Module LinuxFolderStrategy.
Section Methods.
Variable config : LinuxFolderConfig.

Definition super : LocalStorageConfig :=
    mkLocalStorageConfig (l_uploadPath config) (l_baseUrl config)
                         (l_createFolderIfNotExists config).

  (** The disk of the model keeps no mode bits: [chmod] and [chown] succeed
      on a path the system lets the process touch and fail on the others;
      the failure is logged and swallowed, as in the source. *)
Definition setFilePermissions (filepath : string) : M unit :=
    fun w =>
      if bool_decide (filepath ∈ denied (disk w))
      then logger_warn ("Failed to set permissions for " +:+ filepath
                        +:+ ": EPERM: operation not permitted") w
      else logger_debug ("Permissions set for " +:+ filepath +:+ ": "
                         +:+ or_else (permissions config) "0644") w.

Definition upload (file : Upload) (filename : string) : M FileUploadResult :=
    result <- LocalStorageStrategy.upload super file filename ;;
    setFilePermissions (r_path result) ;;;
    ret result.

Definition strategy : IStorageStrategy :=
    mkStrategy upload
               (LocalStorageStrategy.delete super)
               (LocalStorageStrategy.deleteMultiple super)
               (LocalStorageStrategy.exists_ super).
End Methods.
End LinuxFolderStrategy.

(** *** The object-store client ([@aws-sdk/client-s3])

    The client of a strategy talks to one of the two endpoints of the world.
    Every request throws during an outage.  [DeleteObject] answers without an
    error whether or not the key holds an object, as S3 does; it throws on a
    key the store refuses to delete.  [DeleteObjects] does not throw for such a
    key: it reports it in the [Errors] list of its response. *)
Record S3Client : Type := mkS3Client {
  store : World -> ObjectStore;
  set_store : ObjectStore -> World -> World
}.

Definition aws_client : S3Client := mkS3Client aws set_aws.
Definition spaces_client : S3Client := mkS3Client spaces set_spaces.

Record DeleteObjectsOutput : Type := mkDeleteObjectsOutput {
  Deleted : list string;
  Errors : list string
}.

Section Client.
Variable client : S3Client.

Definition with_objects (os : list ((string * string) * string))
      (w : World) : World :=
    set_store client
      (mkObjectStore os (outage (store client w)) (locked (store client w))) w.

Definition send_PutObject (bucket key body : string) : M unit :=
    fun w =>
      match outage (store client w) with
      | Some msg => (Throw (ServiceException "NetworkingError" msg), w)
      | None =>
          (Ok tt,
           with_objects
             (filter (fun o => o.1 ≠ (bucket, key)) (objects (store client w))
              ++ [((bucket, key), body)]) w)
      end.

Definition send_DeleteObject (bucket key : string) : M unit :=
    fun w =>
      match outage (store client w) with
      | Some msg => (Throw (ServiceException "NetworkingError" msg), w)
      | None =>
          if bool_decide (key ∈ locked (store client w))
          then (Throw (ServiceException "AccessDenied" "Access Denied"), w)
          else (Ok tt,
                with_objects
                  (filter (fun o => o.1 ≠ (bucket, key))
                          (objects (store client w))) w)
      end.

Definition send_DeleteObjects (bucket : string) (keys : list string)
    : M DeleteObjectsOutput :=
    fun w =>
      match outage (store client w) with
      | Some msg => (Throw (ServiceException "NetworkingError" msg), w)
      | None =>
          let refused := filter (fun k => k ∈ locked (store client w)) keys in
          let removed := filter (fun k => k ∉ locked (store client w)) keys in
          (Ok (mkDeleteObjectsOutput removed refused),
           with_objects
             (filter (fun o => ¬ (o.1.1 = bucket ∧ o.1.2 ∈ removed))
                     (objects (store client w))) w)
      end.

Definition send_HeadObject (bucket key : string) : M Z :=
    fun w =>
      match outage (store client w) with
      | Some msg => (Throw (ServiceException "NetworkingError" msg), w)
      | None =>
          match list_find (fun o => o.1 = (bucket, key))
                          (objects (store client w)) with
          | Some (_, o) => (Ok (Z.of_nat (String.length o.2)), w)
          | None => (Throw (ServiceException "NotFound" "NotFound"), w)
          end
      end.
End Client.

(** *** [AWSS3Strategy] ([aws-s3.strategy.ts]) *)

Record AWSS3Config : Type := mkAWSS3Config {
  region : string;
  accessKeyId : string;
  secretAccessKey : string;
  bucket : string;
  acl : option string;
  endpoint : option string
}.

Module AWSS3Strategy.
Section Methods.
Variable client : S3Client.
Variable config : AWSS3Config.
  (** [this.getPublicUrl], which a subclass replaces. *)
Variable this_getPublicUrl : string -> string.

Definition this_acl : string := or_else (acl config) "private".

Definition getPublicUrl (key : string) : string :=
    if truthy (endpoint config)
    then or_else (endpoint config) "" +:+ "/" +:+ bucket config +:+ "/" +:+ key
    else "https://" +:+ bucket config +:+ ".s3." +:+ region config
         +:+ ".amazonaws.com/" +:+ key.

  (** The services pass no [options]. *)
Definition upload (file : Upload) (filename : string) : M FileUploadResult :=
    try_catch
      (let mimetype :=
         match file with
         | IsBuffer _ => "application/octet-stream"
         | IsFile f => m_mimetype f
         end in
       send_PutObject client (bucket config) filename (buffer_of file) ;;;
       logger_log ("File uploaded to S3: " +:+ filename) ;;;
       ret (mkFileUploadResult filename
              (if String.eqb this_acl "public-read"
               then Some (this_getPublicUrl filename) else None)
              (Some filename) (Some (bucket config))
              (Z.of_nat (String.length (buffer_of file))) mimetype))
      (fun error =>
         logger_error ("S3 upload failed for " +:+ filename +:+ ": "
                       +:+ message error) ;;;
         throw error).

Definition delete (key : string) : M FileDeleteResult :=
    try_catch
      (send_DeleteObject client (bucket config) key ;;;
       logger_log ("File deleted from S3: " +:+ key) ;;;
       ret (mkFileDeleteResult true (Some "File deleted successfully")))
      (fun error =>
         logger_error ("S3 delete failed for " +:+ key +:+ ": "
                       +:+ message error) ;;;
         ret (mkFileDeleteResult false (Some (message error)))).

Definition deleteMultiple (keys : list string) : M (list FileDeleteResult) :=
    try_catch
      (response <- send_DeleteObjects client (bucket config) keys ;;
       logger_log ("Batch deleted " +:+ pretty (length keys)
                   +:+ " files from S3") ;;;
       ret (map (fun key =>
                   mkFileDeleteResult true (Some "File deleted successfully"))
                keys))
      (fun error =>
         logger_error ("S3 batch delete failed: " +:+ message error) ;;;
         ret (map (fun _ => mkFileDeleteResult false (Some (message error)))
                  keys)).

Definition exists_ (key : string) : M bool :=
    try_catch
      (send_HeadObject client (bucket config) key ;;; ret true)
      (fun error =>
         match error with
         | ServiceException "NotFound" _ => ret false
         | _ => throw error
         end).

Definition strategy : IStorageStrategy :=
    mkStrategy upload delete deleteMultiple exists_.
End Methods.
End AWSS3Strategy.

(** *** [DigitalOceanStrategy] ([digital-ocean.strategy.ts]) *)

Record DigitalOceanSpacesConfig : Type := mkDigitalOceanSpacesConfig {
  do_region : string;
  do_accessKeyId : string;
  do_secretAccessKey : string;
  do_bucket : string;
  do_acl : option string;
  cdnEndpoint : option string
}.

Module DigitalOceanStrategy.
Section Methods.
Variable config : DigitalOceanSpacesConfig.

Definition super : AWSS3Config :=
    mkAWSS3Config (do_region config) (do_accessKeyId config)
      (do_secretAccessKey config) (do_bucket config) (do_acl config)
      (Some ("https://" +:+ do_region config +:+ ".digitaloceanspaces.com")).

Definition getPublicUrl (key : string) : string :=
    if truthy (cdnEndpoint config)
    then or_else (cdnEndpoint config) "" +:+ "/" +:+ key
    else "https://" +:+ do_bucket config +:+ "." +:+ do_region config
         +:+ ".digitaloceanspaces.com/" +:+ key.

Definition upload (file : Upload) (filename : string) : M FileUploadResult :=
    result <- AWSS3Strategy.upload spaces_client super getPublicUrl
                file filename ;;
    ret (if (truthy (cdnEndpoint config) && truthy (r_url result))%bool
         then mkFileUploadResult (r_path result) (Some (getPublicUrl filename))
                (r_key result) (r_bucket result) (r_size result)
                (r_mimetype result)
         else result).

Definition strategy : IStorageStrategy :=
    mkStrategy upload
               (AWSS3Strategy.delete spaces_client super)
               (AWSS3Strategy.deleteMultiple spaces_client super)
               (AWSS3Strategy.exists_ spaces_client super).
End Methods.
End DigitalOceanStrategy.

(** ** [StorageFactory] ([storage.factory.ts])

    [strategies] is a JavaScript [Map]: its entries keep the order in which
    their keys were first set. *)

Definition StrategyMap : Type := list (StorageType * IStorageStrategy).

(** [Map.prototype.set]. *)
Fixpoint map_set (k : StorageType) (v : IStorageStrategy) (m : StrategyMap)
  : StrategyMap :=
  match m with
  | [] => [(k, v)]
  | (k', v') :: m' =>
      if decide (k' = k) then (k, v) :: m' else (k', v') :: map_set k v m'
  end.

(** [Map.prototype.get]. *)
Fixpoint map_get (k : StorageType) (m : StrategyMap) : option IStorageStrategy :=
  match m with
  | [] => None
  | (k', v') :: m' => if decide (k' = k) then Some v' else map_get k m'
  end.

(** [Map.prototype.delete]. *)
Definition map_delete (k : StorageType) (m : StrategyMap) : StrategyMap :=
  filter (fun e => e.1 ≠ k) m.

Record StorageConfigMap : Type := mkStorageConfigMap {
  cfg_local : option LocalStorageConfig;
  cfg_aws_s3 : option AWSS3Config;
  cfg_digital_ocean : option DigitalOceanSpacesConfig;
  cfg_linux_folder : option LinuxFolderConfig
}.

Module StorageFactory.
Definition step {C} (cfg : option C) (k : StorageType)
      (mk : C -> IStorageStrategy) (m : StrategyMap) : StrategyMap :=
    match cfg with
    | Some c => map_set k (mk c) m
    | None => m
    end.

  (** The constructor: the map [initializeStrategies] leaves behind. *)
Definition initializeStrategies (configs : StorageConfigMap) : StrategyMap :=
    let m := step (cfg_local configs) LOCAL LocalStorageStrategy.strategy [] in
    let m := step (cfg_aws_s3 configs) AWS_S3
               (fun c => AWSS3Strategy.strategy aws_client c
                           (AWSS3Strategy.getPublicUrl c)) m in
    let m := step (cfg_digital_ocean configs) DIGITAL_OCEAN
               DigitalOceanStrategy.strategy m in
    step (cfg_linux_folder configs) LINUX_FOLDER LinuxFolderStrategy.strategy m.

Section Methods.
Variable strategies : StrategyMap.

Definition getStrategy (type : StorageType) : M IStorageStrategy :=
      match map_get type strategies with
      | Some strategy => ret strategy
      | None =>
          throw (Error ("Storage strategy not found for type: "
                        +:+ StorageType_value type
                        +:+ ". Make sure it's configured in the module."))
      end.

Definition getDefaultStrategy : M IStorageStrategy :=
      match strategies with
      | (_, firstStrategy) :: _ => ret firstStrategy
      | [] => throw (Error "No storage strategies available")
      end.

Definition hasStrategy (type : StorageType) : bool :=
      bool_decide (is_Some (map_get type strategies)).

Definition getAvailableTypes : list StorageType := strategies.*1.

Definition registerStrategy (type : StorageType)
        (strategy : IStorageStrategy) : StrategyMap :=
      map_set type strategy strategies.

Definition unregisterStrategy (type : StorageType) : StrategyMap :=
      map_delete type strategies.
End Methods.
End StorageFactory.

(** ** [FileUploadModule] ([file-upload.module.ts],
    [file-upload-config.interface.ts]) *)

(** [FileUploadModuleConfig]; [validation], [enableAutoCleanup] and
    [cleanupInterval], which the module reads nowhere, are left out. *)
Record FileUploadModuleConfig : Type := mkFileUploadModuleConfig {
  storage : StorageConfigMap;
  defaultStorageType : option StorageType
}.

Module FileUploadModule.
(** [forRoot(config)] and [forRootAsync]: the map of the [StorageFactory]
    the module provides to the services,
    [new StorageFactory(options.storage)]. *)
Definition forRoot (config : FileUploadModuleConfig) : StrategyMap :=
  StorageFactory.initializeStrategies (storage config).
End FileUploadModule.

(** ** The repositories (TypeORM over the tables of the migration)

    A query without [withDeleted] sees the rows whose [deletedAt] is null.
    Generated primary keys and [uuidv4()] draw on the world's id generator. *)

(** The double quote of the messages of the database and of Node. *)
Definition dquote : string := String (ascii_of_nat 34) EmptyString.

(** The input syntax of the type [uuid] of the database: thirty-two
    hexadecimal digits in either case, with an optional hyphen after every
    fourth digit but the last, and optional braces around the whole. *)
Definition is_hex (c : ascii) : bool :=
  let n := nat_of_ascii c in
  ((48 <=? n) && (n <=? 57) || (97 <=? n) && (n <=? 102)
   || (65 <=? n) && (n <=? 70))%nat%bool.

(** [todo] bytes are still to be read, [i] have been read. *)
Fixpoint uuid_bytes (todo i : nat) (s : string) : option string :=
  match todo with
  | O => Some s
  | S todo =>
      match s with
      | String a (String b rest) =>
          if (is_hex a && is_hex b)%bool then
            uuid_bytes todo (S i)
              match rest with
              | String c rest' =>
                  if (Ascii.eqb c "-"%char && Nat.odd i && (0 <? todo)%nat)%bool
                  then rest' else rest
              | EmptyString => rest
              end
          else None
      | _ => None
      end
  end.

Definition is_uuid (s : string) : bool :=
  match s with
  | String c body =>
      if Ascii.eqb c "{"%char then
        match uuid_bytes 16 0 body with
        | Some rest => String.eqb rest "}"
        | None => false
        end
      else
        match uuid_bytes 16 0 s with
        | Some rest => String.eqb rest ""
        | None => false
        end
  | EmptyString => false
  end.

(** What the database answers to a text that is no [uuid]. *)
Definition uuid_syntax_error (id : string) : Exn :=
  QueryFailedError ("invalid input syntax for type uuid: "
                    +:+ dquote +:+ id +:+ dquote).

(** The ids of the rows are values of the type [uuid].  The sample worlds
    write them as short names ([file-1], [docs]): a text counts as a [uuid]
    for a table when it has the syntax of one or is the id of a row of that
    table.  Ids are compared as the texts the callers pass; the other
    spellings of one [uuid] that the database accepts are not identified. *)
Definition uuid_for (ids : list string) (id : string) : bool :=
  (is_uuid id || bool_decide (id ∈ ids))%bool.

(** What an INSERT or UPDATE answers to a reference [key] that names no row:
    the text is no [uuid], or it violates the foreign key (the name of the
    constraint, which the ORM generates, is left out of the message). *)
Definition unknown_key (table : string) (key : option string) : Exn :=
  if is_uuid (default "" key)
  then QueryFailedError ("insert or update on table " +:+ dquote +:+ table
                         +:+ dquote +:+ " violates foreign key constraint")
  else uuid_syntax_error (default "" key).

(** [parseInt(text, 10)] of the decimal text of an integer: the integer
    itself up to 2^53 in magnitude, and beyond that the nearest number with
    53 significant bits, the even one of two that are equally near.  (A
    magnitude of 2^1024 or more gives [Infinity], which is not represented:
    no sum of the sizes of a table reaches it.) *)
Definition parseInt10 (z : Z) : Z :=
  let a := Z.abs z in
  if a <? 2 ^ 53 then z
  else
    let e := Z.log2 a - 52 in
    let q := Z.shiftr a e in
    let r := a - Z.shiftl q e in
    let half := 2 ^ (e - 1) in
    let q' := if ((half <? r) || ((r =? half) && Z.odd q))%bool
              then q + 1 else q in
    Z.sgn z * Z.shiftl q' e.

Definition next_id (pre : string) : M string :=
  fun w => (Ok (pre +:+ pretty (fresh w)), set_fresh (S (fresh w)) w).

Definition uuidv4 : M string := next_id "uuid-".

Definition visible (withDeleted : bool) (deletedAt : option Date) : bool :=
  (withDeleted || bool_decide (deletedAt = None))%bool.

Module fileRepository.
  (** [findOne({ where: { id }, withDeleted })]; the database refuses an
      [id] that is no [uuid]. *)
Definition findOne (id : string) (withDeleted : bool) : M (option File.t) :=
    fun w =>
      if uuid_for (File.id <$> files w) id then
        (Ok (snd <$> list_find
               (fun f => File.id f = id
                         ∧ visible withDeleted (File.deletedAt f) = true)
               (files w)), w)
      else (Throw (uuid_syntax_error id), w).

  (** [save] of an entity that has no id yet: an INSERT.  The database
      refuses a [folderId] that is no [uuid], and the foreign key of
      [folderId] on [folders.id] one that names no folder. *)
Definition save (entity : File.t) : M File.t :=
    known <- get (fun w =>
               match File.folderId entity with
               | Some fid => bool_decide (fid ∈ Folder.id <$> folders w)
               | None => true
               end) ;;
    if known : bool then
      i <- next_id "file-" ;;
      let saved := File.with_id i entity in
      modify (fun w => set_files (files w ++ [saved]) w) ;;;
      ret saved
    else
      throw (unknown_key "files" (File.folderId entity)).

  (** [softDelete(id)]: UPDATE files SET deletedAt = now WHERE id = :id. *)
Definition softDelete (id : string) : M unit :=
    modify (fun w =>
      set_files
        ((fun f => if decide (File.id f = id)
                   then File.with_deletedAt (Some (now w)) f else f)
           <$> files w) w).

  (** [restore(id)]. *)
Definition restore (id : string) : M unit :=
    modify (fun w =>
      set_files
        ((fun f => if decide (File.id f = id)
                   then File.with_deletedAt None f else f)
           <$> files w) w).

  (** [remove(entity)]: DELETE by primary key. *)
Definition remove (entity : File.t) : M unit :=
    modify (fun w =>
      set_files (filter (fun f => File.id f ≠ File.id entity) (files w)) w).

  (** [delete({ folderId })]: DELETE FROM files WHERE folderId = :folderId. *)
Definition delete_by_folder (folderId : string) : M unit :=
    modify (fun w =>
      set_files (filter (fun f => File.folderId f ≠ Some folderId) (files w)) w).

  (** [count({ where: { folderId }, withDeleted: true })]. *)
Definition count_by_folder (folderId : string) : M nat :=
    get (fun w =>
      length (filter (fun f => File.folderId f = Some folderId) (files w))).

  (** [createQueryBuilder().softDelete().where('folderId = :folderId')]. *)
Definition softDelete_by_folder (folderId : string) : M unit :=
    modify (fun w =>
      set_files
        ((fun f => if decide (File.folderId f = Some folderId)
                   then File.with_deletedAt (Some (now w)) f else f)
           <$> files w) w).

  (** [createQueryBuilder().restore().where('folderId = :folderId')]. *)
Definition restore_by_folder (folderId : string) : M unit :=
    modify (fun w =>
      set_files
        ((fun f => if decide (File.folderId f = Some folderId)
                   then File.with_deletedAt None f else f)
           <$> files w) w).

  (** The rows the two statistics queries aggregate:
      [file.folderId = :folderId AND file.deletedAt IS NULL]. *)
Definition live_in_folder (folderId : string) (fs : list File.t)
    : list File.t :=
    filter (fun f => File.folderId f = Some folderId ∧ File.deletedAt f = None)
           fs.

  (** [SELECT COUNT(file.id), COALESCE(SUM(file.size), 0)]: the two raw
      columns, which the database computes exactly and hands over as decimal
      texts. *)
Definition stats (folderId : string) : M (Z * Z) :=
    get (fun w =>
      let rows := live_in_folder folderId (files w) in
      (Z.of_nat (length rows), foldr Z.add 0 (File.size <$> rows))).
End fileRepository.

Module folderRepository.
  (** [findOne({ where: { id }, withDeleted })]; the database refuses an
      [id] that is no [uuid]. *)
Definition findOne (id : string) (withDeleted : bool) : M (option Folder.t) :=
    fun w =>
      if uuid_for (Folder.id <$> folders w) id then
        (Ok (snd <$> list_find
               (fun f => Folder.id f = id
                         ∧ visible withDeleted (Folder.deletedAt f) = true)
               (folders w)), w)
      else (Throw (uuid_syntax_error id), w).

  (** [find({ where: { parentId }, withDeleted: true })]. *)
Definition find_by_parent (parentId : string) : M (list Folder.t) :=
    get (fun w =>
      filter (fun f => Folder.parentId f = Some parentId) (folders w)).

  (** The ids the closure table lists below, respectively above, [id]; both
      include [id] itself through its reflexive pair. *)
Definition descendant_ids (cl : list (string * string)) (id : string)
    : list string :=
    snd <$> filter (fun p => p.1 = id) cl.

Definition ancestor_ids (cl : list (string * string)) (id : string)
    : list string :=
    fst <$> filter (fun p => p.2 = id) cl.

  (** [findDescendants(entity)]: the visible rows the closure table lists
      below the entity, the entity included. *)
Definition findDescendants (entity : Folder.t) : M (list Folder.t) :=
    get (fun w =>
      filter (fun f => Folder.id f ∈ descendant_ids (folders_closure w)
                                                    (Folder.id entity)
                       ∧ Folder.deletedAt f = None)
             (folders w)).

  (** [findAncestors(entity)]: the visible rows the closure table lists above
      the entity, the entity included.  The query has no ORDER BY; the rows
      are taken in the order of the table, the oldest row first, which for
      folders created from the root down is from the root to the entity. *)
Definition findAncestors (entity : Folder.t) : M (list Folder.t) :=
    get (fun w =>
      filter (fun f => Folder.id f ∈ ancestor_ids (folders_closure w)
                                                  (Folder.id entity)
                       ∧ Folder.deletedAt f = None)
             (folders w)).

  (** The closure rows the ORM writes for a new node under [parent]. *)
Definition closure_insert (id : string) (parent : option string)
      (cl : list (string * string)) : list (string * string) :=
    cl ++ [(id, id)]
       ++ match parent with
          | Some p => (fun a => (a, id)) <$> ancestor_ids cl p
          | None => []
          end.

  (** The closure rows after the subtree of [id] is hung under [parent]. *)
Definition closure_move (id : string) (parent : option string)
      (cl : list (string * string)) : list (string * string) :=
    let sub := descendant_ids cl id in
    let kept := filter (fun p => ¬ (p.2 ∈ sub ∧ p.1 ∉ sub)) cl in
    kept ++ match parent with
            | Some p =>
                a ← ancestor_ids cl p; (fun d => (a, d)) <$> sub
            | None => []
            end.

  (** [save] of a new entity: INSERT, generated id, closure rows.  The
      foreign key of [parentId] rejects a parent that does not exist. *)
Definition insert (entity : Folder.t) : M Folder.t :=
    known <- get (fun w =>
               match Folder.parentId entity with
               | Some p => bool_decide (p ∈ Folder.id <$> folders w)
               | None => true
               end) ;;
    if known : bool then
      i <- next_id "folder-" ;;
      let saved := Folder.with_id i entity in
      modify (fun w =>
        set_closure (closure_insert i (Folder.parentId entity)
                                    (folders_closure w))
          (set_folders (folders w ++ [saved]) w)) ;;;
      ret saved
    else
      throw (unknown_key "folders" (Folder.parentId entity)).

  (** [save] of a loaded entity: UPDATE of its row, and of the closure rows
      when its parent has changed. *)
Definition save (entity : Folder.t) : M Folder.t :=
    known <- get (fun w =>
               match Folder.parentId entity with
               | Some p => bool_decide (p ∈ Folder.id <$> folders w)
               | None => true
               end) ;;
    if known : bool then
      modify (fun w =>
        let moved :=
          bool_decide
            (Exists (fun f => Folder.id f = Folder.id entity
                              ∧ Folder.parentId f ≠ Folder.parentId entity)
                    (folders w)) in
        set_closure
          (if moved
           then closure_move (Folder.id entity) (Folder.parentId entity)
                             (folders_closure w)
           else folders_closure w)
          (set_folders
             ((fun f => if decide (Folder.id f = Folder.id entity)
                        then entity else f) <$> folders w) w)) ;;;
      ret entity
    else
      throw (unknown_key "folders" (Folder.parentId entity)).

  (** [softDelete(id)] and [restore(id)]. *)
Definition softDelete (id : string) : M unit :=
    modify (fun w =>
      set_folders
        ((fun f => if decide (Folder.id f = id)
                   then Folder.with_deletedAt (Some (now w)) f else f)
           <$> folders w) w).

Definition restore (id : string) : M unit :=
    modify (fun w =>
      set_folders
        ((fun f => if decide (Folder.id f = id)
                   then Folder.with_deletedAt None f else f)
           <$> folders w) w).

  (** [update(id, { fileCount, totalSize })], for the [id] of a folder the
      caller has found or read off a file row, and for values that fit the
      columns ([int] and [bigint]). *)
Definition update_stats (id : string) (fileCount totalSize : Z) : M unit :=
    modify (fun w =>
      set_folders
        ((fun f => if decide (Folder.id f = id)
                   then Folder.with_stats fileCount totalSize f else f)
           <$> folders w) w).

  (** [remove(entity)]: DELETE by primary key; the closure rows that mention
      the folder go with it (ON DELETE CASCADE) and the files that pointed at
      it lose their folder (ON DELETE SET NULL).  The cascade of [parentId]
      is not represented: [FolderService.hardDelete], the only caller, removes
      a folder after each of its child rows. *)
Definition remove (entity : Folder.t) : M unit :=
    modify (fun w =>
      set_files
        ((fun f => if decide (File.folderId f = Some (Folder.id entity))
                   then File.with_folderId None f else f) <$> files w)
        (set_closure
           (filter (fun p => p.1 ≠ Folder.id entity ∧ p.2 ≠ Folder.id entity)
                   (folders_closure w))
           (set_folders
              (filter (fun f => Folder.id f ≠ Folder.id entity) (folders w))
              w))).
End folderRepository.

(** ** [FileService] ([file.service.ts]) *)

Record FileUploadDto : Type := mkFileUploadDto {
  dto_filename : option string;
  dto_folderId : option string;
  dto_description : option string;
  dto_tags : option (list string);
  dto_isPublic : option bool;
  dto_storageType : option StorageType;
  dto_metadata : option string;
  dto_uploadedBy : option string
}.

Module FileService.
Section Methods.
(** [this.storageFactory], through the map it holds. *)
Variable strategies : StrategyMap.

Definition updateFolderStats (folderId : string) : M unit :=
  stats <- fileRepository.stats folderId ;;
  folderRepository.update_stats folderId (parseInt10 stats.1)
                                (parseInt10 stats.2).

Definition uploadFile (file : MulterFile) (uploadDto : FileUploadDto)
  : M File.t :=
  try_catch
    ((if truthy (dto_folderId uploadDto) then
        folder <- folderRepository.findOne
                    (or_else (dto_folderId uploadDto) "") false ;;
        match folder with
        | None =>
            throw (FolderNotFoundException
                     (or_else (dto_folderId uploadDto) ""))
        | Some _ => ret tt
        end
      else ret tt) ;;;
     let storageType := default LOCAL (dto_storageType uploadDto) in
     strategy <- StorageFactory.getStrategy strategies storageType ;;
     let ext := path_extname (originalname file) in
     filename <- (if truthy (dto_filename uploadDto)
                  then ret (or_else (dto_filename uploadDto) "")
                  else u <- uuidv4 ;; ret (u +:+ ext)) ;;
     uploadResult <- upload strategy (IsFile file) filename ;;
     let fileEntity :=
       File.mk "" filename (originalname file) (r_path uploadResult)
         (r_url uploadResult) (r_size uploadResult) (r_mimetype uploadResult)
         (strip_dot ext) storageType (r_bucket uploadResult)
         (r_key uploadResult) (dto_folderId uploadDto)
         (dto_uploadedBy uploadDto) None (dto_metadata uploadDto)
         (dto_description uploadDto) (dto_tags uploadDto)
         (default true (dto_isPublic uploadDto)) None None in
     savedFile <- fileRepository.save fileEntity ;;
     (if truthy (dto_folderId uploadDto)
      then updateFolderStats (or_else (dto_folderId uploadDto) "")
      else ret tt) ;;;
     logger_log ("File uploaded successfully: " +:+ File.id savedFile) ;;;
     ret savedFile)
    (fun error =>
       logger_error ("File upload failed: " +:+ message error) ;;;
       throw (StorageOperationException "upload" (message error))).

Definition findById (id : string) (includeDeleted : bool) : M File.t :=
  file <- fileRepository.findOne id includeDeleted ;;
  match file with
  | None => throw (FileNotFoundException id)
  | Some file => ret file
  end.

Definition softDelete (id : string) (deletedBy : option string) : M File.t :=
  file <- findById id false ;;
  if bool_decide (is_Some (File.deletedAt file)) then
    throw (FileAlreadyDeletedException id)
  else
    let file := if truthy deletedBy
                then File.with_deletedBy deletedBy file else file in
    fileRepository.softDelete id ;;;
    logger_log ("File soft deleted: " +:+ id) ;;;
    ret file.

Definition hardDelete (id : string) : M unit :=
  file <- fileRepository.findOne id true ;;
  match file with
  | None => throw (FileNotFoundException id)
  | Some file =>
      try_catch
        (strategy <- StorageFactory.getStrategy strategies
                       (File.storageType file) ;;
         delete strategy (or_else (File.storageKey file) (File.path file)) ;;;
         fileRepository.remove file ;;;
         (if truthy (File.folderId file)
          then updateFolderStats (or_else (File.folderId file) "")
          else ret tt) ;;;
         logger_log ("File hard deleted: " +:+ id))
        (fun error =>
           logger_error ("Hard delete failed for " +:+ id +:+ ": "
                         +:+ message error) ;;;
           throw (StorageOperationException "hard delete" (message error)))
  end.

Definition restore (id : string) : M File.t :=
  file <- fileRepository.findOne id true ;;
  match file with
  | None => throw (FileNotFoundException id)
  | Some file =>
      if bool_decide (File.deletedAt file = None) then ret file
      else
        fileRepository.restore id ;;;
        restoredFile <- findById id false ;;
        logger_log ("File restored: " +:+ id) ;;;
        ret restoredFile
  end.

End Methods.
End FileService.

(** ** [FolderService] ([folder.service.ts])

    [updateFolderPath] and [hardDelete] call themselves; their first argument
    bounds the depth of these calls. *)

Record CreateFolderDto : Type := mkCreateFolderDto {
  c_name : string;
  c_description : option string;
  c_parentId : option string;
  c_isPublic : option bool;
  c_metadata : option string;
  c_createdBy : option string
}.

Record MoveFolderDto : Type := mkMoveFolderDto {
  targetParentId : option string
}.

(** [parts.join('/')]. *)
Fixpoint join_slash (parts : list string) : string :=
  match parts with
  | [] => ""
  | [p] => p
  | p :: rest => p +:+ "/" +:+ join_slash rest
  end.

Module FolderService.

Definition findById (id : string) : M Folder.t :=
  folder <- folderRepository.findOne id false ;;
  match folder with
  | None => throw (FolderNotFoundException id)
  | Some folder => ret folder
  end.

Definition getAllDescendants (parentId : string) : M (list Folder.t) :=
  parent <- findById parentId ;;
  folderRepository.findDescendants parent.

Definition getAncestors (folderId : string) : M (list Folder.t) :=
  folder <- findById folderId ;;
  folderRepository.findAncestors folder.

Fixpoint updateFolderPath (depth : nat) (folderId : string) : M unit :=
  match depth with
  | O => unfinished
  | S depth =>
      folder <- findById folderId ;;
      ancestors <- getAncestors folderId ;;
      let pathParts := Folder.name <$> reverse ancestors in
      let folder :=
        Folder.with_path (Some ("/" +:+ join_slash pathParts)) folder in
      folderRepository.save folder ;;;
      descendants <- getAllDescendants folderId ;;
      for_of descendants (fun descendant =>
        if decide (Folder.id descendant ≠ folderId)
        then updateFolderPath depth (Folder.id descendant)
        else ret tt)
  end.

Definition create (depth : nat) (dto : CreateFolderDto) : M Folder.t :=
  (if truthy (c_parentId dto) then
     parent <- folderRepository.findOne (or_else (c_parentId dto) "") false ;;
     match parent with
     | None => throw (FolderNotFoundException (or_else (c_parentId dto) ""))
     | Some _ => ret tt
     end
   else ret tt) ;;;
  let folder :=
    Folder.mk "" (c_name dto) (c_description dto) None (c_parentId dto)
      (c_createdBy dto) None (c_metadata dto)
      (default true (c_isPublic dto)) 0 0 None in
  savedFolder <- folderRepository.insert folder ;;
  updateFolderPath depth (Folder.id savedFolder) ;;;
  logger_log ("Folder created: " +:+ Folder.id savedFolder) ;;;
  ret savedFolder.

Definition move (depth : nat) (id : string) (dto : MoveFolderDto)
  : M Folder.t :=
  folder <- findById id ;;
  (if truthy (targetParentId dto) then
     findById (or_else (targetParentId dto) "") ;;;
     descendants <- getAllDescendants id ;;
     let descendantIds := Folder.id <$> descendants in
     if bool_decide (or_else (targetParentId dto) "" ∈ descendantIds)
     then throw (Error "Cannot move folder into itself or its descendants")
     else ret tt
   else ret tt) ;;;
  let folder := Folder.with_parentId (targetParentId dto) folder in
  movedFolder <- folderRepository.save folder ;;
  updateFolderPath depth id ;;;
  logger_log ("Folder moved: " +:+ id) ;;;
  ret movedFolder.

Definition softDelete (id : string) (deletedBy : option string)
  : M Folder.t :=
  folder <- findById id ;;
  let folder := Folder.with_deletedBy deletedBy folder in
  folderRepository.softDelete id ;;;
  fileRepository.softDelete_by_folder id ;;;
  logger_log ("Folder soft deleted: " +:+ id) ;;;
  ret folder.

Fixpoint hardDelete (depth : nat) (id : string) (force : bool) : M unit :=
  match depth with
  | O => unfinished
  | S depth =>
      folder <- folderRepository.findOne id true ;;
      match folder with
      | None => throw (FolderNotFoundException id)
      | Some folder =>
          fileCount <- fileRepository.count_by_folder id ;;
          if ((0 <? fileCount)%nat && negb force)%bool then
            throw (FolderNotEmptyException id)
          else
            (if (force && (0 <? fileCount)%nat)%bool
             then fileRepository.delete_by_folder id
             else ret tt) ;;;
            children <- folderRepository.find_by_parent id ;;
            if ((0 <? length children)%nat && negb force)%bool then
              throw (FolderNotEmptyException id)
            else
              (if (force && (0 <? length children)%nat)%bool
               then for_of children (fun child =>
                      hardDelete depth (Folder.id child) true)
               else ret tt) ;;;
              folderRepository.remove folder ;;;
              logger_log ("Folder hard deleted: " +:+ id)
      end
  end.

Definition restore (id : string) : M Folder.t :=
  folder <- folderRepository.findOne id true ;;
  match folder with
  | None => throw (FolderNotFoundException id)
  | Some _ =>
      folderRepository.restore id ;;;
      fileRepository.restore_by_folder id ;;;
      restoredFolder <- findById id ;;
      logger_log ("Folder restored: " +:+ id) ;;;
      ret restoredFolder
  end.

Definition getFolderWithStats (id : string) : M Folder.t :=
  folder <- findById id ;;
  stats <- fileRepository.stats id ;;
  ret (Folder.with_stats (parseInt10 stats.1) (parseInt10 stats.2) folder).

End FolderService.

(** ** Vocabulary of the properties *)

(** Direct enumeration of the files of a folder that are not soft-deleted:
    their number and the sum of their sizes. *)
Fixpoint enumerate (folderId : string) (fs : list File.t) : Z * Z :=
  match fs with
  | [] => (0, 0)
  | f :: rest =>
      let '(n, s) := enumerate folderId rest in
      match File.folderId f, File.deletedAt f with
      | Some i, None =>
          if String.eqb i folderId then (n + 1, s + File.size f) else (n, s)
      | _, _ => (n, s)
      end
  end.

(** The live files of [F] number and weigh less than 2^53: [parseInt] is
    exact on both aggregates. *)
Definition countable (F : string) (fs : list File.t) : Prop :=
  (enumerate F fs).1 < 2 ^ 53 ∧ Z.abs (enumerate F fs).2 < 2 ^ 53.

(** The cached aggregates of folder [F] agree with the enumeration. *)
Definition stats_cached (F : string) (w : World) : Prop :=
  Forall (fun g => Folder.id g = F →
                   (Folder.fileCount g, Folder.totalSize g)
                   = enumerate F (files w))
         (folders w).

#[global] Instance stats_cached_dec F w : Decision (stats_cached F w).
Proof. unfold stats_cached. apply _. Defined.

(** A back-end that leaves the three tables alone when it uploads. *)
Definition keeps_tables (s : IStorageStrategy) : Prop :=
  ∀ u n w, files (upload s u n w).2 = files w
           ∧ folders (upload s u n w).2 = folders w
           ∧ folders_closure (upload s u n w).2 = folders_closure w.

(** [d] lies in the subtree of [a] by the parent pointers of the rows [fs]. *)
Inductive Sub (fs : list Folder.t) (a : string) : string → Prop :=
  | Sub_self : Sub fs a a
  | Sub_child g p :
      g ∈ fs → Folder.parentId g = Some p → Sub fs a p →
      Sub fs a (Folder.id g).

(** The parent pointers descend along a rank: the tree has no cycle. *)
Definition ranked (h : string → nat) (fs : list Folder.t) : Prop :=
  ∀ g p, g ∈ fs → Folder.parentId g = Some p → (h (Folder.id g) < h p)%nat.

(** The line [hardDelete] logs for a folder. *)
Definition hard_deleted_line (id : string) : string :=
  "LOG " +:+ ("Folder hard deleted: " +:+ id).

(** [x] occurs before [y] in [l]. *)
Definition before (x y : string) (l : list string) : Prop :=
  ∃ l1 l2 l3, l = l1 ++ x :: l2 ++ y :: l3.

(** Every folder row has its reflexive pair in the closure table. *)
Definition closure_reflexive (w : World) : Prop :=
  ∀ g, g ∈ folders w → (Folder.id g, Folder.id g) ∈ folders_closure w.

(** The closure table follows the parent pointers: what is above a parent
    is above its child. *)
Definition closure_complete (w : World) : Prop :=
  ∀ g p a, g ∈ folders w → Folder.parentId g = Some p →
           (a, p) ∈ folders_closure w → (a, Folder.id g) ∈ folders_closure w.

(** The [dto] with the back-end kind spelled out. *)
Definition with_storageType (t : option StorageType) (d : FileUploadDto)
  : FileUploadDto :=
  mkFileUploadDto (dto_filename d) (dto_folderId d) (dto_description d)
    (dto_tags d) (dto_isPublic d) t (dto_metadata d) (dto_uploadedBy d).

(** The computation [m] keeps the property [P] of the world, whatever its
    outcome. *)
Definition preserves {A} (P : World → Prop) (m : M A) : Prop :=
  ∀ w, P w → P (m w).2.

(** *** Sample configurations and worlds *)

Definition empty_store : ObjectStore := mkObjectStore [] None [].

Definition empty_world : World :=
  mkWorld [] [] [] (mkDisk [] []) empty_store empty_store 100%nat 0%nat [].

Definition local_config : LocalStorageConfig :=
  mkLocalStorageConfig "uploads" (Some "http://localhost:3000/uploads") None.

Definition s3_config : AWSS3Config :=
  mkAWSS3Config "eu-west-1" "AKIA" "secret" "media" None None.

Definition s3_strategy : IStorageStrategy :=
  AWSS3Strategy.strategy aws_client s3_config
    (AWSS3Strategy.getPublicUrl s3_config).

(** Local disk and S3, and S3 alone. *)
Definition both_backends : StrategyMap :=
  StorageFactory.initializeStrategies
    (mkStorageConfigMap (Some local_config) (Some s3_config) None None).

Definition s3_only : StrategyMap :=
  StorageFactory.initializeStrategies
    (mkStorageConfigMap None (Some s3_config) None None).

Definition report_pdf : MulterFile :=
  mkMulterFile "report.pdf" "application/pdf" "%PDF-1.7 body".

Definition plain_dto : FileUploadDto :=
  mkFileUploadDto None None None None None None None None.

(** The world after the folders [R] have been hard-deleted by force, in that
    order: their rows, the files that sat in them and the closure rows that
    mention them are gone, one line per folder has been logged; the disk and
    the object stores are as they were. *)
Definition purged (R : list string) (w : World) : World :=
  mkWorld
    (filter (fun f => File.folderId f ∉ (Some <$> R)) (files w))
    (filter (fun g => Folder.id g ∉ R) (folders w))
    (filter (fun p => (p.1 ∉ R) ∧ (p.2 ∉ R)) (folders_closure w))
    (disk w) (aws w) (spaces w) (now w) (fresh w)
    (log w ++ (hard_deleted_line <$> R)).

(** The object a file row refers to is present in its back-end. *)
Definition stored (f : File.t) (w : World) : Prop :=
  match File.storageType f with
  | LOCAL | LINUX_FOLDER => File.path f ∈ (entries (disk w)).*1
  | AWS_S3 =>
      (default "" (File.storageBucket f),
       or_else (File.storageKey f) (File.path f)) ∈ (objects (aws w)).*1
  | DIGITAL_OCEAN =>
      (default "" (File.storageBucket f),
       or_else (File.storageKey f) (File.path f)) ∈ (objects (spaces w)).*1
  end.

#[global] Instance stored_dec f w : Decision (stored f w).
Proof. unfold stored. destruct (File.storageType f); apply _. Defined.

(** *** Statements of the specification, and further sample worlds *)

(** The reading of C6: on a back-end that reports a key as absent, [delete]
    of that key answers [success = false] with a message. *)
Definition delete_reports_absence (s : IStorageStrategy) (key : string)
    (w : World) : Prop :=
  (exists_ s key w).1 = Ok false →
  ∃ msg w', delete s key w = (Ok (mkFileDeleteResult false (Some msg)), w').

(** The reading of C7: an upload that names no back-end kind is the upload
    that names the configured default, or else the kind registered first. *)
Definition uses_configured_default (config : FileUploadModuleConfig)
    (file : MulterFile) (dto : FileUploadDto) (w : World) : Prop :=
  dto_storageType dto = None →
  match defaultStorageType config,
        StorageFactory.getAvailableTypes (FileUploadModule.forRoot config) with
  | Some kind, _ | None, kind :: _ =>
      FileService.uploadFile (FileUploadModule.forRoot config) file dto w
      = FileService.uploadFile (FileUploadModule.forRoot config) file
          (with_storageType (Some kind) dto) w
  | None, [] => True
  end.

(** The configuration of the README for several providers: local disk, S3
    and Spaces, with S3 as the default; and S3 alone as the default. *)
Definition spaces_config : DigitalOceanSpacesConfig :=
  mkDigitalOceanSpacesConfig "nyc3" "DO00" "secret" "assets" None None.

Definition documented_config : FileUploadModuleConfig :=
  mkFileUploadModuleConfig
    (mkStorageConfigMap (Some local_config) (Some s3_config)
                        (Some spaces_config) None)
    (Some AWS_S3).

Definition s3_default_config : FileUploadModuleConfig :=
  mkFileUploadModuleConfig
    (mkStorageConfigMap None (Some s3_config) None None) (Some AWS_S3).

(** The reading of C8: for a folder the service finds, the two numbers
    returned are those of the enumeration. *)
Definition returns_enumeration (F : string) (w : World) : Prop :=
  ∀ folder, (folderRepository.findOne F false w).1 = Ok (Some folder) →
  ∃ g, (FolderService.getFolderWithStats F w).1 = Ok g
       ∧ (Folder.fileCount g, Folder.totalSize g) = enumerate F (files w).

(** The folder "Docs" of the scenarios of the specification, holding a file
    of 1000 bytes and one of 2000 bytes; the cached columns are still 0. *)
Definition docs : Folder.t :=
  Folder.mk "docs" "Docs" None (Some "/Docs") None None None None true 0 0 None.

Definition file_in (id : string) (folder : option string) (size : Z)
    (deletedAt : option Date) : File.t :=
  File.mk id (id +:+ ".bin") (id +:+ ".bin") ("uploads/" +:+ id +:+ ".bin")
    None size "application/octet-stream" "bin" LOCAL None None folder
    None None None None None true None deletedAt.

Definition docs_world : World :=
  set_closure [("docs", "docs")]
    (set_folders [docs]
       (set_files [file_in "f1" (Some "docs") 1000 None;
                   file_in "f2" (Some "docs") 2000 None] empty_world)).

(** "Docs" with a file of 2^53 bytes and a file of one byte. *)
Definition vast_world : World :=
  set_closure [("docs", "docs")]
    (set_folders [docs]
       (set_files [file_in "f1" (Some "docs") (2 ^ 53) None;
                   file_in "f2" (Some "docs") 1 None] empty_world)).

(** "Docs" with "Reports" under it, as two calls of [create] leave them. *)
Definition tree_world : World :=
  (FolderService.create 4 (mkCreateFolderDto "Reports" None (Some "folder-0")
                                             None None None)
     (FolderService.create 4 (mkCreateFolderDto "Docs" None None None None None)
        empty_world).2).2.

(** The world after one upload to the local disk. *)
Definition uploaded_world : World :=
  (FileService.uploadFile both_backends report_pdf plain_dto empty_world).2.

(** The world after one upload to S3, with the store then out of reach. *)
Definition s3_dto : FileUploadDto :=
  with_storageType (Some AWS_S3) plain_dto.

Definition unreachable_world : World :=
  let w := (FileService.uploadFile both_backends report_pdf s3_dto
              empty_world).2 in
  set_aws (mkObjectStore (objects (aws w)) (Some "connect ETIMEDOUT") []) w.

(** "Docs" with two uploaded files in it. *)
Definition docs_dto : FileUploadDto :=
  mkFileUploadDto None (Some "folder-0") None None None None None None.

Definition stocked_world : World :=
  let w := (FolderService.create 4
              (mkCreateFolderDto "Docs" None None None None None)
              empty_world).2 in
  let w := (FileService.uploadFile both_backends report_pdf docs_dto w).2 in
  (FileService.uploadFile both_backends report_pdf docs_dto w).2.

(** The same with the first file soft-deleted before the second upload. *)
Definition restocked_world : World :=
  let w := (FolderService.create 4
              (mkCreateFolderDto "Docs" None None None None None)
              empty_world).2 in
  let w := (FileService.uploadFile both_backends report_pdf docs_dto w).2 in
  let w := (FileService.softDelete "file-2" None w).2 in
  (FileService.uploadFile both_backends report_pdf docs_dto w).2.

(** The reading of C4 for the folder case: a [folderId] that names no folder
    row means no row and no write in any back-end. *)
Definition no_write_for_unknown_folder (strategies : StrategyMap)
    (file : MulterFile) (dto : FileUploadDto) (w : World) : Prop :=
  (∃ fid, dto_folderId dto = Some fid ∧ fid ∉ Folder.id <$> folders w) →
  let w' := (FileService.uploadFile strategies file dto w).2 in
  files w' = files w ∧ disk w' = disk w ∧ aws w' = aws w
  ∧ spaces w' = spaces w.

Definition blank_folder_dto : FileUploadDto :=
  mkFileUploadDto None (Some "") None None None None None None.

(** What a forced hard delete of [id] in [w] has removed, in order. *)
Definition removal_order (w : World) (id : string) (R : list string) : Prop :=
  (∀ x, x ∈ R ↔ Sub (folders w) id x)
  ∧ NoDup R
  ∧ (∃ R0, R = R0 ++ [id])
  ∧ (∀ g p, g ∈ folders w → Folder.parentId g = Some p → p ∈ R →
            before (Folder.id g) p R).

(** The reading of C3 for the files of the folder: after the forced hard
    delete, the row of each of them is gone and so is its object. *)
Definition forced_delete_removes_objects (depth : nat) (w : World)
    (id : string) : Prop :=
  let w' := (FolderService.hardDelete depth id true w).2 in
  Forall (fun f => File.folderId f = Some id →
                   (File.id f ∉ (File.id <$> files w')) ∧ ¬ stored f w')
         (files w).

(** The row of "Reports" in that tree. *)
Definition reports : Folder.t :=
  Folder.mk "folder-1" "Reports" None (Some "/Reports/Docs") (Some "folder-0")
    None None None true 0 0 None.

(** "Docs" with "Reports" under it and one uploaded file in "Docs". *)
Definition library_world : World :=
  (FileService.uploadFile both_backends report_pdf docs_dto tree_world).2.

Definition library_rank (id : string) : nat :=
  if String.eqb id "folder-0" then 1%nat else 0%nat.

(** Closes a decidable goal on concrete data by evaluation. *)
Ltac by_evaluation := apply (bool_decide_unpack _); vm_compute; exact I.

(** ** The remaining methods of the back-ends and of the services *)

(** *** File system calls of [get], [copy] and [move] *)

(** [fs.readFile]. *)
Definition fs_readFile (p : string) : M string :=
  fun w =>
    match list_find (fun e => e.1 = p) (entries (disk w)) with
    | Some (_, e) => (Ok e.2, w)
    | None => (Throw (Error ("ENOENT: no such file or directory, open '"
                             +:+ p +:+ "'")), w)
    end.

(** [fs.copyFile]: the source is opened for reading, the destination for
    writing; when both are the same file nothing is copied. *)
Definition fs_copyFile (src dest : string) : M unit :=
  fun w =>
    match list_find (fun e => e.1 = src) (entries (disk w)) with
    | None =>
        (Throw (Error ("ENOENT: no such file or directory, copyfile '"
                       +:+ src +:+ "' -> '" +:+ dest +:+ "'")), w)
    | Some (_, e) =>
        if bool_decide (dest ∈ denied (disk w))
        then (Throw (Error ("EACCES: permission denied, copyfile '"
                            +:+ src +:+ "' -> '" +:+ dest +:+ "'")), w)
        else if bool_decide (src = dest) then (Ok tt, w)
        else (Ok tt,
              set_disk (mkDisk (put_entry dest e.2 (entries (disk w)))
                               (denied (disk w))) w)
    end.

(** *** [LocalStorageStrategy]: [uploadMultiple], [get], [getSignedUrl],
    [copy], [move] *)

Section LocalMethods.
Variable config : LocalStorageConfig.



Definition LocalStorageStrategy_get (filepath : string) : M string :=
  try_catch
    (fs_readFile (LocalStorageStrategy.getFullPath config filepath))
    (fun error =>
       logger_error ("Get file failed for " +:+ filepath +:+ ": "
                     +:+ message error) ;;;
       throw error).

(** [getSignedUrl]: the options are not read. *)
Definition LocalStorageStrategy_getSignedUrl (filepath : string) : M string :=
  ret (LocalStorageStrategy.getPublicUrl config filepath).

Definition LocalStorageStrategy_copy (sourcePath destinationPath : string)
  : M FileUploadResult :=
  try_catch
    (let sourceFullPath :=
       LocalStorageStrategy.getFullPath config sourcePath in
     let destFullPath :=
       LocalStorageStrategy.getFullPath config destinationPath in
     let destDirectory := path_dirname destFullPath in
     present <- existsSync destDirectory ;;
     (if negb present then fs_mkdir destDirectory else ret tt) ;;;
     fs_copyFile sourceFullPath destFullPath ;;;
     sz <- fs_stat_size destFullPath ;;
     logger_log ("File copied from " +:+ sourcePath +:+ " to "
                 +:+ destinationPath) ;;;
     ret (mkFileUploadResult destFullPath
            (Some (LocalStorageStrategy.getPublicUrl config destinationPath))
            None None sz "application/octet-stream"))
    (fun error =>
       logger_error ("Copy failed: " +:+ message error) ;;;
       throw error).

Definition LocalStorageStrategy_move (sourcePath destinationPath : string)
  : M FileUploadResult :=
  try_catch
    (result <- LocalStorageStrategy_copy sourcePath destinationPath ;;
     LocalStorageStrategy.delete config sourcePath ;;;
     logger_log ("File moved from " +:+ sourcePath +:+ " to "
                 +:+ destinationPath) ;;;
     ret result)
    (fun error =>
       logger_error ("Move failed: " +:+ message error) ;;;
       throw error).

End LocalMethods.

(** *** [AWSS3Strategy]: [get] *)

Section ClientGet.
Variable client : S3Client.

(** [GetObject], with the body of the response read to its end. *)
Definition send_GetObject (bucket key : string) : M string :=
  fun w =>
    match outage (store client w) with
    | Some msg => (Throw (ServiceException "NetworkingError" msg), w)
    | None =>
        match list_find (fun o => o.1 = (bucket, key))
                        (objects (store client w)) with
        | Some (_, o) => (Ok o.2, w)
        | None =>
            (Throw (ServiceException "NoSuchKey"
                      "The specified key does not exist."), w)
        end
    end.

Variable config : AWSS3Config.

Definition AWSS3Strategy_get (key : string) : M string :=
  try_catch
    (send_GetObject (bucket config) key)
    (fun error =>
       logger_error ("S3 get file failed for " +:+ key +:+ ": "
                     +:+ message error) ;;;
       throw error).
End ClientGet.

(** *** [FileService]: [uploadMultiple], [updateMetadata] and the bulk
    operations *)

(** The [updates] of [updateMetadata], as [bulkUpdateMetadata] builds them:
    an object whose own keys are among [description], [tags], [isPublic] and
    [metadata]; a key that is absent is [None]. *)
Record MetadataUpdates : Type := mkMetadataUpdates {
  u_description : option string;
  u_tags : option (list string);
  u_isPublic : option bool;
  u_metadata : option string
}.

(** [Object.assign(file, updates)] for such [updates]: each key that is
    there is copied to the entity. *)
Definition File_assign (updates : MetadataUpdates) (f : File.t) : File.t :=
  File.mk (File.id f) (File.name f) (File.originalName f) (File.path f)
    (File.url f) (File.size f) (File.mimetype f) (File.extension f)
    (File.storageType f) (File.storageBucket f) (File.storageKey f)
    (File.folderId f) (File.uploadedBy f) (File.deletedBy f)
    (match u_metadata updates with
     | Some m => Some m | None => File.metadata f end)
    (match u_description updates with
     | Some d => Some d | None => File.description f end)
    (match u_tags updates with
     | Some t => Some t | None => File.tags f end)
    (default (File.isPublic f) (u_isPublic updates))
    (File.checksum f) (File.deletedAt f).

(** [fileRepository.save] of a loaded entity: UPDATE of its row. *)
Definition fileRepository_update (entity : File.t) : M File.t :=
  modify (fun w =>
    set_files ((fun f => if decide (File.id f = File.id entity)
                         then entity else f) <$> files w) w) ;;;
  ret entity.

Record BulkDeleteDto : Type := mkBulkDeleteDto {
  bd_fileIds : list string;
  bd_soft : option bool;
  bd_deletedBy : option string
}.

Record BulkRestoreDto : Type := mkBulkRestoreDto {
  br_fileIds : list string
}.

Record BulkUpdateMetadataDto : Type := mkBulkUpdateMetadataDto {
  bu_fileIds : list string;
  bu_tags : option (list string);
  bu_description : option string;
  bu_isPublic : option bool;
  bu_metadata : option string
}.

Record BulkOperationResultDto : Type := mkBulkOperationResultDto {
  successful : list string;
  failed : list (string * string);
  total : nat;
  successCount : nat;
  failureCount : nat
}.

(** The loop of the four bulk methods, which differ in the call they make
    for each id:
    [for (const fileId of dto.fileIds) { try { await op(fileId); ... }
       catch (error) { ... } }]. *)
Fixpoint bulk_loop {A} (op : string -> M A) (fileIds : list string)
    (results : BulkOperationResultDto) : M BulkOperationResultDto :=
  match fileIds with
  | [] => ret results
  | fileId :: rest =>
      results <-
        try_catch
          (op fileId ;;;
           ret (mkBulkOperationResultDto
                  (successful results ++ [fileId]) (failed results)
                  (total results) (S (successCount results))
                  (failureCount results)))
          (fun error =>
             ret (mkBulkOperationResultDto
                    (successful results)
                    (failed results ++ [(fileId, message error)])
                    (total results) (successCount results)
                    (S (failureCount results)))) ;;
      bulk_loop op rest results
  end.

Definition bulk_start (fileIds : list string) : BulkOperationResultDto :=
  mkBulkOperationResultDto [] [] (length fileIds) 0 0.

Section FileServiceMethods.
Variable strategies : StrategyMap.

Fixpoint FileService_uploadMultiple_loop (files : list MulterFile)
    (uploadDto : FileUploadDto) (successful : list File.t)
    (failed : list (string * string))
  : M (list File.t * list (string * string)) :=
  match files with
  | [] => ret (successful, failed)
  | file :: rest =>
      r <- try_catch
             (uploadedFile <- FileService.uploadFile strategies file
                                uploadDto ;;
              ret (successful ++ [uploadedFile], failed))
             (fun error =>
                ret (successful,
                     failed ++ [(originalname file, message error)])) ;;
      FileService_uploadMultiple_loop rest uploadDto r.1 r.2
  end.

(** The result is the pair [{ successful, failed }]. *)
Definition FileService_uploadMultiple (files : list MulterFile)
    (uploadDto : FileUploadDto)
  : M (list File.t * list (string * string)) :=
  FileService_uploadMultiple_loop files uploadDto [] [].

(** [updateMetadata(id, updates)] for the [updates] that
    [bulkUpdateMetadata] builds, whose own keys are among the four.  (The
    body of a request, which the controller passes on as it comes, may hold
    other keys; [Object.assign] would copy them as well, and they are not
    represented.) *)
Definition FileService_updateMetadata (id : string)
    (updates : MetadataUpdates) : M File.t :=
  file <- FileService.findById id false ;;
  let file := File_assign updates file in
  updatedFile <- fileRepository_update file ;;
  logger_log ("File metadata updated: " +:+ id) ;;;
  ret updatedFile.

Definition FileService_bulkSoftDelete (dto : BulkDeleteDto)
  : M BulkOperationResultDto :=
  bulk_loop (fun fileId => FileService.softDelete fileId (bd_deletedBy dto))
            (bd_fileIds dto) (bulk_start (bd_fileIds dto)).

Definition FileService_bulkHardDelete (dto : BulkDeleteDto)
  : M BulkOperationResultDto :=
  bulk_loop (fun fileId => FileService.hardDelete strategies fileId)
            (bd_fileIds dto) (bulk_start (bd_fileIds dto)).

Definition FileService_bulkRestore (dto : BulkRestoreDto)
  : M BulkOperationResultDto :=
  bulk_loop (fun fileId => FileService.restore fileId)
            (br_fileIds dto) (bulk_start (br_fileIds dto)).

Definition FileService_bulkUpdateMetadata (dto : BulkUpdateMetadataDto)
  : M BulkOperationResultDto :=
  let updates :=
    mkMetadataUpdates (bu_description dto) (bu_tags dto) (bu_isPublic dto)
                      (bu_metadata dto) in
  bulk_loop (fun fileId => FileService_updateMetadata fileId updates)
            (bu_fileIds dto) (bulk_start (bu_fileIds dto)).

(** *** [FileController]: [uploadMultiple] and [bulkDelete] *)

Record MultipleFileUploadResponseDto : Type :=
  mkMultipleFileUploadResponseDto {
    mu_successful : list File.t;
    mu_failed : list (string * string);
    mu_total : nat;
    mu_successCount : nat;
    mu_failureCount : nat
  }.

Definition FileController_uploadMultiple (files : list MulterFile)
    (uploadDto : FileUploadDto) : M MultipleFileUploadResponseDto :=
  result <- FileService_uploadMultiple files uploadDto ;;
  ret (mkMultipleFileUploadResponseDto result.1 result.2 (length files)
         (length result.1) (length result.2)).

(** [dto.soft !== false]. *)
Definition FileController_bulkDelete (dto : BulkDeleteDto)
  : M BulkOperationResultDto :=
  if bool_decide (bd_soft dto ≠ Some false)
  then FileService_bulkSoftDelete dto
  else FileService_bulkHardDelete dto.

End FileServiceMethods.

(** *** Vocabulary of the further properties *)

(** The value an association list gives a key: that of its first entry for
    the key. *)
Fixpoint entry_lookup {K} `{EqDecision K} (k : K) (es : list (K * string))
  : option string :=
  match es with
  | [] => None
  | (k', v) :: es => if decide (k' = k) then Some v else entry_lookup k es
  end.

(** The content of the regular file at [p]. *)
Definition disk_lookup (p : string) (w : World) : option string :=
  entry_lookup p (entries (disk w)).

(** The body of the object at [key] of [bucket]. *)
Definition object_lookup (client : S3Client) (bucket key : string)
    (w : World) : option string :=
  entry_lookup (bucket, key) (objects (store client w)).

(** A relative path that leaves the working directory: its first segment is
    [..]. *)
Definition climbs (p : string) : bool :=
  match split_slash p with
  | seg :: _ => String.eqb seg ".."
  | [] => false
  end.

(** Two full paths that name two files wherever the process runs: they
    differ, neither leaves the working directory, and both are absolute or
    both relative. *)
Definition distinct_files (p q : string) : Prop :=
  p ≠ q ∧ climbs p = false ∧ climbs q = false
  ∧ starts_with_slash p = starts_with_slash q.

#[global] Instance distinct_files_dec p q : Decision (distinct_files p q).
Proof. unfold distinct_files. apply _. Defined.

(** The three tables of the database. *)
Definition tables (w : World) : list File.t * list Folder.t
                                * list (string * string) :=
  (files w, folders w, folders_closure w).

(** Everything but the logger output. *)
Definition state (w : World) : World := set_log [] w.

(** The kinds a configuration map names. *)
Definition configured (configs : StorageConfigMap) (t : StorageType) : Prop :=
  match t with
  | LOCAL => is_Some (cfg_local configs)
  | AWS_S3 => is_Some (cfg_aws_s3 configs)
  | DIGITAL_OCEAN => is_Some (cfg_digital_ocean configs)
  | LINUX_FOLDER => is_Some (cfg_linux_folder configs)
  end.

#[global] Instance configured_dec configs t : Decision (configured configs t).
Proof. destruct t; apply _. Defined.

(** The maps a [StorageFactory] can hold: the one its constructor builds,
    changed by [registerStrategy] and [unregisterStrategy]. *)
Inductive built : StrategyMap -> Prop :=
  | built_new configs : built (StorageFactory.initializeStrategies configs)
  | built_register m type strategy :
      built m -> built (StorageFactory.registerStrategy m type strategy)
  | built_unregister m type :
      built m -> built (StorageFactory.unregisterStrategy m type).

(** *** Further sample worlds *)

(** A disk that holds one file under the upload directory. *)
Definition notes_world : World :=
  set_disk (mkDisk [("uploads/notes.txt", "hello")] []) empty_world.

(** The same with the file protected against writing and removal. *)
Definition readonly_world : World :=
  set_disk (mkDisk [("uploads/notes.txt", "hello")] ["uploads/notes.txt"])
    empty_world.

(** A client of one of the two endpoints of the world. *)
Definition endpoint_client (client : S3Client) : Prop :=
  client = aws_client ∨ client = spaces_client.

(** An S3 bucket that holds one object, and the same during an outage. *)
Definition bucket_world : World :=
  set_aws (mkObjectStore [(("media", "logo.png"), "PNG")] None []) empty_world.

Definition outage_world : World :=
  set_aws (mkObjectStore [(("media", "logo.png"), "PNG")]
                         (Some "connect ETIMEDOUT") []) empty_world.

(** The result of a bulk operation accounts for the ids it was given: every
    id is listed once for each time it was given, among the successes or
    among the failures, and the three counters are the lengths. *)
Definition accounts_for (fileIds : list string) (r : BulkOperationResultDto)
  : Prop :=
  total r = length fileIds
  ∧ successCount r = length (successful r)
  ∧ failureCount r = length (failed r)
  ∧ successful r ++ (failed r).*1 ≡ₚ fileIds.

(** No live row has one of the ids [acc]. *)
Definition hidden (acc : list string) (w : World) : Prop :=
  ∀ i, i ∈ acc → fileRepository.findOne i false w = (Ok None, w).

(** The back-ends of the world. *)
Definition backends (w : World) : Disk * ObjectStore * ObjectStore :=
  (disk w, aws w, spaces w).

(** The columns of a file row that say where its bytes are, how many they
    are and which folder counts them. *)
Definition storage_columns (f : File.t)
  : string * string * StorageType * option string * option string
    * option string * Z * option Date :=
  (File.id f, File.path f, File.storageType f, File.storageBucket f,
   File.storageKey f, File.folderId f, File.size f, File.deletedAt f).

(** The columns of a file row other than the four a metadata update may
    assign. *)
Definition fixed_columns (f : File.t) :=
  (storage_columns f, File.name f, File.originalName f, File.url f,
   File.mimetype f, File.extension f, File.uploadedBy f, File.deletedBy f,
   File.checksum f).

(** A value [Object.assign] has copied when the key is there, and the value
    the target had when it is not. *)
Definition assigned {A} (given : option A) (before : option A) : option A :=
  match given with
  | Some v => Some v
  | None => before
  end.

(** "Docs" soft-deleted after one of its two files had been soft-deleted on
    its own. *)
Definition binned_world : World :=
  (FolderService.softDelete "docs" None
     (FileService.softDelete "f1" None docs_world).2).2.

(** * Properties *)

(** ** Facts about lists *)

Lemma map_const_replicate {A B} (b : B) (l : list A) :
  map (fun _ => b) l = replicate (length l) b.
Proof. induction l as [|a l IH]; simpl; [reflexivity|]. by rewrite IH. Qed.

Lemma not_in_filter_ne (p : string) (es : list (string * string)) :
  p ∉ (filter (fun e => e.1 ≠ p) es).*1.
Proof.
  intros H. apply list_elem_of_fmap in H as ([a b] & -> & H).
  apply list_elem_of_filter in H as [H _]. by apply H.
Qed.

Lemma filter_all {A} (P : A → Prop) `{∀ x, Decision (P x)} (l : list A) :
  (∀ x, x ∈ l → P x) → filter P l = l.
Proof.
  induction l as [|x l IH]; [done|]. intros Hall.
  rewrite filter_cons, decide_True by (apply Hall; left).
  f_equal. apply IH. intros y Hy. apply Hall. by right.
Qed.

Lemma fmap_unless {A} (P : A → Prop) `{∀ x, Decision (P x)} (g : A → A)
    (l : list A) :
  (∀ x, x ∈ l → ¬ P x) →
  (fun x => if decide (P x) then g x else x) <$> l = l.
Proof.
  intros Hnone. rewrite <- (list_fmap_id l) at 2.
  apply list_fmap_ext. intros i x Hx. simpl.
  rewrite decide_False; [done|].
  apply Hnone. by eapply list_elem_of_lookup_2.
Qed.

(** ** Object-store deletion *)

Section ObjectStoreDelete.
Variable client : S3Client.
Variable config : AWSS3Config.

(** What [delete] answers is decided by the request alone: it succeeds
    exactly when [send] returns, whatever the bucket holds. *)
Lemma s3_delete_follows_send key w :
  match send_DeleteObject client (bucket config) key w with
  | (Ok _, w1) =>
      AWSS3Strategy.delete client config key w
      = (Ok (mkFileDeleteResult true (Some "File deleted successfully")),
         set_log (log w1 ++ ["LOG " +:+ ("File deleted from S3: " +:+ key)]) w1)
  | (Throw e, w1) =>
      ∃ w2, AWSS3Strategy.delete client config key w
            = (Ok (mkFileDeleteResult false (Some (message e))), w2)
  | (Unfinished, _) => False
  end.
Proof.
  unfold AWSS3Strategy.delete, try_catch, bind.
  destruct (send_DeleteObject client (bucket config) key w) as [[u|e|] w1] eqn:E.
  - reflexivity.
  - eexists. reflexivity.
  - unfold send_DeleteObject in E.
    destruct (outage (store client w)); [discriminate|].
    case_bool_decide; discriminate.
Qed.

End ObjectStoreDelete.

(** C10.  The batch delete of the object-store back-end answers one result
    per key, and the results are uniform: all of them report success when the
    single batch request returns (whatever its response lists under
    [Errors]), all of them report the failure with the message of the
    exception when the request throws.  Mixed outcomes are never reported. *)
Theorem deleteMultiple_uniform (client : S3Client) (config : AWSS3Config)
    (keys : list string) (w : World) :
  ∃ rs w',
    AWSS3Strategy.deleteMultiple client config keys w = (Ok rs, w')
    ∧ length rs = length keys
    ∧ match send_DeleteObjects client (bucket config) keys w with
      | (Ok response, _) =>
          rs = replicate (length keys)
                 (mkFileDeleteResult true (Some "File deleted successfully"))
      | (Throw e, _) =>
          rs = replicate (length keys)
                 (mkFileDeleteResult false (Some (message e)))
      | (Unfinished, _) => False
      end.
Proof.
  unfold AWSS3Strategy.deleteMultiple, try_catch, bind.
  destruct (send_DeleteObjects client (bucket config) keys w)
    as [[response|e|] w1] eqn:E; simpl.
  - eexists _, _. split; [reflexivity|].
    rewrite map_const_replicate. by rewrite length_replicate.
  - eexists _, _. split; [reflexivity|].
    rewrite map_const_replicate. by rewrite length_replicate.
  - unfold send_DeleteObjects in E.
    destruct (outage (store client w)); discriminate.
Qed.

(** A batch in which the store refuses one key of two: the response lists
    the refusal, the object is still there, and both results say success. *)
Example deleteMultiple_hides_refusal :
  let w := set_aws (mkObjectStore [(("media", "a"), "1"); (("media", "b"), "2")]
                                  None ["b"]) empty_world in
  (send_DeleteObjects aws_client "media" ["a"; "b"] w).1
  = Ok (mkDeleteObjectsOutput ["a"] ["b"])
  ∧ (AWSS3Strategy.deleteMultiple aws_client s3_config ["a"; "b"] w).1
    = Ok [mkFileDeleteResult true (Some "File deleted successfully");
          mkFileDeleteResult true (Some "File deleted successfully")]
  ∧ objects (aws (AWSS3Strategy.deleteMultiple aws_client s3_config
                    ["a"; "b"] w).2)
    = [(("media", "b"), "2")].
Proof. vm_compute. done. Qed.

(** ** Deleting an object that is not there *)

(** C6, refuted for the object store: on an empty bucket the S3 back-end
    reports the key as absent and its [delete] answers [success = true]. *)
Lemma s3_delete_missing_succeeds :
  ¬ delete_reports_absence s3_strategy "ghost.txt" empty_world.
Proof.
  unfold delete_reports_absence. intros H.
  destruct H as (msg & w' & H); [vm_compute; reflexivity|].
  vm_compute in H. discriminate.
Qed.

(** The four outcomes of the [delete] of the local disk. *)
Lemma local_delete_cases config path w :
  let fullPath := LocalStorageStrategy.getFullPath config path in
  ((fullPath ∉ (entries (disk w)).*1)
   ∧ LocalStorageStrategy.delete config path w
     = (Ok (mkFileDeleteResult false (Some "File not found")), w))
  ∨ (fullPath ∈ (entries (disk w)).*1 ∧ fullPath ∈ denied (disk w)
     ∧ ∃ msg l,
         LocalStorageStrategy.delete config path w
         = (Ok (mkFileDeleteResult false (Some msg)), set_log l w))
  ∨ (fullPath ∈ (entries (disk w)).*1 ∧ (fullPath ∉ denied (disk w))
     ∧ ∃ l,
         LocalStorageStrategy.delete config path w
         = (Ok (mkFileDeleteResult true (Some "File deleted successfully")),
            set_log l
              (set_disk (mkDisk (filter (fun e => e.1 ≠ fullPath)
                                        (entries (disk w)))
                                (denied (disk w))) w))).
Proof.
  intros fullPath.
  unfold LocalStorageStrategy.delete, try_catch, bind, existsSync, get,
    fs_unlink.
  fold fullPath.
  destruct (decide (fullPath ∈ (entries (disk w)).*1)) as [Hin|Hin].
  - right. rewrite (bool_decide_eq_true_2 _ Hin).
    destruct (decide (fullPath ∈ denied (disk w))) as [Hd|Hd].
    + left. rewrite (bool_decide_eq_true_2 _ Hd). simpl.
      split; [done|]. split; [done|]. by eexists _, _.
    + right. rewrite (bool_decide_eq_false_2 _ Hd).
      rewrite (bool_decide_eq_true_2 _ Hin). simpl.
      split; [done|]. split; [done|]. by eexists.
  - left. by rewrite (bool_decide_eq_false_2 _ Hin).
Qed.

(** C6, as the code has it.  On the local file-system back-ends a [delete]
    of a path at which [exists] finds nothing answers [success = false] with
    a message; [delete] never throws, and whenever it answers
    [success = false] the disk is as it was; in particular the second of two
    deletes answers [success = false] after the first has succeeded.  On the
    object-store back-ends [delete] never throws either, but it has no
    existence check: it answers [success = true] whenever the delete request
    returns, which it does on a reachable store for any key it may delete,
    with or without an object, and [success = false] with the message of the
    exception when the request throws. *)
Theorem delete_of_absent_object :
  (∀ config path w,
     delete_reports_absence (LocalStorageStrategy.strategy config) path w)
  ∧ (∀ config path w,
       ∃ r w', delete (LocalStorageStrategy.strategy config) path w
               = (Ok r, w')
               ∧ is_Some (d_message r)
               ∧ (success r = false → disk w' = disk w))
  ∧ (∀ config path w r w',
       delete (LocalStorageStrategy.strategy config) path w = (Ok r, w') →
       success r = true →
       ∃ msg w'',
         delete (LocalStorageStrategy.strategy config) path w'
         = (Ok (mkFileDeleteResult false (Some msg)), w'')
         ∧ disk w'' = disk w')
  ∧ (∀ config, delete (LinuxFolderStrategy.strategy config)
               = delete (LocalStorageStrategy.strategy
                           (LinuxFolderStrategy.super config)))
  ∧ (∀ client config key w,
       (∃ r w',
          AWSS3Strategy.delete client config key w = (Ok r, w')
          ∧ match (send_DeleteObject client (bucket config) key w).1 with
            | Ok _ =>
                r = mkFileDeleteResult true (Some "File deleted successfully")
            | Throw e => r = mkFileDeleteResult false (Some (message e))
            | Unfinished => False
            end)
       ∧ (outage (store client w) = None →
          key ∉ locked (store client w) →
          ∃ u, (send_DeleteObject client (bucket config) key w).1 = Ok u))
  ∧ (∀ config, delete (DigitalOceanStrategy.strategy config)
               = AWSS3Strategy.delete spaces_client
                   (DigitalOceanStrategy.super config)).
Proof.
  split_and!.
  - intros config path w Hex. simpl in *.
    destruct (local_delete_cases config path w)
      as [[Hin E]|[(Hin & _ & msg & l & E)|(Hin & _ & l & E)]].
    + rewrite E. by eexists _, _.
    + rewrite E. by eexists _, _.
    + exfalso. revert Hex.
      unfold LocalStorageStrategy.exists_, existsSync, get. simpl.
      by rewrite (bool_decide_eq_true_2 _ Hin).
  - intros config path w. simpl.
    destruct (local_delete_cases config path w)
      as [[Hin E]|[(Hin & _ & msg & l & E)|(Hin & _ & l & E)]];
      rewrite E; eexists _, _; (split; [reflexivity|]); simpl;
      (split; [by eexists|]); done.
  - intros config path w r w' H Hs. simpl in *.
    destruct (local_delete_cases config path w)
      as [[Hin E]|[(Hin & _ & msg & l & E)|(Hin & _ & l & E)]];
      rewrite E in H; injection H as <- <-; try discriminate Hs.
    destruct (local_delete_cases config path
                (set_log l
                   (set_disk
                      (mkDisk (filter (fun e => e.1 ≠ LocalStorageStrategy.getFullPath config path)
                                      (entries (disk w)))
                              (denied (disk w))) w)))
      as [[Hin' E']|[(Hin' & _)|(Hin' & _)]].
    + rewrite E'. by eexists _, _.
    + by apply not_in_filter_ne in Hin'.
    + by apply not_in_filter_ne in Hin'.
  - reflexivity.
  - intros client config key w. split.
    + pose proof (s3_delete_follows_send client config key w) as H.
      destruct (send_DeleteObject client (bucket config) key w)
        as [[u|e|] w1]; [| |done].
      * by eexists _, _.
      * destruct H as [w2 H]. by eexists _, _.
    + intros Hup Hlock. unfold send_DeleteObject. rewrite Hup.
      rewrite bool_decide_eq_false_2 by done. by eexists.
  - reflexivity.
Qed.

(** The amended statement at work: a file is written, deleted, and deleted
    again on the local disk; a key that never existed is deleted on S3. *)
Lemma delete_of_absent_object_witness :
  (∃ msg w',
     delete (LocalStorageStrategy.strategy local_config) "ghost.txt"
       empty_world
     = (Ok (mkFileDeleteResult false (Some msg)), w'))
  ∧ (let w := set_disk (mkDisk [("uploads/a.txt", "hello")] []) empty_world in
     let w' := (delete (LocalStorageStrategy.strategy local_config) "a.txt" w).2 in
     ∃ msg w'',
       delete (LocalStorageStrategy.strategy local_config) "a.txt" w'
       = (Ok (mkFileDeleteResult false (Some msg)), w'')
       ∧ disk w'' = disk w')
  ∧ ∃ r w',
      AWSS3Strategy.delete aws_client s3_config "ghost.txt" empty_world
      = (Ok r, w')
      ∧ r = mkFileDeleteResult true (Some "File deleted successfully").
Proof.
  destruct delete_of_absent_object as (H1 & _ & H3 & _ & H5 & _).
  split; [|split].
  - apply H1. reflexivity.
  - simpl.
    apply (H3 local_config "a.txt"
             (set_disk (mkDisk [("uploads/a.txt", "hello")] []) empty_world)
             (mkFileDeleteResult true (Some "File deleted successfully")));
      reflexivity.
  - destruct (H5 aws_client s3_config "ghost.txt" empty_world)
      as [(r & w' & E & Hr) _].
    exists r, w'. split; [exact E|exact Hr].
Defined.

(** ** The back-end of an upload that names none *)

(** The module hands [config.storage] to the factory and nothing else: the
    strategies do not depend on [defaultStorageType]. *)
Lemma forRoot_ignores_default sto d d' :
  FileUploadModule.forRoot (mkFileUploadModuleConfig sto d)
  = FileUploadModule.forRoot (mkFileUploadModuleConfig sto d').
Proof. reflexivity. Qed.

(** An upload that names no back-end kind is the upload that names [LOCAL]:
    the kind is resolved with [getStrategy], never with
    [getDefaultStrategy].  When no [LOCAL] back-end is registered the upload
    fails, whatever else is registered. *)
Lemma upload_defaults_to_local (strategies : StrategyMap)
    (file : MulterFile) (dto : FileUploadDto) (w : World) :
  dto_storageType dto = None →
  FileService.uploadFile strategies file dto w
  = FileService.uploadFile strategies file (with_storageType (Some LOCAL) dto) w
  ∧ (map_get LOCAL strategies = None →
     ∃ m, FileService.uploadFile strategies file dto w
          = (Throw (StorageOperationException "upload" m),
             set_log (log w ++ ["ERROR " +:+ ("File upload failed: " +:+ m)]) w)).
Proof.
  intros Hnone. split.
  - unfold FileService.uploadFile. simpl. rewrite Hnone. reflexivity.
  - intros Hloc.
    unfold FileService.uploadFile, try_catch, bind. rewrite Hnone. simpl.
    unfold StorageFactory.getStrategy. rewrite Hloc.
    destruct (truthy (dto_folderId dto)); simpl.
    + unfold folderRepository.findOne, get.
      destruct (uuid_for _ _); [|eexists; reflexivity].
      destruct (snd <$> list_find _ (folders w)); simpl;
        eexists; reflexivity.
    + eexists; reflexivity.
Qed.

(** C7.  The code does not do what the claim and the documentation of the
    module say.  With S3 as the only configured back-end and as the
    configured [defaultStorageType], [getDefaultStrategy] answers the S3
    strategy, yet an upload that names no kind fails for want of a [LOCAL]
    strategy; with the local disk, S3 and Spaces configured and S3 as the
    default, as in the README, the upload that names no kind is stored on the
    local disk and the bucket stays empty. *)
Theorem upload_ignores_configured_default :
  (defaultStorageType s3_default_config = Some AWS_S3
   ∧ (StorageFactory.getDefaultStrategy
        (FileUploadModule.forRoot s3_default_config) empty_world).1
     = Ok s3_strategy
   ∧ (FileService.uploadFile (FileUploadModule.forRoot s3_default_config)
        report_pdf plain_dto empty_world).1
     = Throw (StorageOperationException "upload"
         "Storage strategy not found for type: local. Make sure it's configured in the module.")
   ∧ ¬ uses_configured_default s3_default_config report_pdf plain_dto
         empty_world)
  ∧ (defaultStorageType documented_config = Some AWS_S3
     ∧ (∃ f w',
          FileService.uploadFile (FileUploadModule.forRoot documented_config)
            report_pdf plain_dto empty_world = (Ok f, w')
          ∧ File.storageType f = LOCAL
          ∧ entries (disk w') = [("uploads/uuid-0.pdf", "%PDF-1.7 body")]
          ∧ objects (aws w') = [])
     ∧ ¬ uses_configured_default documented_config report_pdf plain_dto
           empty_world).
Proof.
  split; split_and!.
  - reflexivity.
  - vm_compute. reflexivity.
  - vm_compute. reflexivity.
  - unfold uses_configured_default. intros H.
    specialize (H eq_refl). vm_compute in H. discriminate.
  - reflexivity.
  - eexists _, _. split; [vm_compute; reflexivity|]. by vm_compute.
  - unfold uses_configured_default. intros H.
    specialize (H eq_refl). vm_compute in H. discriminate.
Qed.

(** ** Live statistics of a folder *)

Lemma stats_enumerate F w :
  fileRepository.stats F w = (Ok (enumerate F (files w)), w).
Proof.
  unfold fileRepository.stats, get. f_equal. f_equal.
  unfold fileRepository.live_in_folder.
  induction (files w) as [|f fs IH]; [reflexivity|].
  simpl enumerate. destruct (enumerate F fs) as [n s].
  injection IH as IHn IHs.
  rewrite filter_cons. case_decide as Hd.
  - destruct Hd as [-> ->]. rewrite String.eqb_refl. simpl.
    rewrite <- IHn, <- IHs.
    f_equal; [rewrite Nat2Z.inj_succ; lia | apply Z.add_comm].
  - destruct (File.folderId f) as [i|]; [|by f_equal].
    destruct (File.deletedAt f); [by f_equal|].
    destruct (String.eqb_spec i F) as [->|]; [|by f_equal].
    exfalso. by apply Hd.
Qed.

(** [parseInt] is exact on the integers a double represents exactly. *)
Lemma parseInt10_exact z : Z.abs z < 2 ^ 53 → parseInt10 z = z.
Proof.
  intros H. unfold parseInt10.
  by rewrite (proj2 (Z.ltb_lt _ _) H).
Qed.

Lemma enumerate_count_nonneg F fs : 0 ≤ (enumerate F fs).1.
Proof.
  induction fs as [|f fs IH]; [done|]. simpl.
  destruct (enumerate F fs) as [n s]. simpl in *.
  destruct (File.folderId f); [|done].
  destruct (File.deletedAt f); [done|].
  destruct (String.eqb _ _); simpl; lia.
Qed.

Lemma uuid_for_elem (ids : list string) (id : string) :
  id ∈ ids → uuid_for ids id = true.
Proof.
  intros H. unfold uuid_for. rewrite (bool_decide_eq_true_2 _ H).
  apply orb_true_r.
Qed.

Lemma folder_findOne_eq id wd w :
  folderRepository.findOne id wd w
  = (if uuid_for (Folder.id <$> folders w) id
     then Ok (snd <$> list_find
                (fun f => Folder.id f = id
                          ∧ visible wd (Folder.deletedAt f) = true)
                (folders w))
     else Throw (uuid_syntax_error id), w).
Proof. unfold folderRepository.findOne. by destruct (uuid_for _ _). Qed.

Lemma folder_findOne_fmap (g : Folder.t → Folder.t) id wd w :
  (∀ f, Folder.id (g f) = Folder.id f) →
  (∀ f, Folder.deletedAt (g f) = Folder.deletedAt f) →
  (folderRepository.findOne id wd (set_folders (g <$> folders w) w)).1
  = match (folderRepository.findOne id wd w).1 with
    | Ok o => Ok (g <$> o)
    | r => r
    end.
Proof.
  intros Hid Hdel. rewrite !folder_findOne_eq. simpl.
  rewrite <- list_fmap_compose.
  rewrite (list_fmap_ext (Folder.id ∘ g) Folder.id (folders w))
    by (intros; simpl; auto).
  destruct (uuid_for _ _); [|done]. f_equal.
  rewrite list_find_fmap.
  rewrite (list_find_ext _
             (fun f => Folder.id f = id
                       ∧ visible wd (Folder.deletedAt f) = true)).
  2:{ intros x. simpl. by rewrite Hid, Hdel. }
  by destruct (list_find _ (folders w)) as [[i f]|].
Qed.

Lemma folder_findOne_world id wd w :
  (folderRepository.findOne id wd w).2 = w.
Proof. rewrite folder_findOne_eq. done. Qed.

Lemma folder_findById_found id folder w :
  (folderRepository.findOne id false w).1 = Ok (Some folder) →
  FolderService.findById id w = (Ok folder, w).
Proof.
  intros H. unfold FolderService.findById, bind.
  destruct (folderRepository.findOne id false w) as [r w1] eqn:E.
  pose proof (folder_findOne_world id false w) as Hw. rewrite E in Hw.
  simpl in *. by subst.
Qed.

(** C8, refuted: with 2^53 bytes and one byte in "Docs", enumeration gives
    2^53 + 1 bytes and [getFolderWithStats] answers 2^53, the nearest number
    [parseInt] can return. *)
Lemma getFolderWithStats_rounds :
  ¬ returns_enumeration "docs" vast_world.
Proof.
  intros H. destruct (H docs) as (g & Hg & He); [reflexivity|].
  vm_compute in Hg. injection Hg as <-. vm_compute in He. discriminate.
Qed.

(** C8, as the code has it.  For a folder the service finds, whose live
    files number and weigh less than 2^53, [getFolderWithStats] returns the
    row of the folder with, in [fileCount] and [totalSize], the number and
    the total size that direct enumeration of the files of the folder with a
    null [deletedAt] gives, in whatever world the preceding operations have
    left; the cached columns play no part, since overwriting them in every
    row changes nothing in the answer. *)
Theorem getFolderWithStats_live (w : World) (F : string) (folder : Folder.t) :
  (folderRepository.findOne F false w).1 = Ok (Some folder) →
  (enumerate F (files w)).1 < 2 ^ 53 →
  Z.abs (enumerate F (files w)).2 < 2 ^ 53 →
  ∃ g,
    FolderService.getFolderWithStats F w = (Ok g, w)
    ∧ Folder.fileCount g = (enumerate F (files w)).1
    ∧ Folder.totalSize g = (enumerate F (files w)).2
    ∧ g = Folder.with_stats (Folder.fileCount g) (Folder.totalSize g) folder
    ∧ ∀ c s,
        (FolderService.getFolderWithStats F
           (set_folders (Folder.with_stats c s <$> folders w) w)).1
        = Ok g.
Proof.
  intros Hf Hn Hs.
  assert (parseInt10 (enumerate F (files w)).1 = (enumerate F (files w)).1)
    as En.
  { apply parseInt10_exact.
    pose proof (enumerate_count_nonneg F (files w)). lia. }
  pose proof (parseInt10_exact _ Hs) as Es.
  eexists. split_and!.
  - unfold FolderService.getFolderWithStats, bind.
    rewrite (folder_findById_found _ _ _ Hf), stats_enumerate. reflexivity.
  - simpl. by destruct folder.
  - simpl. by destruct folder.
  - by destruct folder.
  - intros c s.
    pose proof (folder_findOne_fmap (Folder.with_stats c s) F false w
                  (fun _ => eq_refl) (fun _ => eq_refl)) as H.
    rewrite Hf in H.
    unfold FolderService.getFolderWithStats, bind.
    rewrite (folder_findById_found _ (Folder.with_stats c s folder) _ H).
    rewrite stats_enumerate. simpl.
    by destruct folder.
Qed.

(** The scenario of the specification: 1000 and 2000 bytes in "Docs" give
    2 files and 3000 bytes, whatever the cached columns hold; with the first
    file soft-deleted, 1 file and 2000 bytes. *)
Lemma getFolderWithStats_live_witness :
  (∃ g,
     FolderService.getFolderWithStats "docs" docs_world = (Ok g, docs_world)
     ∧ Folder.fileCount g = 2
     ∧ Folder.totalSize g = 3000
     ∧ g = Folder.with_stats (Folder.fileCount g) (Folder.totalSize g) docs
     ∧ ∀ c s,
         (FolderService.getFolderWithStats "docs"
            (set_folders (Folder.with_stats c s <$> folders docs_world)
                         docs_world)).1
         = Ok g)
  ∧ (∃ g,
       FolderService.getFolderWithStats "docs"
         (FileService.softDelete "f1" None docs_world).2
       = (Ok g, (FileService.softDelete "f1" None docs_world).2)
       ∧ Folder.fileCount g = 1
       ∧ Folder.totalSize g = 2000).
Proof.
  split.
  - apply (getFolderWithStats_live docs_world "docs" docs);
      [reflexivity|by vm_compute|by vm_compute].
  - destruct (getFolderWithStats_live
                (FileService.softDelete "f1" None docs_world).2 "docs" docs)
      as (g & E & Hn & Hs & _);
      [reflexivity|by vm_compute|by vm_compute|].
    exists g. split; [exact E|]. split; [exact Hn|exact Hs].
Defined.

(** ** Soft deletion and the deleter *)

Lemma file_findOne_eq id wd w :
  fileRepository.findOne id wd w
  = (if uuid_for (File.id <$> files w) id
     then Ok (snd <$> list_find
                (fun f => File.id f = id
                          ∧ visible wd (File.deletedAt f) = true)
                (files w))
     else Throw (uuid_syntax_error id), w).
Proof. unfold fileRepository.findOne. by destruct (uuid_for _ _). Qed.

Lemma file_findOne_world id wd w :
  (fileRepository.findOne id wd w).2 = w.
Proof. rewrite file_findOne_eq. done. Qed.

Lemma file_findOne_Some id wd w f :
  (fileRepository.findOne id wd w).1 = Ok (Some f) →
  f ∈ files w ∧ File.id f = id ∧ visible wd (File.deletedAt f) = true.
Proof.
  rewrite file_findOne_eq. simpl.
  destruct (uuid_for _ _); [|discriminate]. intros [= H].
  destruct (list_find _ (files w)) as [[i g]|] eqn:E; [|discriminate].
  simpl in H. injection H as ->.
  apply list_find_Some in E as (Hl & Hp & _).
  split; [by eapply list_elem_of_lookup_2|done].
Qed.

Lemma folder_findOne_Some id wd w f :
  (folderRepository.findOne id wd w).1 = Ok (Some f) →
  f ∈ folders w ∧ Folder.id f = id
  ∧ visible wd (Folder.deletedAt f) = true.
Proof.
  rewrite folder_findOne_eq. simpl.
  destruct (uuid_for _ _); [|discriminate]. intros [= H].
  destruct (list_find _ (folders w)) as [[i g]|] eqn:E; [|discriminate].
  simpl in H. injection H as ->.
  apply list_find_Some in E as (Hl & Hp & _).
  split; [by eapply list_elem_of_lookup_2|done].
Qed.

Lemma file_findById_found id wd file w :
  (fileRepository.findOne id wd w).1 = Ok (Some file) →
  FileService.findById id wd w = (Ok file, w).
Proof.
  intros H. unfold FileService.findById, bind.
  destruct (fileRepository.findOne id wd w) as [r w1] eqn:E.
  pose proof (file_findOne_world id wd w) as Hw. rewrite E in Hw.
  simpl in *. by subst.
Qed.

Lemma fmap_if_deletedBy_file (P : File.t → Prop) `{∀ f, Decision (P f)}
    (d : option Date) (fs : list File.t) :
  File.deletedBy <$>
    ((fun f => if decide (P f) then File.with_deletedAt d f else f) <$> fs)
  = File.deletedBy <$> fs.
Proof.
  rewrite <- list_fmap_compose. apply list_fmap_ext.
  intros i f _. simpl. by case_decide.
Qed.

Lemma fmap_if_deletedBy_folder (P : Folder.t → Prop) `{∀ f, Decision (P f)}
    (d : option Date) (fs : list Folder.t) :
  Folder.deletedBy <$>
    ((fun f => if decide (P f) then Folder.with_deletedAt d f else f) <$> fs)
  = Folder.deletedBy <$> fs.
Proof.
  rewrite <- list_fmap_compose. apply list_fmap_ext.
  intros i f _. simpl. by case_decide.
Qed.

(** The world a soft delete of a file leaves. *)
Lemma file_softDelete_spec (w : World) (id : string) (by_ : option string)
    (file : File.t) :
  (fileRepository.findOne id false w).1 = Ok (Some file) →
  FileService.softDelete id by_ w
  = (Ok (if truthy by_ then File.with_deletedBy by_ file else file),
     set_log (log w ++ ["LOG " +:+ ("File soft deleted: " +:+ id)])
       (set_files
          ((fun f => if decide (File.id f = id)
                     then File.with_deletedAt (Some (now w)) f else f)
             <$> files w) w)).
Proof.
  intros Hf.
  destruct (file_findOne_Some _ _ _ _ Hf) as (_ & _ & Hvis).
  unfold visible in Hvis. simpl in Hvis. apply bool_decide_eq_true in Hvis.
  unfold FileService.softDelete, bind.
  rewrite (file_findById_found _ _ _ _ Hf).
  rewrite bool_decide_eq_false_2
    by (rewrite Hvis; intros [x Hx]; discriminate).
  reflexivity.
Qed.

(** C9.  A soft delete that is given a deleter writes the deletion timestamp
    and nothing else: the [deletedBy] column of every row, of files and of
    folders, is what it was.  The deleter is set on the entity the call
    returns, which is never saved.  This holds for [FileService.softDelete]
    and for [FolderService.softDelete], whose cascade stamps the files of the
    folder in the same way. *)
Theorem softDelete_drops_deleter (w : World) (id who : string) :
  (∀ file,
     (fileRepository.findOne id false w).1 = Ok (Some file) →
     ∃ w', FileService.softDelete id (Some who) w
           = (Ok (if truthy (Some who)
                  then File.with_deletedBy (Some who) file else file), w')
           ∧ files w'
             = (fun f => if decide (File.id f = id)
                         then File.with_deletedAt (Some (now w)) f else f)
                 <$> files w
           ∧ File.deletedBy <$> files w' = File.deletedBy <$> files w
           ∧ folders w' = folders w)
  ∧ (∀ folder,
       (folderRepository.findOne id false w).1 = Ok (Some folder) →
       ∃ w', FolderService.softDelete id (Some who) w
             = (Ok (Folder.with_deletedBy (Some who) folder), w')
             ∧ folders w'
               = (fun f => if decide (Folder.id f = id)
                           then Folder.with_deletedAt (Some (now w)) f else f)
                   <$> folders w
             ∧ files w'
               = (fun f => if decide (File.folderId f = Some id)
                           then File.with_deletedAt (Some (now w)) f else f)
                   <$> files w
             ∧ Folder.deletedBy <$> folders w' = Folder.deletedBy <$> folders w
             ∧ File.deletedBy <$> files w' = File.deletedBy <$> files w).
Proof.
  split.
  - intros file Hf. rewrite (file_softDelete_spec _ _ _ _ Hf).
    eexists. split; [reflexivity|]. simpl.
    split; [reflexivity|]. split; [|reflexivity].
    apply (fmap_if_deletedBy_file (fun f => File.id f = id)).
  - intros folder Hf.
    unfold FolderService.softDelete, bind.
    rewrite (folder_findById_found _ _ _ Hf).
    eexists. split; [reflexivity|]. simpl.
    split; [reflexivity|]. split; [reflexivity|]. split.
    + apply (fmap_if_deletedBy_folder (fun f => Folder.id f = id)).
    + apply (fmap_if_deletedBy_file (fun f => File.folderId f = Some id)).
Qed.

Lemma softDelete_drops_deleter_witness :
  (∃ w', FileService.softDelete "f1" (Some "admin-123") docs_world
         = (Ok (File.with_deletedBy (Some "admin-123")
                  (file_in "f1" (Some "docs") 1000 None)), w')
         ∧ File.deletedBy <$> files w' = [None; None]
         ∧ File.deletedAt <$> files w' = [Some 100%nat; None])
  ∧ (∃ w', FolderService.softDelete "docs" (Some "admin-123") docs_world
           = (Ok (Folder.with_deletedBy (Some "admin-123") docs), w')
           ∧ Folder.deletedBy <$> folders w' = [None]
           ∧ File.deletedBy <$> files w' = [None; None]
           ∧ File.deletedAt <$> files w' = [Some 100%nat; Some 100%nat]).
Proof.
  destruct (softDelete_drops_deleter docs_world "f1" "admin-123") as [H1 _].
  destruct (softDelete_drops_deleter docs_world "docs" "admin-123") as [_ H2].
  split.
  - destruct (H1 _ eq_refl) as (w' & E & Hfiles & Hby & _).
    exists w'. split; [exact E|]. split; [by rewrite Hby|].
    by rewrite Hfiles.
  - destruct (H2 _ eq_refl) as (w' & E & Hfo & Hfi & Hby1 & Hby2).
    exists w'. split; [exact E|]. split; [by rewrite Hby1|].
    split; [by rewrite Hby2|]. by rewrite Hfi.
Defined.

(** ** An invariant of the folder service: reflexive closure rows *)

Section Preservation.
Variable P : World → Prop.

Lemma preserves_ret {A} (a : A) : preserves P (ret a).
Proof. by intros w. Qed.

Lemma preserves_throw {A} e : preserves P (@throw A e).
Proof. by intros w. Qed.

Lemma preserves_unfinished {A} : preserves P (@unfinished A).
Proof. by intros w. Qed.

Lemma preserves_get {A} (f : World → A) : preserves P (get f).
Proof. by intros w. Qed.

Lemma preserves_modify (f : World → World) :
  (∀ w, P w → P (f w)) → preserves P (modify f).
Proof. intros H w. apply H. Qed.

Lemma preserves_bind {A B} (m : M A) (k : A → M B) :
  preserves P m → (∀ a, preserves P (k a)) → preserves P (bind m k).
Proof.
  intros Hm Hk w Hw. unfold bind. specialize (Hm w Hw).
  destruct (m w) as [[a|e|] w1]; simpl in *; [by apply Hk|done..].
Qed.

Lemma preserves_for_of {A} (xs : list A) (body : A → M unit) :
  (∀ x, preserves P (body x)) → preserves P (for_of xs body).
Proof.
  intros Hb. induction xs as [|x xs IH]; simpl.
  - apply preserves_ret.
  - apply preserves_bind; [apply Hb|]. by intros _.
Qed.

Lemma preserves_folder_findOne id wd :
  preserves P (folderRepository.findOne id wd).
Proof. intros w H. by rewrite folder_findOne_world. Qed.

Lemma preserves_file_findOne id wd :
  preserves P (fileRepository.findOne id wd).
Proof. intros w H. by rewrite file_findOne_world. Qed.

End Preservation.

Create HintDb preserves.

(** Splits a computation at its binds, conditionals and matches. *)
Ltac preserve :=
  repeat match goal with
    | |- preserves _ (ret _) => apply preserves_ret
    | |- preserves _ (throw _) => apply preserves_throw
    | |- preserves _ unfinished => apply preserves_unfinished
    | |- preserves _ (get _) => apply preserves_get
    | |- preserves _ (folderRepository.findOne _ _) =>
        apply preserves_folder_findOne
    | |- preserves _ (fileRepository.findOne _ _) =>
        apply preserves_file_findOne
    | |- preserves _ (for_of _ _) => apply preserves_for_of; intros ?
    | |- preserves _ (bind _ _) => apply preserves_bind; [|intros ?]
    | |- preserves _ (if ?b then _ else _) => destruct b
    | |- preserves _ (match ?o with Some _ => _ | None => _ end) =>
        destruct o
    end.

Lemma log_keeps_reflexive msg : preserves closure_reflexive (logger_log msg).
Proof. apply preserves_modify. by intros w H. Qed.

Lemma insert_keeps_reflexive entity :
  preserves closure_reflexive (folderRepository.insert entity).
Proof.
  unfold folderRepository.insert. preserve.
  - unfold next_id. intros w H. exact H.
  - apply preserves_modify. intros w H g Hg. simpl in *.
    unfold folderRepository.closure_insert.
    apply elem_of_app in Hg as [Hg|Hg%list_elem_of_singleton].
    + apply elem_of_app. left. by apply H.
    + subst g. apply elem_of_app. right. apply elem_of_app. left.
      by apply list_elem_of_singleton.
Qed.

Lemma save_keeps_reflexive entity :
  preserves closure_reflexive (folderRepository.save entity).
Proof.
  unfold folderRepository.save. preserve.
  apply preserves_modify. intros w H g Hg. simpl in *.
  apply list_elem_of_fmap in Hg as (g0 & -> & Hg0).
  assert ((Folder.id g0, Folder.id g0) ∈ folders_closure w) as Hin
    by (by apply H).
  assert (Folder.id (if decide (Folder.id g0 = Folder.id entity)
                     then entity else g0) = Folder.id g0) as ->
    by (by case_decide).
  case_bool_decide; [|done].
  unfold folderRepository.closure_move. apply elem_of_app. left.
  apply list_elem_of_filter. split; [|done]. simpl. tauto.
Qed.

Lemma mark_keeps_reflexive (f : World → Folder.t → Folder.t) :
  (∀ w g, Folder.id (f w g) = Folder.id g) →
  preserves closure_reflexive
    (modify (fun w => set_folders (f w <$> folders w) w)).
Proof.
  intros Hf. apply preserves_modify. intros w H g Hg. simpl in *.
  apply list_elem_of_fmap in Hg as (g0 & -> & Hg0). rewrite Hf. by apply H.
Qed.

Lemma remove_keeps_reflexive entity :
  preserves closure_reflexive (folderRepository.remove entity).
Proof.
  apply preserves_modify. intros w H g Hg. simpl in *.
  apply list_elem_of_filter in Hg as [Hne Hg].
  apply list_elem_of_filter. split; [done|]. by apply H.
Qed.

Lemma files_keep_reflexive (f : World → list File.t) :
  preserves closure_reflexive (modify (fun w => set_files (f w) w)).
Proof. apply preserves_modify. by intros w H. Qed.

#[local] Hint Resolve log_keeps_reflexive insert_keeps_reflexive
  save_keeps_reflexive remove_keeps_reflexive files_keep_reflexive
  : preserves.

Lemma updateFolderPath_keeps_reflexive depth id :
  preserves closure_reflexive (FolderService.updateFolderPath depth id).
Proof.
  revert id. induction depth as [|depth IH]; intros id; simpl.
  - apply preserves_unfinished.
  - unfold FolderService.findById, FolderService.getAncestors,
      FolderService.getAllDescendants, FolderService.findById,
      folderRepository.findAncestors,
      folderRepository.findDescendants.
    preserve; auto with preserves.
Qed.

#[local] Hint Resolve updateFolderPath_keeps_reflexive : preserves.

(** The reflexive pairs of the closure table survive every operation of the
    folder service. *)
Lemma folder_service_keeps_reflexive :
  (∀ depth dto, preserves closure_reflexive (FolderService.create depth dto))
  ∧ (∀ depth id dto,
       preserves closure_reflexive (FolderService.move depth id dto))
  ∧ (∀ id by_, preserves closure_reflexive (FolderService.softDelete id by_))
  ∧ (∀ id, preserves closure_reflexive (FolderService.restore id))
  ∧ (∀ depth id force,
       preserves closure_reflexive (FolderService.hardDelete depth id force)).
Proof.
  split; [|split; [|split; [|split]]].
  - intros depth dto. unfold FolderService.create.
    preserve; auto with preserves.
  - intros depth id dto.
    unfold FolderService.move, FolderService.getAllDescendants,
      FolderService.findById,
      folderRepository.findDescendants.
    preserve; auto with preserves.
  - intros id by_.
    unfold FolderService.softDelete, FolderService.findById.
    preserve; auto with preserves.
    + apply (mark_keeps_reflexive
               (fun w f => if decide (Folder.id f = id)
                           then Folder.with_deletedAt (Some (now w)) f else f)).
      intros w g. by case_decide.
    + apply files_keep_reflexive.
  - intros id.
    unfold FolderService.restore, FolderService.findById.
    preserve; auto with preserves.
    + apply (mark_keeps_reflexive
               (fun w f => if decide (Folder.id f = id)
                           then Folder.with_deletedAt None f else f)).
      intros w g. by case_decide.
    + apply files_keep_reflexive.
  - intros depth. induction depth as [|depth IH]; intros id force; simpl.
    + apply preserves_unfinished.
    + unfold fileRepository.count_by_folder,
        folderRepository.find_by_parent.
      preserve; auto with preserves.
      apply files_keep_reflexive.
Qed.

Lemma empty_world_reflexive : closure_reflexive empty_world.
Proof. by intros g ?%elem_of_nil. Qed.

(** ** Moving a folder below itself *)

Lemma or_else_truthy (s : string) : s ≠ "" → or_else (Some s) "" = s.
Proof.
  intros H. unfold or_else. by destruct (String.eqb_spec s "").
Qed.

Lemma truthy_Some (s : string) : s ≠ "" → truthy (Some s) = true.
Proof.
  intros H. unfold truthy. by destruct (String.eqb_spec s "").
Qed.


(** A target the closure table lists below the folder is rejected before
    anything is written. *)
Lemma move_rejects_listed (depth : nat) (w : World) (A B : string)
    (fa fb : Folder.t) :
  (folderRepository.findOne A false w).1 = Ok (Some fa) →
  (folderRepository.findOne B false w).1 = Ok (Some fb) →
  B ≠ "" →
  B ∈ folderRepository.descendant_ids (folders_closure w) A →
  FolderService.move depth A (mkMoveFolderDto (Some B)) w
  = (Throw (Error "Cannot move folder into itself or its descendants"), w).
Proof.
  intros Ha Hb Hne Hd.
  destruct (folder_findOne_Some _ _ _ _ Ha) as (Hain & Haid & _).
  destruct (folder_findOne_Some _ _ _ _ Hb) as (Hbin & Hbid & Hbvis).
  unfold visible in Hbvis. simpl in Hbvis. apply bool_decide_eq_true in Hbvis.
  unfold FolderService.move, bind. cbn [targetParentId].
  rewrite (folder_findById_found _ _ _ Ha).
  rewrite truthy_Some, or_else_truthy by done.
  rewrite (folder_findById_found _ _ _ Hb).
  unfold FolderService.getAllDescendants, bind.
  rewrite (folder_findById_found _ _ _ Ha).
  unfold folderRepository.findDescendants, get.
  rewrite bool_decide_eq_true_2; [reflexivity|].
  apply list_elem_of_fmap. exists fb. split; [done|].
  apply list_elem_of_filter. rewrite Hbid, Haid. done.
Qed.


(** Under the two closure invariants, what lies below [A] by the parent
    pointers is listed below [A] in the closure table. *)
Lemma Sub_in_closure (w : World) (A B : string) :
  closure_reflexive w → closure_complete w →
  A ∈ Folder.id <$> folders w →
  Sub (folders w) A B →
  B ∈ folderRepository.descendant_ids (folders_closure w) A.
Proof.
  intros Hrefl Hcomp (ga & -> & Hga)%list_elem_of_fmap Hsub.
  unfold folderRepository.descendant_ids.
  apply list_elem_of_fmap. exists (Folder.id ga, B). split; [done|].
  apply list_elem_of_filter. split; [done|].
  induction Hsub as [|g p Hg Hp _ IH]; [by apply Hrefl|].
  by eapply Hcomp.
Qed.

(** Hence the move of a folder under a folder of its own subtree, read off
    the parent pointers, is rejected in the same way. *)
Corollary move_below_itself_rejected (depth : nat) (w : World)
    (A B : string) (fa fb : Folder.t) :
  closure_reflexive w → closure_complete w →
  (folderRepository.findOne A false w).1 = Ok (Some fa) →
  (folderRepository.findOne B false w).1 = Ok (Some fb) →
  B ≠ "" →
  Sub (folders w) A B →
  FolderService.move depth A (mkMoveFolderDto (Some B)) w
  = (Throw (Error "Cannot move folder into itself or its descendants"), w).
Proof.
  intros Hrefl Hcomp Ha Hb Hne Hsub.
  destruct (folder_findOne_Some _ _ _ _ Ha) as (Hain & Haid & _).
  apply (move_rejects_listed depth w A B fa fb Ha Hb Hne).
  apply Sub_in_closure; [done..| |done].
  apply list_elem_of_fmap. eauto.
Qed.

Lemma closure_complete_Forall w :
  Forall (fun g =>
            Forall (fun pr => Folder.parentId g = Some pr.2 →
                              (pr.1, Folder.id g) ∈ folders_closure w)
                   (folders_closure w)) (folders w) →
  closure_complete w.
Proof.
  rewrite Forall_forall. intros H g p a Hg Hp Ha.
  specialize (H g Hg). rewrite Forall_forall in H.
  by apply (H (a, p)).
Qed.

Lemma tree_world_complete : closure_complete tree_world.
Proof. apply closure_complete_Forall. by_evaluation. Qed.

Lemma tree_world_reflexive : closure_reflexive tree_world.
Proof.
  destruct folder_service_keeps_reflexive as [Hcreate _].
  unfold tree_world. apply Hcreate, Hcreate, empty_world_reflexive.
Qed.

Example move_below_itself_in_tree :
  Sub (folders tree_world) "folder-0" "folder-1"
  ∧ FolderService.move 4 "folder-0" (mkMoveFolderDto (Some "folder-1"))
      tree_world
    = (Throw (Error "Cannot move folder into itself or its descendants"),
       tree_world).
Proof.
  assert (Sub (folders tree_world) "folder-0" "folder-1") as Hsub.
  { apply (Sub_child _ _ reports "folder-0"); [by_evaluation|done|constructor]. }
  split; [exact Hsub|].
  eapply (move_below_itself_rejected 4 tree_world "folder-0" "folder-1");
    [exact tree_world_reflexive|exact tree_world_complete
    |vm_compute; reflexivity|vm_compute; reflexivity|discriminate|exact Hsub].
Qed.


(** ** Stepping through a computation *)

Lemma bind_Ok_inv {A B} (m : M A) (k : A → M B) w b w' :
  bind m k w = (Ok b, w') →
  ∃ a w1, m w = (Ok a, w1) ∧ k a w1 = (Ok b, w').
Proof.
  unfold bind. destruct (m w) as [[a|e|] w1]; try discriminate. eauto.
Qed.

Lemma try_catch_rethrow_Ok_inv {A} (m : M A) (h : Exn → M A) w a w' :
  (∀ e w1, ∀ b w2, h e w1 ≠ (Ok b, w2)) →
  try_catch m h w = (Ok a, w') → m w = (Ok a, w').
Proof.
  unfold try_catch. intros Hh. destruct (m w) as [[b|e|] w1]; try done.
  intros H. by apply Hh in H.
Qed.

Lemma bind_Ok {A B} (m : M A) (k : A → M B) w a w1 :
  m w = (Ok a, w1) → bind m k w = k a w1.
Proof. unfold bind. by intros ->. Qed.

Lemma bind_inv {A B} (m : M A) (k : A → M B) w r w' :
  bind m k w = (r, w') →
  (∃ a w1, m w = (Ok a, w1) ∧ k a w1 = (r, w'))
  ∨ (∃ r1, m w = (r1, w') ∧ (∀ a, r1 ≠ Ok a) ∧ (∀ b, r ≠ Ok b)).
Proof.
  unfold bind. destruct (m w) as [[a|e|] w1].
  - intros H. left. eauto.
  - intros [= <- <-]. right. eexists. split; [reflexivity|]. done.
  - intros [= <- <-]. right. eexists. split; [reflexivity|]. done.
Qed.

Lemma map_get_elem k s (m : StrategyMap) :
  map_get k m = Some s → (k, s) ∈ m.
Proof.
  induction m as [|[k' v'] m IH]; simpl; [done|].
  case_decide as Hk.
  - intros [= ->]. subst. apply list_elem_of_here.
  - intros H. apply list_elem_of_further. auto.
Qed.

(** ** Hard delete of a file whose object cannot be deleted *)

(** Whatever [delete] answers, the row goes once [delete] has returned:
    [hardDelete] does not look at the result. *)
Lemma hardDelete_ignores_delete_result (strategies : StrategyMap) (w : World)
    (id : string) (file : File.t) (s : IStorageStrategy)
    (r : FileDeleteResult) (w1 : World) :
  (fileRepository.findOne id true w).1 = Ok (Some file) →
  map_get (File.storageType file) strategies = Some s →
  delete s (or_else (File.storageKey file) (File.path file)) w = (Ok r, w1) →
  ∃ w', FileService.hardDelete strategies id w = (Ok tt, w')
        ∧ files w'
          = filter (fun f => File.id f ≠ File.id file) (files w1).
Proof.
  intros Hf Hs Hd.
  unfold FileService.hardDelete, bind at 1.
  destruct (fileRepository.findOne id true w) as [o w0] eqn:E.
  pose proof (file_findOne_world id true w) as Hw. rewrite E in Hw.
  simpl in Hf, Hw. subst o w0.
  unfold try_catch, bind, StorageFactory.getStrategy. rewrite Hs.
  unfold ret at 1. rewrite Hd.
  unfold fileRepository.remove, modify.
  destruct (truthy (File.folderId file)).
  - unfold FileService.updateFolderStats, bind.
    rewrite stats_enumerate. eexists. split; reflexivity.
  - eexists. split; reflexivity.
Qed.

(** The row stays only when the back-end is not registered or its [delete]
    throws, which no built-in back-end does. *)
Lemma hardDelete_keeps_row_on_throw (strategies : StrategyMap) (w : World)
    (id : string) (file : File.t) :
  (fileRepository.findOne id true w).1 = Ok (Some file) →
  (map_get (File.storageType file) strategies = None →
   ∃ m, FileService.hardDelete strategies id w
        = (Throw (StorageOperationException "hard delete" m),
           set_log (log w ++ ["ERROR " +:+ ("Hard delete failed for " +:+ id
                                            +:+ ": " +:+ m)]) w))
  ∧ (∀ s e w1,
       map_get (File.storageType file) strategies = Some s →
       delete s (or_else (File.storageKey file) (File.path file)) w
       = (Throw e, w1) →
       FileService.hardDelete strategies id w
       = (Throw (StorageOperationException "hard delete" (message e)),
          set_log (log w1 ++ ["ERROR " +:+ ("Hard delete failed for " +:+ id
                                            +:+ ": " +:+ message e)]) w1)).
Proof.
  intros Hf.
  assert (fileRepository.findOne id true w = (Ok (Some file), w)) as E.
  { destruct (fileRepository.findOne id true w) as [o w0] eqn:E.
    pose proof (file_findOne_world id true w) as Hw. rewrite E in Hw.
    simpl in Hf, Hw. by subst. }
  split.
  - intros Hnone. unfold FileService.hardDelete.
    rewrite (bind_Ok _ _ _ _ _ E).
    unfold try_catch, bind, StorageFactory.getStrategy. rewrite Hnone.
    eexists. reflexivity.
  - intros s e w1 Hs Hd. unfold FileService.hardDelete.
    rewrite (bind_Ok _ _ _ _ _ E).
    unfold try_catch, bind, StorageFactory.getStrategy. rewrite Hs.
    unfold ret at 1. rewrite Hd. reflexivity.
Qed.

Lemma builtin_delete_returns (configs : StorageConfigMap) :
  Forall (fun e => ∀ key w, ∃ r w1, delete e.2 key w = (Ok r, w1))
         (StorageFactory.initializeStrategies configs).
Proof.
  assert (Hlocal : ∀ c key w,
            ∃ r w1, LocalStorageStrategy.delete c key w = (Ok r, w1)).
  { intros c key w.
    unfold LocalStorageStrategy.delete, try_catch, bind, existsSync, get,
      fs_unlink.
    case_bool_decide; [|by eexists _, _].
    case_bool_decide; simpl; [by eexists _, _|].
    rewrite bool_decide_eq_true_2 by done. by eexists _, _. }
  assert (Hs3 : ∀ client c key w,
            ∃ r w1, AWSS3Strategy.delete client c key w = (Ok r, w1)).
  { intros client c key w.
    pose proof (s3_delete_follows_send client c key w) as H.
    destruct (send_DeleteObject client (bucket c) key w) as [[u|e|] w1];
      [by eexists _, _| |done].
    destruct H as [w2 H]. by eexists _, _. }
  unfold StorageFactory.initializeStrategies, StorageFactory.step.
  destruct configs as [[l|] [a|] [d|] [x|]]; cbn;
    repeat (apply Forall_cons; split; [cbn; auto|]); by apply Forall_nil.
Qed.

(** With the back-ends of the module, therefore, a hard delete of a file
    whose kind is registered always returns and always removes the row,
    whatever became of the object. *)
Corollary hardDelete_builtin_removes_row (configs : StorageConfigMap)
    (w : World) (id : string) (file : File.t) :
  (fileRepository.findOne id true w).1 = Ok (Some file) →
  is_Some (map_get (File.storageType file)
                   (StorageFactory.initializeStrategies configs)) →
  ∃ w', FileService.hardDelete (StorageFactory.initializeStrategies configs)
          id w = (Ok tt, w')
        ∧ File.id file ∉ File.id <$> files w'.
Proof.
  intros Hf [s Hs].
  pose proof (builtin_delete_returns configs) as Hret.
  rewrite Forall_forall in Hret.
  destruct (Hret _ (map_get_elem _ _ _ Hs)
              (or_else (File.storageKey file) (File.path file)) w)
    as (r & w1 & Hd).
  destruct (hardDelete_ignores_delete_result _ w id file s r w1 Hf Hs Hd)
    as (w' & E & Hfiles).
  exists w'. split; [done|]. rewrite Hfiles.
  intros (f & Heq & Hin)%list_elem_of_fmap.
  apply list_elem_of_filter in Hin as [Hne _]. by apply Hne.
Qed.

(** C1, at the failing inputs.  A file uploaded to the local disk has its
    full path as [path]; [hardDelete] hands that path to [delete], which joins
    it to the upload directory once more, finds nothing and answers
    [success = false].  A file on S3 whose store is out of reach gets
    [success = false] with the message of the exception.  In both cases
    [hardDelete] returns normally, the row is gone and the object is still in
    the back-end. *)
Theorem hardDelete_drops_row_on_failed_delete :
  (File.id <$> files uploaded_world = ["file-1"]
   ∧ entries (disk uploaded_world) = [("uploads/uuid-0.pdf", "%PDF-1.7 body")]
   ∧ (delete (LocalStorageStrategy.strategy local_config)
             "uploads/uuid-0.pdf" uploaded_world).1
     = Ok (mkFileDeleteResult false (Some "File not found"))
   ∧ (FileService.hardDelete both_backends "file-1" uploaded_world).1 = Ok tt
   ∧ files (FileService.hardDelete both_backends "file-1" uploaded_world).2
     = []
   ∧ entries (disk (FileService.hardDelete both_backends "file-1"
                      uploaded_world).2)
     = [("uploads/uuid-0.pdf", "%PDF-1.7 body")])
  ∧ (File.id <$> files unreachable_world = ["file-1"]
     ∧ (delete s3_strategy "uuid-0.pdf" unreachable_world).1
       = Ok (mkFileDeleteResult false (Some "connect ETIMEDOUT"))
     ∧ (FileService.hardDelete both_backends "file-1" unreachable_world).1
       = Ok tt
     ∧ files (FileService.hardDelete both_backends "file-1"
                unreachable_world).2
       = []
     ∧ objects (aws (FileService.hardDelete both_backends "file-1"
                       unreachable_world).2)
       = [(("media", "uuid-0.pdf"), "%PDF-1.7 body")]).
Proof. vm_compute. repeat split. Qed.

(** ** The cached aggregates of a folder *)

Lemma updateFolderStats_spec F w :
  FileService.updateFolderStats F w
  = (Ok tt,
     set_folders
       ((fun g => if decide (Folder.id g = F)
                  then Folder.with_stats
                         (parseInt10 (enumerate F (files w)).1)
                         (parseInt10 (enumerate F (files w)).2) g
                  else g) <$> folders w) w).
Proof.
  unfold FileService.updateFolderStats, bind. rewrite stats_enumerate.
  reflexivity.
Qed.

(** [updateFolderStats] makes the cache of its folder exact. *)
Lemma updateFolderStats_caches F w :
  countable F (files w) →
  stats_cached F (FileService.updateFolderStats F w).2.
Proof.
  intros [Hn Hs].
  rewrite (updateFolderStats_spec F w). simpl.
  rewrite !parseInt10_exact
    by (try done; pose proof (enumerate_count_nonneg F (files w)); lia).
  apply Forall_forall. intros g Hg Hid. simpl in *.
  apply list_elem_of_fmap in Hg as (g0 & -> & _).
  destruct (decide (Folder.id g0 = F)) as [_|Hne]; simpl.
  - by destruct (enumerate F (files w)).
  - by destruct Hne.
Qed.

Lemma stats_cached_log F w l :
  stats_cached F w → stats_cached F (set_log l w).
Proof. done. Qed.

(** An upload into a folder leaves the cache of that folder exact. *)
Lemma uploadFile_caches (strategies : StrategyMap) (file : MulterFile)
    (dto : FileUploadDto) (w : World) (F : string) (saved : File.t)
    (w' : World) :
  dto_folderId dto = Some F → F ≠ "" →
  FileService.uploadFile strategies file dto w = (Ok saved, w') →
  countable F (files w') →
  stats_cached F w'.
Proof.
  intros HF Hne H Hb. unfold FileService.uploadFile in H.
  apply try_catch_rethrow_Ok_inv in H.
  2:{ intros e w1 b w2. unfold bind, logger_error, modify, throw. done. }
  rewrite HF, truthy_Some, or_else_truthy in H by done.
  apply bind_Ok_inv in H as (? & w1 & _ & H).
  apply bind_Ok_inv in H as (s & w2 & _ & H).
  apply bind_Ok_inv in H as (filename & w3 & _ & H).
  apply bind_Ok_inv in H as (res & w4 & _ & H).
  apply bind_Ok_inv in H as (sv & w5 & _ & H).
  apply bind_Ok_inv in H as ([] & w6 & Hst & H).
  apply bind_Ok_inv in H as ([] & w7 & Hlog & H).
  injection H as <- <-.
  unfold logger_log, modify in Hlog. injection Hlog as <-.
  apply stats_cached_log.
  pose proof (updateFolderStats_caches F w5) as Hc.
  rewrite Hst in Hc. apply Hc.
  rewrite updateFolderStats_spec in Hst. injection Hst as <-. exact Hb.
Qed.

(** A hard delete of a file leaves the cache of its folder exact. *)
Lemma hardDelete_caches (strategies : StrategyMap) (w : World) (id F : string)
    (file : File.t) (w' : World) :
  (fileRepository.findOne id true w).1 = Ok (Some file) →
  File.folderId file = Some F → F ≠ "" →
  FileService.hardDelete strategies id w = (Ok tt, w') →
  countable F (files w') →
  stats_cached F w'.
Proof.
  intros Hf HF Hne H Hb. unfold FileService.hardDelete in H.
  apply bind_Ok_inv in H as (o & w0 & E & H).
  pose proof (file_findOne_world id true w) as Hw. rewrite E in Hw, Hf.
  simpl in Hf, Hw. injection Hf as ->. subst w0.
  apply try_catch_rethrow_Ok_inv in H.
  2:{ intros e w1 b w2. unfold bind, logger_error, modify, throw. done. }
  rewrite HF, truthy_Some, or_else_truthy in H by done.
  apply bind_Ok_inv in H as (s & w1 & _ & H).
  apply bind_Ok_inv in H as (r & w2 & _ & H).
  apply bind_Ok_inv in H as ([] & w3 & _ & H).
  apply bind_Ok_inv in H as ([] & w4 & Hst & H).
  unfold logger_log, modify in H. injection H as <-.
  apply stats_cached_log.
  pose proof (updateFolderStats_caches F w3) as Hc.
  rewrite Hst in Hc. apply Hc.
  rewrite updateFolderStats_spec in Hst. injection Hst as <-. exact Hb.
Qed.

Lemma enumerate_cons_count F x l :
  (enumerate F (x :: l)).1
  = (enumerate F l).1
    + (if bool_decide (File.folderId x = Some F ∧ File.deletedAt x = None)
       then 1 else 0).
Proof.
  cbn [enumerate]. destruct (enumerate F l) as [n s].
  case_bool_decide as H.
  - destruct H as [-> ->]. by rewrite String.eqb_refl.
  - destruct (File.folderId x) as [i|]; [|simpl; lia].
    destruct (File.deletedAt x); [simpl; lia|].
    destruct (String.eqb_spec i F) as [->|]; [by destruct H|simpl; lia].
Qed.

(** Stamping the one live row of a file of [F] takes one off the count. *)
Lemma enumerate_after_stamp F id t (fs : list File.t) (f : File.t) :
  NoDup (File.id <$> fs) → f ∈ fs → File.id f = id →
  File.folderId f = Some F → File.deletedAt f = None →
  (enumerate F ((fun x => if decide (File.id x = id)
                          then File.with_deletedAt (Some t) x else x)
                  <$> fs)).1
  = (enumerate F fs).1 - 1.
Proof.
  intros Hnd Hin Hid HF Hlive.
  induction fs as [|x fs IH]; [by apply elem_of_nil in Hin|].
  rewrite fmap_cons in Hnd. apply NoDup_cons in Hnd as [Hx Hnd].
  rewrite fmap_cons, !enumerate_cons_count.
  apply elem_of_cons in Hin as [<-|Hin].
  - rewrite decide_True by done.
    rewrite fmap_unless.
    2:{ intros y Hy Heq. apply Hx. apply list_elem_of_fmap.
        exists y. split; [congruence|done]. }
    rewrite (bool_decide_eq_false_2 (_ ∧ File.deletedAt
               (File.with_deletedAt (Some t) f) = None))
      by (by intros [_ ?]).
    rewrite bool_decide_eq_true_2 by done. lia.
  - rewrite decide_False.
    2:{ intros Heq. apply Hx. apply list_elem_of_fmap.
        exists f. split; [congruence|done]. }
    rewrite IH by done. lia.
Qed.

(** In general: a soft delete of a live file of a folder whose cache was
    exact leaves that cache one file too high. *)
Lemma softDelete_makes_stale (w : World) (id : string) (by_ : option string)
    (f : File.t) (F : string) (g : Folder.t) :
  NoDup (File.id <$> files w) →
  (fileRepository.findOne id false w).1 = Ok (Some f) →
  File.folderId f = Some F →
  g ∈ folders w → Folder.id g = F →
  stats_cached F w →
  ¬ stats_cached F (FileService.softDelete id by_ w).2.
Proof.
  intros Hnd Hf HF Hg Hgid Hc Hc'.
  destruct (file_findOne_Some _ _ _ _ Hf) as (Hin & Hid & Hvis).
  unfold visible in Hvis. simpl in Hvis. apply bool_decide_eq_true in Hvis.
  rewrite (file_softDelete_spec _ _ _ _ Hf) in Hc'. simpl in Hc'.
  unfold stats_cached in Hc, Hc'. rewrite Forall_forall in Hc, Hc'.
  specialize (Hc g Hg Hgid). specialize (Hc' g Hg Hgid). simpl in Hc'.
  pose proof (enumerate_after_stamp F id (now w) (files w) f
                Hnd Hin Hid HF Hvis) as He.
  rewrite <- Hc' in He. rewrite <- Hc in He. simpl in He. lia.
Qed.

(** C2, at the failing inputs.  After two uploads the cache of "Docs" is
    exact (2 files, 26 bytes).  A soft delete of one file leaves the cached
    columns as they were while one file is live; so does a restore (cache 1
    file, two live) and the soft delete of the folder with its cascade (cache
    2 files, none live): neither service recomputes the aggregates on these
    paths. *)
Theorem softDelete_leaves_stale_stats :
  (stats_cached "folder-0" stocked_world
   ∧ succeeded (FileService.softDelete "file-2" None stocked_world).1 = true
   ∧ (Folder.fileCount <$> folders (FileService.softDelete "file-2" None
                                      stocked_world).2,
      Folder.totalSize <$> folders (FileService.softDelete "file-2" None
                                      stocked_world).2)
     = ([2], [26])
   ∧ enumerate "folder-0"
       (files (FileService.softDelete "file-2" None stocked_world).2)
     = (1, 13)
   ∧ ¬ stats_cached "folder-0"
         (FileService.softDelete "file-2" None stocked_world).2)
  ∧ (stats_cached "folder-0" restocked_world
     ∧ ¬ stats_cached "folder-0"
           (FileService.restore "file-2" restocked_world).2)
  ∧ ¬ stats_cached "folder-0"
        (FolderService.softDelete "folder-0" None stocked_world).2.
Proof.
  split; [|split].
  - split; [by_evaluation|]. split; [vm_compute; reflexivity|].
    split; [vm_compute; reflexivity|]. split; [vm_compute; reflexivity|].
    by_evaluation.
  - split; by_evaluation.
  - by_evaluation.
Qed.

(** ** Uploads and what they persist *)

(** Making sure of the directory of a path changes nothing the disk
    records. *)
Lemma ensure_directory_bind {A} (d : string) (k : M A) w :
  (present <- existsSync d ;;
   (if negb present then fs_mkdir d else ret tt) ;;; k) w = k w.
Proof.
  unfold bind, existsSync, get, fs_mkdir, ret. by destruct (bool_decide _).
Qed.

(** The back-ends of the module leave the tables alone. *)
Lemma local_upload_keeps_tables config u n w :
  files (LocalStorageStrategy.upload config u n w).2 = files w
  ∧ folders (LocalStorageStrategy.upload config u n w).2 = folders w
  ∧ folders_closure (LocalStorageStrategy.upload config u n w).2
    = folders_closure w.
Proof.
  unfold LocalStorageStrategy.upload, try_catch. cbv zeta.
  rewrite ensure_directory_bind. unfold bind, fs_writeFile.
  case_bool_decide; simpl; [done|].
  unfold fs_stat_size. simpl.
  destruct (list_find _ _) as [[i e]|]; simpl; done.
Qed.

Lemma s3_upload_keeps_tables client config url u n w :
  (∀ o w, files (set_store client o w) = files w
          ∧ folders (set_store client o w) = folders w
          ∧ folders_closure (set_store client o w) = folders_closure w) →
  files (AWSS3Strategy.upload client config url u n w).2 = files w
  ∧ folders (AWSS3Strategy.upload client config url u n w).2 = folders w
  ∧ folders_closure (AWSS3Strategy.upload client config url u n w).2
    = folders_closure w.
Proof.
  intros Hset.
  unfold AWSS3Strategy.upload, try_catch, bind, send_PutObject.
  destruct (outage (store client w)); simpl; [done|].
  unfold with_objects. apply Hset.
Qed.

Lemma builtin_keeps_tables (configs : StorageConfigMap) :
  Forall (fun e => keeps_tables e.2)
         (StorageFactory.initializeStrategies configs).
Proof.
  assert (Hlocal : ∀ c, keeps_tables (LocalStorageStrategy.strategy c)).
  { intros c u n w. apply local_upload_keeps_tables. }
  assert (Haws : ∀ c, keeps_tables
            (AWSS3Strategy.strategy aws_client c (AWSS3Strategy.getPublicUrl c))).
  { intros c u n w. by apply s3_upload_keeps_tables. }
  assert (Hdo : ∀ c, keeps_tables (DigitalOceanStrategy.strategy c)).
  { intros c u n w. simpl. unfold DigitalOceanStrategy.upload, bind.
    pose proof (s3_upload_keeps_tables spaces_client
                  (DigitalOceanStrategy.super c)
                  (DigitalOceanStrategy.getPublicUrl c) u n w
                  (fun _ _ => conj eq_refl (conj eq_refl eq_refl))) as H.
    destruct (AWSS3Strategy.upload _ _ _ u n w) as [[r|e|] w1]; exact H. }
  assert (Hlinux : ∀ c, keeps_tables (LinuxFolderStrategy.strategy c)).
  { intros c u n w. simpl. unfold LinuxFolderStrategy.upload, bind.
    pose proof (local_upload_keeps_tables (LinuxFolderStrategy.super c) u n w)
      as H.
    destruct (LocalStorageStrategy.upload _ u n w) as [[r|e|] w1];
      simpl in *; try exact H.
    unfold LinuxFolderStrategy.setFilePermissions.
    case_bool_decide; simpl; exact H. }
  unfold StorageFactory.initializeStrategies, StorageFactory.step.
  destruct configs as [[l|] [a|] [d|] [x|]]; cbn;
    repeat (apply Forall_cons; split; [cbn; auto|]); by apply Forall_nil.
Qed.

Lemma file_save_spec entity w :
  (∃ saved, fileRepository.save entity w
            = (Ok saved, set_files (files w ++ [saved])
                                   (set_fresh (S (fresh w)) w))
            ∧ saved = File.with_id ("file-" +:+ pretty (fresh w)) entity)
  ∨ (∃ e, fileRepository.save entity w = (Throw e, w)).
Proof.
  unfold fileRepository.save, bind, get.
  destruct (match File.folderId entity with
            | Some fid => bool_decide (fid ∈ Folder.id <$> folders w)
            | None => true
            end).
  - left. eexists. split; reflexivity.
  - right. eexists. reflexivity.
Qed.

Lemma folder_check_world (o : option string) w r w1 :
  (if truthy o then
     folder <- folderRepository.findOne (or_else o "") false ;;
     match folder with
     | None => throw (FolderNotFoundException (or_else o ""))
     | Some _ => ret tt
     end
   else ret tt) w = (r, w1) → w1 = w.
Proof.
  destruct (truthy o); [|by intros [= _ <-]].
  unfold bind. rewrite folder_findOne_eq.
  destruct (uuid_for _ _); [|by intros [= _ <-]].
  destruct (snd <$> list_find _ (folders w)); by intros [= _ <-].
Qed.

Lemma getStrategy_inv strategies k w r w1 :
  StorageFactory.getStrategy strategies k w = (r, w1) →
  w1 = w ∧ ∀ s, r = Ok s → map_get k strategies = Some s.
Proof.
  unfold StorageFactory.getStrategy.
  destruct (map_get k strategies) as [s|]; intros [= <- <-].
  - split; [done|]. by intros ? [= ->].
  - split; [done|]. discriminate.
Qed.

Lemma filename_choice_inv (o : option string) ext w r w1 :
  (if truthy o then ret (or_else o "")
   else u <- uuidv4 ;; ret (u +:+ ext)) w = (r, w1) →
  (w1 = w ∨ w1 = (uuidv4 w).2) ∧ ∃ n, r = Ok n.
Proof.
  destruct (truthy o); intros [= <- <-]; eauto.
Qed.

Lemma stats_step_files (o : option string) w r w1 :
  (if truthy o then FileService.updateFolderStats (or_else o "") else ret tt) w
  = (r, w1) →
  files w1 = files w ∧ r = Ok tt
  ∧ disk w1 = disk w ∧ aws w1 = aws w ∧ spaces w1 = spaces w.
Proof.
  destruct (truthy o).
  - rewrite updateFolderStats_spec. by intros [= <- <-].
  - by intros [= <- <-].
Qed.

(** An upload whose [folderId] is a non-empty string that names no folder
    the service finds throws before any back-end is resolved or called: the
    world after it is the world before it, one log line apart. *)
Lemma upload_unknown_folder_refused (strategies : StrategyMap)
    (file : MulterFile) (dto : FileUploadDto) (w : World) (fid : string) :
  dto_folderId dto = Some fid → fid ≠ "" →
  (∀ folder, (folderRepository.findOne fid false w).1 ≠ Ok (Some folder)) →
  ∃ cause,
    FileService.uploadFile strategies file dto w
    = (Throw (StorageOperationException "upload" cause),
       set_log (log w ++ ["ERROR " +:+ ("File upload failed: " +:+ cause)]) w).
Proof.
  intros Hfid Hne Hnone.
  unfold FileService.uploadFile, try_catch, bind at 1.
  rewrite Hfid, truthy_Some, or_else_truthy by done.
  unfold bind at 1. revert Hnone. rewrite folder_findOne_eq.
  destruct (uuid_for _ _); simpl; [|by eexists].
  destruct (snd <$> list_find _ (folders w)) as [folder|]; simpl.
  - intros Hn. by destruct (Hn folder).
  - by eexists.
Qed.

(** With back-ends that leave the tables alone, an upload that does not
    return a file leaves the [files] table as it was, whatever failed; an
    upload that returns a file has added exactly that row to the world in
    which an [upload] of the resolved back-end, called in the world of the
    request (a file name drawn apart), had returned the result the row
    refers to. *)
Lemma upload_persists_only_after_write (strategies : StrategyMap)
    (file : MulterFile) (dto : FileUploadDto) (w : World) :
  Forall (fun e => keeps_tables e.2) strategies →
  match FileService.uploadFile strategies file dto w with
  | (Ok saved, w') =>
      files w' = files w ++ [saved]
      ∧ ∃ s filename res w1 w2,
          map_get (default LOCAL (dto_storageType dto)) strategies = Some s
          ∧ (w1 = w ∨ w1 = (uuidv4 w).2)
          ∧ upload s (IsFile file) filename w1 = (Ok res, w2)
          ∧ File.path saved = r_path res
          ∧ File.size saved = r_size res
          ∧ disk w' = disk w2 ∧ aws w' = aws w2 ∧ spaces w' = spaces w2
  | (_, w') => files w' = files w
  end.
Proof.
  intros Hkeep.
  destruct (FileService.uploadFile strategies file dto w) as [r w'] eqn:E.
  unfold FileService.uploadFile in E.
  match type of E with
  | try_catch ?body ?h w = _ =>
      assert (∀ r wb, body w = (r, wb) →
                match r with
                | Ok saved =>
                    files wb = files w ++ [saved]
                    ∧ ∃ s filename res w1 w2,
                        map_get (default LOCAL (dto_storageType dto))
                                strategies = Some s
                        ∧ (w1 = w ∨ w1 = (uuidv4 w).2)
                        ∧ upload s (IsFile file) filename w1 = (Ok res, w2)
                        ∧ File.path saved = r_path res
                        ∧ File.size saved = r_size res
                        ∧ disk wb = disk w2 ∧ aws wb = aws w2
                        ∧ spaces wb = spaces w2
                | _ => files wb = files w
                end) as Hbody
  end.
  { clear E r w'. intros r wb E.
    apply bind_inv in E as [([] & w1 & E1 & E)|(r1 & E1 & _ & Hr)].
    2:{ apply folder_check_world in E1 as ->.
        destruct r; [by destruct (Hr a)|done..]. }
    apply folder_check_world in E1 as ->.
    apply bind_inv in E as [(s & w2 & E2 & E)|(r1 & E2 & _ & Hr)].
    2:{ apply getStrategy_inv in E2 as [-> _].
        destruct r; [by destruct (Hr a)|done..]. }
    apply getStrategy_inv in E2 as [-> Hs]. specialize (Hs s eq_refl).
    apply bind_inv in E as [(filename & w3 & E3 & E)|(r1 & E3 & _ & Hr)].
    2:{ apply filename_choice_inv in E3 as (Hw3 & _).
        destruct r; [by destruct (Hr a)|by destruct Hw3 as [->| ->]..]. }
    apply filename_choice_inv in E3 as (Hw3 & _).
    assert (files w3 = files w) as Hf3 by (by destruct Hw3 as [->| ->]).
    assert (∀ r4 w4, upload s (IsFile file) filename w3 = (r4, w4) →
                     files w4 = files w3) as Hup.
    { intros r4 w4 E4. apply map_get_elem in Hs.
      rewrite Forall_forall in Hkeep. specialize (Hkeep _ Hs).
      destruct (Hkeep (IsFile file) filename w3) as [H _].
      simpl in H. by rewrite E4 in H. }
    apply bind_inv in E as [(res & w4 & E4 & E)|(r1 & E4 & _ & Hr)].
    2:{ apply Hup in E4.
        destruct r; [by destruct (Hr a)|congruence..]. }
    pose proof (Hup _ _ E4) as Hf4.
    apply bind_inv in E as [(saved & w5 & E5 & E)|(r1 & E5 & Hr1 & Hr)].
    2:{ destruct r; [by destruct (Hr a)|..];
        match type of E5 with
        | fileRepository.save ?en w4 = _ =>
            destruct (file_save_spec en w4) as [(sv & Es & _)|[e' Es]];
              rewrite Es in E5; injection E5 as <- <-;
              [by destruct (Hr1 sv)|congruence]
        end. }
    match type of E5 with
    | fileRepository.save ?en w4 = _ =>
        destruct (file_save_spec en w4) as [(sv & Es & Hsv)|[e' Es]];
          rewrite Es in E5; [|discriminate]
    end.
    injection E5 as <- <-.
    apply bind_inv in E as [([] & w6 & E6 & E)|(r1 & E6 & Hr1 & Hr)].
    2:{ apply stats_step_files in E6 as (_ & -> & _). by destruct (Hr1 tt). }
    apply stats_step_files in E6 as (Hf6 & _ & Hd6 & Ha6 & Hs6).
    unfold bind, logger_log, modify, ret in E. injection E as <- <-.
    simpl. split.
    - rewrite Hf6. simpl. congruence.
    - exists s, filename, res, w3, w4. subst sv.
      rewrite Hd6, Ha6, Hs6. done. }
  unfold try_catch in E.
  match type of E with
  | match ?body w with _ => _ end = _ =>
      destruct (body w) as [[saved|e|] wb] eqn:Eb
  end.
  + injection E as <- <-. exact (Hbody _ _ eq_refl).
  + unfold bind, logger_error, modify, throw in E. injection E as <- <-.
    exact (Hbody _ _ eq_refl).
  + injection E as <- <-. exact (Hbody _ _ eq_refl).
Qed.

(** A folder that does not exist and a folder id that is no [uuid] are both
    refused before anything is written; an upload without a folder persists
    its row after the write. *)
Example upload_refused_folder :
  (∃ cause w',
     FileService.uploadFile both_backends report_pdf
       (mkFileUploadDto None (Some "3f2b8c1e-7d4a-4b6f-9a1c-5e8d2f0b7a63")
                        None None None None None None)
       empty_world
     = (Throw (StorageOperationException "upload" cause), w')
     ∧ cause = "Folder with ID 3f2b8c1e-7d4a-4b6f-9a1c-5e8d2f0b7a63 not found"
     ∧ tables w' = tables empty_world ∧ disk w' = disk empty_world)
  ∧ (∃ cause w',
       FileService.uploadFile both_backends report_pdf
         (mkFileUploadDto None (Some "folder-9") None None None None None None)
         empty_world
       = (Throw (StorageOperationException "upload" cause), w')
       ∧ tables w' = tables empty_world ∧ disk w' = disk empty_world).
Proof. split; eexists _, _; by vm_compute. Qed.

(** C4.  The claim holds of every folder id but one, and there the code
    slips: an upload whose [folderId] is the empty string, which names no
    folder, passes the guard [if (uploadDto.folderId)] unchecked, so the
    bytes are written to the back-end before the insertion of the row fails.
    The call throws and no row is persisted, but the file stays on the
    disk. *)
Theorem upload_with_blank_folder_writes :
  dto_folderId blank_folder_dto = Some ""
  ∧ ("" ∉ (Folder.id <$> folders empty_world))
  ∧ (∃ cause,
       (FileService.uploadFile both_backends report_pdf blank_folder_dto
          empty_world).1
       = Throw (StorageOperationException "upload" cause))
  ∧ files (FileService.uploadFile both_backends report_pdf blank_folder_dto
             empty_world).2 = []
  ∧ entries (disk empty_world) = []
  ∧ entries (disk (FileService.uploadFile both_backends report_pdf
                     blank_folder_dto empty_world).2)
    = [("uploads/uuid-0.pdf", "%PDF-1.7 body")]
  ∧ ¬ no_write_for_unknown_folder both_backends report_pdf blank_folder_dto
        empty_world.
Proof.
  split_and!; try by_evaluation; try (vm_compute; reflexivity).
  - eexists. vm_compute. reflexivity.
  - intros H. destruct H as (_ & Hd & _).
    + exists "". split; [reflexivity|]. by_evaluation.
    + vm_compute in Hd. discriminate.
Qed.

(** An upload whose write the disk refuses leaves no row. *)
Example upload_refused_write :
  (FileService.uploadFile both_backends report_pdf plain_dto
     (set_disk (mkDisk [] ["uploads/uuid-0.pdf"]) empty_world)).1
  = Throw (StorageOperationException "upload"
             "EACCES: permission denied, open 'uploads/uuid-0.pdf'")
  ∧ files (FileService.uploadFile both_backends report_pdf plain_dto
             (set_disk (mkDisk [] ["uploads/uuid-0.pdf"]) empty_world)).2
    = [].
Proof. split; vm_compute; reflexivity. Qed.

(** ** Subtrees by parent pointers *)

Section Subtrees.
Variable h : string → nat.
Variable fs : list Folder.t.
Hypothesis Hids : NoDup (Folder.id <$> fs).
Hypothesis Hrank : ranked h fs.

Lemma row_by_id g g' :
  g ∈ fs → g' ∈ fs → Folder.id g = Folder.id g' → g = g'.
Proof.
  intros Hg Hg' Heq.
  apply list_elem_of_lookup in Hg as [i Hi].
  apply list_elem_of_lookup in Hg' as [j Hj].
  assert (i = j) as ->.
  { eapply NoDup_lookup; [exact Hids| |].
    - rewrite list_lookup_fmap, Hi. reflexivity.
    - rewrite list_lookup_fmap, Hj. simpl. by rewrite Heq. }
  congruence.
Qed.

Lemma Sub_rank a d : Sub fs a d → (h d <= h a)%nat.
Proof.
  induction 1 as [|g p Hg Hp _ IH]; [lia|].
  specialize (Hrank g p Hg Hp). lia.
Qed.

Lemma Sub_trans a b d : Sub fs a b → Sub fs b d → Sub fs a d.
Proof.
  intros Hab. induction 1 as [|g p Hg Hp _ IH]; [done|].
  by eapply Sub_child.
Qed.

(** Below [a] is [a] itself and what is below its children. *)
Lemma Sub_via_child a d :
  Sub fs a d →
  d = a ∨ ∃ c, c ∈ fs ∧ Folder.parentId c = Some a ∧ Sub fs (Folder.id c) d.
Proof.
  induction 1 as [|g p Hg Hp _ IH]; [by left|]. right.
  destruct IH as [->|(c & Hc & Hcp & Hsub)].
  - exists g. split; [done|]. split; [done|]. constructor.
  - exists c. split; [done|]. split; [done|]. by eapply Sub_child.
Qed.

(** The folders above a folder form a chain. *)
Lemma Sub_chain a b d : Sub fs a d → Sub fs b d → Sub fs a b ∨ Sub fs b a.
Proof.
  intros Ha. revert b.
  induction Ha as [|g p Hg Hp Hsub IH]; intros b Hb; [by right|].
  inversion Hb as [Heq|g' p' Hg' Hp' Hsub' Heq].
  - left. by eapply Sub_child.
  - assert (g' = g) as -> by (by apply row_by_id).
    rewrite Hp in Hp'. injection Hp' as <-. by apply IH.
Qed.

(** Two children of one folder have nothing in common below them. *)
Lemma Sub_siblings c c' a d :
  c ∈ fs → c' ∈ fs →
  Folder.parentId c = Some a → Folder.parentId c' = Some a →
  Sub fs (Folder.id c) d → Sub fs (Folder.id c') d → c = c'.
Proof.
  intros Hc Hc' Hp Hp' Hd Hd'.
  assert (∀ x y, x ∈ fs → y ∈ fs → Folder.parentId x = Some a →
                 Folder.parentId y = Some a →
                 Sub fs (Folder.id x) (Folder.id y) → x = y) as Hup.
  { intros x y Hx Hy Hxp Hyp Hs.
    inversion Hs as [Heq|g p Hg Hgp Hsub Heq].
    - by apply row_by_id.
    - assert (g = y) as -> by (by apply row_by_id).
      rewrite Hyp in Hgp. injection Hgp as <-.
      apply Sub_rank in Hsub. specialize (Hrank x a Hx Hxp). lia. }
  destruct (Sub_chain _ _ _ Hd Hd') as [H|H].
  - by apply Hup.
  - symmetry. by apply Hup.
Qed.

(** A folder is not below one of its children. *)
Lemma Sub_not_parent c a :
  c ∈ fs → Folder.parentId c = Some a → ¬ Sub fs (Folder.id c) a.
Proof.
  intros Hc Hp Hs. apply Sub_rank in Hs. specialize (Hrank c a Hc Hp). lia.
Qed.

End Subtrees.

Lemma Sub_mono fs fs' a d :
  (∀ g, g ∈ fs → g ∈ fs') → Sub fs a d → Sub fs' a d.
Proof.
  intros Hsub. induction 1 as [|g p Hg Hp _ IH]; [constructor|].
  eapply Sub_child; eauto.
Qed.

(** Removing rows outside the subtree of [a] does not change that subtree. *)
Lemma Sub_filter (P : Folder.t → Prop) `{∀ g, Decision (P g)} fs a d :
  (∀ g, g ∈ fs → Sub fs a (Folder.id g) → P g) →
  Sub fs a d ↔ Sub (filter P fs) a d.
Proof.
  intros Hkeep. split.
  - induction 1 as [|g p Hg Hp Hs IH]; [constructor|].
    eapply Sub_child; [|done|done].
    apply list_elem_of_filter. split; [|done].
    apply Hkeep; [done|]. by eapply Sub_child.
  - apply Sub_mono. intros g Hg. by apply list_elem_of_filter in Hg as [_ ?].
Qed.

Lemma ranked_filter (P : Folder.t → Prop) `{∀ g, Decision (P g)} h fs :
  ranked h fs → ranked h (filter P fs).
Proof.
  intros Hr g p Hg. apply list_elem_of_filter in Hg as [_ Hg]. by apply Hr.
Qed.

Lemma NoDup_ids_filter (P : Folder.t → Prop) `{∀ g, Decision (P g)} fs :
  NoDup (Folder.id <$> fs) → NoDup (Folder.id <$> filter P fs).
Proof.
  intros Hn. eapply sublist_NoDup; [exact Hn|].
  apply fmap_sublist, sublist_filter.
Qed.

(** ** Forced hard delete of a folder *)

Lemma before_app_l x y l k : before x y l → before x y (l ++ k).
Proof.
  intros (l1 & l2 & l3 & ->). exists l1, l2, (l3 ++ k).
  by rewrite <- !app_assoc, <- !app_comm_cons, <- app_assoc.
Qed.

Lemma before_app_r x y l k : before x y k → before x y (l ++ k).
Proof.
  intros (l1 & l2 & l3 & ->). exists (l ++ l1), l2, l3.
  by rewrite <- app_assoc.
Qed.

Lemma before_snoc x y l : x ∈ l → before x y (l ++ [y]).
Proof.
  intros (l1 & l2 & ->)%list_elem_of_split. exists l1, l2, [].
  by rewrite <- app_assoc.
Qed.

Lemma set_files_same w : set_files (files w) w = w.
Proof. by destruct w. Qed.

Lemma purged_nil w : purged [] w = w.
Proof.
  destruct w. unfold purged. simpl. f_equal.
  - apply filter_all. intros f _. apply not_elem_of_nil.
  - apply filter_all. intros f _. apply not_elem_of_nil.
  - apply filter_all. intros f _. split; apply not_elem_of_nil.
  - apply app_nil_r.
Qed.

Lemma purged_app R1 R2 w : purged R2 (purged R1 w) = purged (R1 ++ R2) w.
Proof.
  unfold purged. simpl. f_equal.
  - rewrite list_filter_filter. apply list_filter_iff. intros f.
    rewrite fmap_app, not_elem_of_app. tauto.
  - rewrite list_filter_filter. apply list_filter_iff. intros f.
    rewrite not_elem_of_app. tauto.
  - rewrite list_filter_filter. apply list_filter_iff. intros f.
    rewrite !not_elem_of_app. tauto.
  - by rewrite fmap_app, app_assoc.
Qed.

(** The files of the folder go first; when there are none the world is the
    same. *)
Lemma forced_files_step id w :
  (if (0 <? length (filter (fun f => File.folderId f = Some id)
                           (files w)))%nat
   then fileRepository.delete_by_folder id else ret tt) w
  = (Ok tt,
     set_files (filter (fun f => File.folderId f ≠ Some id) (files w)) w).
Proof.
  destruct (filter (fun f => File.folderId f = Some id) (files w))
    as [|f l] eqn:E; simpl; [|reflexivity].
  unfold ret. f_equal.
  rewrite filter_all; [by rewrite set_files_same|].
  intros f Hf Heq. by eapply (filter_nil_not_elem_of _ _ f E).
Qed.

Lemma forced_children_step (cs : list Folder.t) (body : Folder.t → M unit) :
  (if (0 <? length cs)%nat then for_of cs body else ret tt)
  = for_of cs body.
Proof. by destruct cs. Qed.

(** Removing a folder that holds no file row, and logging it. *)
Lemma remove_and_log folder w :
  (∀ f, f ∈ files w → File.folderId f ≠ Some (Folder.id folder)) →
  (folderRepository.remove folder ;;;
   logger_log ("Folder hard deleted: " +:+ Folder.id folder)) w
  = (Ok tt, purged [Folder.id folder] w).
Proof.
  intros Hnone. unfold bind, folderRepository.remove, logger_log, modify.
  unfold purged, set_log, set_files, set_closure, set_folders. simpl.
  f_equal. f_equal.
  - rewrite fmap_unless by done. symmetry. apply filter_all.
    intros f Hf. rewrite list_elem_of_singleton.
    intros [= Heq]. by apply (Hnone f).
  - apply list_filter_iff. intros g. by rewrite list_elem_of_singleton.
  - apply list_filter_iff. intros p. by rewrite !list_elem_of_singleton.
Qed.

Lemma folder_findOne_any id w :
  id ∈ Folder.id <$> folders w →
  ∃ folder, folderRepository.findOne id true w = (Ok (Some folder), w)
            ∧ folder ∈ folders w ∧ Folder.id folder = id.
Proof.
  intros Hin. rewrite folder_findOne_eq, (uuid_for_elem _ _ Hin).
  apply list_elem_of_fmap in Hin as (g & -> & Hg).
  destruct (list_find_elem_of
              (fun f => Folder.id f = Folder.id g
                        ∧ visible true (Folder.deletedAt f) = true)
              (folders w) g Hg (conj eq_refl eq_refl)) as [[i f] E].
  rewrite E. exists f. split; [done|].
  apply list_find_Some in E as (Hl & [Hid _] & _).
  split; [by eapply list_elem_of_lookup_2|done].
Qed.

Section ForcedHardDelete.
Variable h : string → nat.

(** The loop over the children, given the statement for one call at the
    depth of the loop body. *)
Lemma forced_children_loop (d : nat) :
  (∀ w id,
     NoDup (Folder.id <$> folders w) → ranked h (folders w) →
     id ∈ Folder.id <$> folders w → (h id < d)%nat →
     ∃ R, FolderService.hardDelete d id true w = (Ok tt, purged R w)
          ∧ removal_order w id R) →
  ∀ cs w a,
    NoDup (Folder.id <$> folders w) → ranked h (folders w) →
    (∀ c, c ∈ cs → c ∈ folders w ∧ Folder.parentId c = Some a
                   ∧ (h (Folder.id c) < d)%nat) →
    NoDup (Folder.id <$> cs) →
    ∃ Rs,
      for_of cs (fun child =>
                   FolderService.hardDelete d (Folder.id child) true) w
      = (Ok tt, purged Rs w)
      ∧ (∀ x, x ∈ Rs ↔ ∃ c, c ∈ cs ∧ Sub (folders w) (Folder.id c) x)
      ∧ NoDup Rs
      ∧ (∀ g p, g ∈ folders w → Folder.parentId g = Some p → p ∈ Rs →
                before (Folder.id g) p Rs).
Proof.
  intros IHd. induction cs as [|c cs IH]; intros w a Hids Hrank Hcs Hnd.
  - exists []. split; [by rewrite purged_nil|]. split; [|split].
    + intros x. split; [by intros ?%elem_of_nil|].
      by intros (c & ?%elem_of_nil & _).
    + constructor.
    + by intros g p _ _ ?%elem_of_nil.
  - destruct (Hcs c (list_elem_of_here _ _)) as (Hc & Hcp & Hcd).
    destruct (IHd w (Folder.id c) Hids Hrank) as (R1 & E1 & HR1 & Hnd1 & _ & Hord1);
      [apply list_elem_of_fmap; eauto|done|].
    rewrite fmap_cons in Hnd. apply NoDup_cons in Hnd as [Hcfresh Hnd'].
    (* a later child shares nothing with the subtree of [c] *)
    assert (∀ c' x, c' ∈ cs → Sub (folders w) (Folder.id c') x → x ∉ R1)
      as Hdisj.
    { intros c' x Hc' Hsub Hx. apply HR1 in Hx.
      destruct (Hcs c' (list_elem_of_further _ _ _ Hc')) as (Hc'in & Hc'p & _).
      assert (c = c') as <-
        by (eapply (Sub_siblings h (folders w)); eauto).
      apply Hcfresh. apply list_elem_of_fmap. eauto. }
    set (w' := purged R1 w).
    assert (∀ c' x, c' ∈ cs →
              Sub (folders w) (Folder.id c') x
              ↔ Sub (folders w') (Folder.id c') x) as Hsame.
    { intros c' x Hc'. apply (Sub_filter (fun g => Folder.id g ∉ R1)).
      intros g _ Hg. by eapply Hdisj. }
    destruct (IH w' a) as (R2 & E2 & HR2 & Hnd2 & Hord2).
    { by apply NoDup_ids_filter. }
    { by apply ranked_filter. }
    { intros c' Hc'.
      destruct (Hcs c' (list_elem_of_further _ _ _ Hc')) as (Hc'in & Hc'p & Hc'd).
      split; [|done]. apply list_elem_of_filter. split; [|done].
      eapply Hdisj; [exact Hc'|constructor]. }
    { done. }
    exists (R1 ++ R2). split; [|split; [|split]].
    + simpl. unfold bind. rewrite E1. fold w'. rewrite E2.
      unfold w'. by rewrite purged_app.
    + intros x. rewrite elem_of_app, HR1, HR2. split.
      * intros [Hx|(c' & Hc' & Hx)].
        -- exists c. split; [left|done].
        -- exists c'. split; [by right|]. by apply Hsame.
      * intros (c' & Hc' & Hx). apply elem_of_cons in Hc' as [->|Hc'].
        -- by left.
        -- right. exists c'. split; [done|]. by apply Hsame.
    + apply NoDup_app. split; [done|]. split; [|done].
      intros x Hx1 Hx2. apply HR2 in Hx2 as (c' & Hc' & Hx2).
      apply Hsame in Hx2; [|done]. by eapply Hdisj.
    + intros g p Hg Hgp Hp. apply elem_of_app in Hp as [Hp|Hp].
      * apply before_app_l. by eapply Hord1.
      * apply before_app_r. eapply Hord2; [|exact Hgp|exact Hp].
        apply list_elem_of_filter. split; [|done].
        apply HR2 in Hp as (c' & Hc' & Hp). apply Hsame in Hp; [|done].
        eapply Hdisj; [exact Hc'|]. by eapply Sub_child.
Qed.

(** A forced hard delete of a folder of an acyclic tree returns, given a
    depth above the rank of the folder, and has purged the subtree of the
    folder bottom-up. *)
Lemma hardDelete_forced (d : nat) :
  ∀ w id,
    NoDup (Folder.id <$> folders w) → ranked h (folders w) →
    id ∈ Folder.id <$> folders w → (h id < d)%nat →
    ∃ R, FolderService.hardDelete d id true w = (Ok tt, purged R w)
         ∧ removal_order w id R.
Proof.
  induction d as [|d IHd]; intros w id Hids Hrank Hid Hd; [lia|].
  destruct (folder_findOne_any id w Hid) as (folder & Ef & Hfin & Hfid).
  set (w1 := set_files (filter (fun f => File.folderId f ≠ Some id) (files w))
                       w).
  set (cs := filter (fun g => Folder.parentId g = Some id) (folders w)).
  destruct (forced_children_loop d IHd cs w1 id) as (Rs & E & HRs & Hnd & Hord).
  { done. }
  { done. }
  { intros c Hc. apply list_elem_of_filter in Hc as [Hcp Hc].
    split; [done|]. split; [done|]. specialize (Hrank c id Hc Hcp). lia. }
  { by apply NoDup_ids_filter. }
  assert (id ∉ Rs) as Hfresh.
  { intros (c & Hc & Hsub)%HRs.
    apply list_elem_of_filter in Hc as [Hcp Hc].
    by eapply (Sub_not_parent h (folders w)). }
  exists (Rs ++ [id]). split.
  - cbn [FolderService.hardDelete].
    rewrite (bind_Ok _ _ _ _ _ Ef).
    erewrite bind_Ok by reflexivity.
    cbn [negb andb]. rewrite Bool.andb_false_r.
    erewrite bind_Ok by apply forced_files_step. fold w1.
    erewrite bind_Ok by reflexivity.
    change (folders w1) with (folders w). fold cs.
    rewrite Bool.andb_false_r.
    erewrite bind_Ok by (rewrite forced_children_step; exact E).
    replace ("Folder hard deleted: " +:+ id)
      with ("Folder hard deleted: " +:+ Folder.id folder) by (by rewrite Hfid).
    rewrite remove_and_log.
    2:{ intros f Hf. apply list_elem_of_filter in Hf as [_ Hf].
        apply list_elem_of_filter in Hf as [Hf _]. by rewrite Hfid. }
    rewrite purged_app, Hfid. f_equal.
    unfold purged, w1. simpl. f_equal.
    apply list_filter_filter_l. intros f Hf Heq. apply Hf. rewrite Heq.
    rewrite fmap_app. apply elem_of_app. right. by left.
  - split; [|split; [|split]].
    + intros x. rewrite elem_of_app, list_elem_of_singleton, HRs. split.
      * intros [(c & Hc & Hsub)| ->]; [|constructor].
        apply list_elem_of_filter in Hc as [Hcp Hc].
        eapply Sub_trans; [|exact Hsub].
        eapply Sub_child; [exact Hc|exact Hcp|constructor].
      * intros Hsub. apply Sub_via_child in Hsub as [->|(c & Hc & Hcp & Hs)].
        -- by right.
        -- left. exists c. split; [|done]. by apply list_elem_of_filter.
    + apply NoDup_app. split; [done|]. split; [|apply NoDup_singleton].
      intros x Hx ->%list_elem_of_singleton. done.
    + by exists Rs.
    + intros g p Hg Hgp Hp. apply elem_of_app in Hp as [Hp|Hp].
      * apply before_app_l. by eapply Hord.
      * apply list_elem_of_singleton in Hp as ->. apply before_snoc.
        apply HRs. exists g. split; [by apply list_elem_of_filter|].
        constructor.
Qed.

End ForcedHardDelete.

(** C3, refuted: the forced hard delete of "Docs" with its two uploaded files
    removes the rows and leaves both objects on the disk. *)
Lemma forced_delete_keeps_objects :
  ¬ forced_delete_removes_objects 4 stocked_world "folder-0".
Proof. by_evaluation. Qed.

Example forced_delete_leaves_disk :
  (FolderService.hardDelete 4 "folder-0" true stocked_world).1 = Ok tt
  ∧ files (FolderService.hardDelete 4 "folder-0" true stocked_world).2 = []
  ∧ entries (disk (FolderService.hardDelete 4 "folder-0" true
                     stocked_world).2)
    = [("uploads/uuid-1.pdf", "%PDF-1.7 body");
       ("uploads/uuid-3.pdf", "%PDF-1.7 body")].
Proof. vm_compute. done. Qed.

(** C3, as the code has it.  In a folder table with unique ids and no cycle
    of parent pointers, for a folder that holds at least one file row
    (soft-deleted or not) and a depth above the rank of the folder:
    [hardDelete] without [force] throws the folder-not-empty conflict and
    changes nothing; with [force] it returns, and it has removed the rows of
    the folders [R], which are exactly the folder and what lies below it,
    each child before its parent and the folder itself last, together with
    every file row that pointed at one of them and the closure rows that
    mention them.  The disk and the object stores are as they were: the
    objects of the removed files are not deleted. *)
Theorem hardDelete_folder_with_files (h : string → nat) (depth : nat)
    (w : World) (id : string) :
  NoDup (Folder.id <$> folders w) →
  ranked h (folders w) →
  id ∈ Folder.id <$> folders w →
  (∃ f, f ∈ files w ∧ File.folderId f = Some id) →
  (h id < depth)%nat →
  FolderService.hardDelete depth id false w
  = (Throw (FolderNotEmptyException id), w)
  ∧ ∃ R w',
      FolderService.hardDelete depth id true w = (Ok tt, w')
      ∧ w' = purged R w
      ∧ removal_order w id R
      ∧ (∀ f, f ∈ files w' ↔
              f ∈ files w
              ∧ ∀ x, Sub (folders w) id x → File.folderId f ≠ Some x)
      ∧ (∀ g, g ∈ folders w' ↔
              g ∈ folders w ∧ ¬ Sub (folders w) id (Folder.id g))
      ∧ disk w' = disk w ∧ aws w' = aws w ∧ spaces w' = spaces w.
Proof.
  intros Hids Hrank Hid (f & Hf & Hfo) Hd. split.
  - destruct depth as [|d]; [lia|].
    destruct (folder_findOne_any id w Hid) as (folder & Ef & _).
    cbn [FolderService.hardDelete].
    rewrite (bind_Ok _ _ _ _ _ Ef).
    erewrite bind_Ok by reflexivity.
    assert (f ∈ filter (fun f => File.folderId f = Some id) (files w)) as Hin
      by (by apply list_elem_of_filter).
    destruct (filter (fun f => File.folderId f = Some id) (files w));
      [by apply elem_of_nil in Hin|reflexivity].
  - destruct (hardDelete_forced h depth w id Hids Hrank Hid Hd)
      as (R & E & HR).
    exists R, (purged R w). split; [done|]. split; [done|]. split; [done|].
    destruct HR as (HR & _). split; [|split; [|done]].
    + intros f0. unfold purged. simpl. rewrite list_elem_of_filter. split.
      * intros [Hn H0]. split; [done|]. intros x Hx Heq. apply Hn.
        rewrite Heq. apply list_elem_of_fmap. exists x. by rewrite HR.
      * intros [H0 Hn]. split; [|done].
        intros (x & Heq & Hx)%list_elem_of_fmap. apply (Hn x); [|done].
        by apply HR.
    + intros g. unfold purged. simpl. rewrite list_elem_of_filter, HR. tauto.
Qed.

Lemma ranked_Forall h fs :
  ranked h fs
  ↔ Forall (fun g => match Folder.parentId g with
                     | Some p => (h (Folder.id g) < h p)%nat
                     | None => True
                     end) fs.
Proof.
  unfold ranked. rewrite Forall_forall. split.
  - intros H g Hg. destruct (Folder.parentId g) as [p|] eqn:E; [|done].
    by apply H.
  - intros H g p Hg Hp. specialize (H g Hg). by rewrite Hp in H.
Qed.

Lemma library_ranked : ranked library_rank (folders library_world).
Proof.
  apply ranked_Forall. vm_compute. repeat constructor.
Qed.

Lemma hardDelete_folder_with_files_witness :
  FolderService.hardDelete 2 "folder-0" false library_world
  = (Throw (FolderNotEmptyException "folder-0"), library_world)
  ∧ ∃ R w',
      FolderService.hardDelete 2 "folder-0" true library_world = (Ok tt, w')
      ∧ w' = purged R library_world
      ∧ removal_order library_world "folder-0" R
      ∧ (∀ f, f ∈ files w' ↔
              f ∈ files library_world
              ∧ ∀ x, Sub (folders library_world) "folder-0" x →
                     File.folderId f ≠ Some x)
      ∧ (∀ g, g ∈ folders w' ↔
              g ∈ folders library_world
              ∧ ¬ Sub (folders library_world) "folder-0" (Folder.id g))
      ∧ disk w' = disk library_world ∧ aws w' = aws library_world
      ∧ spaces w' = spaces library_world.
Proof.
  apply (hardDelete_folder_with_files library_rank 2 library_world "folder-0").
  - by_evaluation.
  - exact library_ranked.
  - by_evaluation.
  - destruct (files library_world) as [|f l] eqn:E;
      [vm_compute in E; discriminate|].
    exists f. split; [left|]. vm_compute in E. by injection E as <- <-.
  - vm_compute. lia.
Defined.

(** The same call, evaluated: "Reports" goes before "Docs", and the object
    of the file is still on the disk. *)
Example forced_delete_of_library :
  FolderService.hardDelete 2 "folder-0" true library_world
  = (Ok tt, purged ["folder-1"; "folder-0"] library_world)
  ∧ entries (disk (purged ["folder-1"; "folder-0"] library_world))
    = [("uploads/uuid-2.pdf", "%PDF-1.7 body")]
  ∧ files (purged ["folder-1"; "folder-0"] library_world) = [].
Proof. vm_compute. done. Qed.

(** * Further properties of the code *)

(** ** The registry of back-ends *)

Lemma map_get_set (k k' : StorageType) v (m : StrategyMap) :
  map_get k' (map_set k v m) = if decide (k' = k) then Some v else map_get k' m.
Proof.
  induction m as [|[k0 v0] m IH]; simpl.
  - repeat case_decide; congruence.
  - repeat (case_decide; simpl; subst); congruence.
Qed.

Lemma map_get_delete (k k' : StorageType) (m : StrategyMap) :
  map_get k' (map_delete k m) = if decide (k' = k) then None else map_get k' m.
Proof.
  unfold map_delete, StrategyMap in *. induction m as [|[k0 v0] m IH].
  - simpl. by case_decide.
  - rewrite filter_cons. simpl.
    repeat (case_decide; simpl; subst); try congruence.
    all: try (by rewrite decide_True in IH by done).
    all: try (by rewrite decide_False in IH by done).
Qed.

Lemma map_set_keys (k : StorageType) v (m : StrategyMap) :
  (map_set k v m).*1 = if bool_decide (k ∈ m.*1) then m.*1 else m.*1 ++ [k].
Proof.
  induction m as [|[k0 v0] m IH]; csimpl; [done|].
  destruct (decide (k0 = k)) as [->|Hk]; csimpl.
  - rewrite bool_decide_eq_true_2 by left. done.
  - rewrite IH. destruct (bool_decide (k ∈ m.*1)) eqn:E.
    + apply bool_decide_eq_true in E.
      rewrite bool_decide_eq_true_2 by (by right). done.
    + apply bool_decide_eq_false in E.
      rewrite bool_decide_eq_false_2; [done|].
      intros [->|H]%elem_of_cons; done.
Qed.

(** X1. [registerStrategy] then [getStrategy]: the registered kind answers
    with the new strategy, whether or not the kind was registered before, and
    every other kind answers as it did.  A kind that was registered keeps its
    place in [getAvailableTypes]; a new kind goes to the end. *)
Theorem registerStrategy_then_getStrategy (strategies : StrategyMap)
    (type : StorageType) (strategy : IStorageStrategy) :
  (∀ t w,
     StorageFactory.getStrategy
       (StorageFactory.registerStrategy strategies type strategy) t w
     = if decide (t = type) then (Ok strategy, w)
       else StorageFactory.getStrategy strategies t w)
  ∧ StorageFactory.getAvailableTypes
      (StorageFactory.registerStrategy strategies type strategy)
    = if bool_decide (type ∈ StorageFactory.getAvailableTypes strategies)
      then StorageFactory.getAvailableTypes strategies
      else StorageFactory.getAvailableTypes strategies ++ [type].
Proof.
  split; [|apply map_set_keys]. intros t w.
  unfold StorageFactory.getStrategy, StorageFactory.registerStrategy.
  rewrite map_get_set. by case_decide.
Qed.

(** X2. [unregisterStrategy] then [getStrategy]: the kind removed is no
    longer found, [hasStrategy] denies it, and every other kind answers as
    it did. *)
Theorem unregisterStrategy_then_getStrategy (strategies : StrategyMap)
    (type t : StorageType) (w : World) :
  StorageFactory.getStrategy
    (StorageFactory.unregisterStrategy strategies type) t w
  = (if decide (t = type)
     then (Throw (Error ("Storage strategy not found for type: "
                         +:+ StorageType_value t
                         +:+ ". Make sure it's configured in the module.")), w)
     else StorageFactory.getStrategy strategies t w)
  ∧ StorageFactory.hasStrategy
      (StorageFactory.unregisterStrategy strategies type) type = false.
Proof.
  unfold StorageFactory.getStrategy, StorageFactory.unregisterStrategy,
    StorageFactory.hasStrategy.
  rewrite !map_get_delete. split.
  - by case_decide.
  - rewrite decide_True by done. apply bool_decide_eq_false_2.
    by intros [? ?].
Qed.

Lemma initializeStrategies_keys (configs : StorageConfigMap) :
  (StorageFactory.initializeStrategies configs).*1
  = filter (configured configs) [LOCAL; AWS_S3; DIGITAL_OCEAN; LINUX_FOLDER].
Proof.
  destruct configs as [[l|] [a|] [d|] [x|]]; reflexivity.
Qed.

(** X3. [getDefaultStrategy] answers as [getStrategy] does for the first of
    [getAvailableTypes], and throws exactly when there is none.  For a new
    factory the kinds are the configured ones in the order local, S3, Spaces,
    Linux folder, whatever the order of the keys of the configuration
    object: the default of a new factory is the first configured kind in
    that order. *)
Theorem getDefaultStrategy_first :
  (∀ strategies w,
     StorageFactory.getDefaultStrategy strategies w
     = match StorageFactory.getAvailableTypes strategies with
       | t :: _ => StorageFactory.getStrategy strategies t w
       | [] => (Throw (Error "No storage strategies available"), w)
       end)
  ∧ ∀ configs,
      StorageFactory.getAvailableTypes
        (StorageFactory.initializeStrategies configs)
      = filter (configured configs)
               [LOCAL; AWS_S3; DIGITAL_OCEAN; LINUX_FOLDER].
Proof.
  split; [|apply initializeStrategies_keys]. intros strategies w.
  unfold StorageFactory.getDefaultStrategy, StorageFactory.getAvailableTypes,
    StorageFactory.getStrategy.
  destruct strategies as [|[k v] m]; simpl; [done|].
  by rewrite decide_True.
Qed.

Lemma NoDup_map_delete k (m : StrategyMap) :
  NoDup m.*1 → NoDup (map_delete k m).*1.
Proof.
  unfold map_delete, StrategyMap in *.
  induction m as [|[k0 v0] m IH]; csimpl; [done|].
  intros [Hk Hm]%NoDup_cons. rewrite filter_cons. csimpl.
  case_decide; [|by auto]. csimpl. apply NoDup_cons. split; [|by auto].
  intros (e & -> & He)%list_elem_of_fmap.
  apply list_elem_of_filter in He as [_ He].
  apply Hk, list_elem_of_fmap. eauto.
Qed.

Lemma built_NoDup (m : StrategyMap) : built m → NoDup m.*1.
Proof.
  induction 1 as [configs|m type strategy _ IH|m type _ IH].
  - rewrite initializeStrategies_keys.
    apply NoDup_filter. by_evaluation.
  - unfold StorageFactory.registerStrategy. rewrite map_set_keys.
    case_bool_decide as Hin; [done|].
    apply NoDup_app. split_and!; [done| |apply NoDup_singleton].
    intros x Hx ->%list_elem_of_singleton. done.
  - by apply NoDup_map_delete.
Qed.

(** X4. Whatever sequence of [registerStrategy] and [unregisterStrategy]
    follows the constructor, [getAvailableTypes] lists no kind twice, so it
    has at most four entries, and [hasStrategy] holds of exactly the kinds
    it lists. *)
Theorem available_types_distinct (strategies : StrategyMap) :
  built strategies →
  NoDup (StorageFactory.getAvailableTypes strategies)
  ∧ (length (StorageFactory.getAvailableTypes strategies) <= 4)%nat
  ∧ ∀ t, StorageFactory.hasStrategy strategies t
         = bool_decide (t ∈ StorageFactory.getAvailableTypes strategies).
Proof.
  intros Hb. apply built_NoDup in Hb.
  unfold StorageFactory.getAvailableTypes, StorageFactory.hasStrategy.
  split_and!; [done| |].
  - change 4%nat with (length [LOCAL; AWS_S3; DIGITAL_OCEAN; LINUX_FOLDER]).
    apply submseteq_length, NoDup_submseteq; [done|].
    intros [] _; by_evaluation.
  - intros t. clear Hb. induction strategies as [|[k v] m IH]; [done|].
    cbn [map_get]. rewrite fmap_cons. cbn [fst].
    destruct (decide (k = t)) as [->|Hk].
    + rewrite !bool_decide_eq_true_2; [done|by left|by eexists].
    + rewrite IH. apply bool_decide_ext. rewrite elem_of_cons.
      split; [by right|]. by intros [->|?].
Qed.

Lemma available_types_distinct_witness :
  NoDup (StorageFactory.getAvailableTypes
           (StorageFactory.unregisterStrategy
              (StorageFactory.registerStrategy both_backends AWS_S3
                 s3_strategy) LOCAL))
  ∧ (length (StorageFactory.getAvailableTypes
               (StorageFactory.unregisterStrategy
                  (StorageFactory.registerStrategy both_backends AWS_S3
                     s3_strategy) LOCAL)) <= 4)%nat
  ∧ ∀ t, StorageFactory.hasStrategy
           (StorageFactory.unregisterStrategy
              (StorageFactory.registerStrategy both_backends AWS_S3
                 s3_strategy) LOCAL) t
         = bool_decide
             (t ∈ StorageFactory.getAvailableTypes
                    (StorageFactory.unregisterStrategy
                       (StorageFactory.registerStrategy both_backends AWS_S3
                          s3_strategy) LOCAL)).
Proof.
  exact (available_types_distinct _
           (built_unregister _ LOCAL
              (built_register _ AWS_S3 s3_strategy (built_new _)))).
Defined.

(** ** The local disk *)

Lemma list_find_entry {K} `{EqDecision K} (k : K) (es : list (K * string)) :
  snd <$> list_find (fun e => e.1 = k) es
  = (fun v => (k, v)) <$> entry_lookup k es.
Proof.
  induction es as [|[k' v] es IH]; [done|]. cbn [entry_lookup list_find].
  csimpl. destruct (decide (k' = k)) as [->|Hk]; [done|].
  rewrite <- IH. by destruct (list_find _ es) as [[i e]|].
Qed.

Lemma entry_lookup_elem {K} `{EqDecision K} (k : K) (es : list (K * string)) :
  is_Some (entry_lookup k es) ↔ k ∈ es.*1.
Proof.
  induction es as [|[k' v] es IH]; csimpl.
  - split; [by intros [? ?]|by intros ?%elem_of_nil].
  - destruct (decide (k' = k)) as [->|Hk];
      [split; [by left|by eexists]|].
    rewrite IH, elem_of_cons. split; [by right|]. by intros [->|?].
Qed.

Lemma entry_lookup_None {K} `{EqDecision K} (k : K) (es : list (K * string)) :
  entry_lookup k es = None ↔ k ∉ es.*1.
Proof.
  rewrite <- entry_lookup_elem, eq_None_not_Some. done.
Qed.

Lemma entry_lookup_app {K} `{EqDecision K} (k : K) (es es' : list (K * string)) :
  entry_lookup k (es ++ es')
  = match entry_lookup k es with
    | Some v => Some v
    | None => entry_lookup k es'
    end.
Proof.
  induction es as [|[k' v] es IH]; csimpl; [done|]. by case_decide.
Qed.

Lemma entry_lookup_remove {K} `{EqDecision K} (k q : K)
    (es : list (K * string)) :
  entry_lookup q (filter (fun e => e.1 ≠ k) es)
  = if decide (q = k) then None else entry_lookup q es.
Proof.
  induction es as [|[k' v] es IH]; csimpl.
  - by case_decide.
  - rewrite filter_cons. csimpl.
    repeat (case_decide; csimpl; subst); congruence.
Qed.

Lemma entry_lookup_put (p q body : string) (es : list (string * string)) :
  entry_lookup q (put_entry p body es)
  = if decide (q = p) then Some body else entry_lookup q es.
Proof.
  unfold put_entry. rewrite entry_lookup_app, entry_lookup_remove. csimpl.
  destruct (decide (q = p)) as [->|Hq].
  - by rewrite decide_True.
  - rewrite decide_False by done. by destruct (entry_lookup q es).
Qed.

Lemma list_find_lookup {K} `{EqDecision K} (k : K) (es : list (K * string)) :
  list_find (fun e => e.1 = k) es = None ∧ entry_lookup k es = None
  ∨ ∃ i v, list_find (fun e => e.1 = k) es = Some (i, (k, v))
           ∧ entry_lookup k es = Some v.
Proof.
  pose proof (list_find_entry k es) as H.
  destruct (list_find _ es) as [[i e]|], (entry_lookup k es) as [v|];
    simplify_eq/=; eauto.
Qed.

Lemma fs_readFile_spec p w :
  fs_readFile p w
  = match disk_lookup p w with
    | Some body => (Ok body, w)
    | None => (Throw (Error ("ENOENT: no such file or directory, open '"
                             +:+ p +:+ "'")), w)
    end.
Proof.
  unfold fs_readFile, disk_lookup.
  by destruct (list_find_lookup p (entries (disk w)))
    as [[-> ->]|(i & v & -> & ->)].
Qed.

Lemma fs_stat_size_spec p w :
  fs_stat_size p w
  = match disk_lookup p w with
    | Some body => (Ok (Z.of_nat (String.length body)), w)
    | None => (Throw (Error ("ENOENT: no such file or directory, stat '"
                             +:+ p +:+ "'")), w)
    end.
Proof.
  unfold fs_stat_size, disk_lookup.
  by destruct (list_find_lookup p (entries (disk w)))
    as [[-> ->]|(i & v & -> & ->)].
Qed.

Lemma existsSync_spec p w :
  existsSync p w = (Ok (bool_decide (is_Some (disk_lookup p w))), w).
Proof.
  unfold existsSync, get, disk_lookup. do 2 f_equal.
  apply bool_decide_ext. by rewrite entry_lookup_elem.
Qed.

(** The disk after [body] is written at [p]. *)
Lemma disk_lookup_write p q body l w :
  disk_lookup q
    (set_log l (set_disk (mkDisk (put_entry p body (entries (disk w)))
                                 (denied (disk w))) w))
  = if decide (q = p) then Some body else disk_lookup q w.
Proof. unfold disk_lookup. simpl. apply entry_lookup_put. Qed.

Lemma local_upload_ok config file filename w :
  LocalStorageStrategy.getFullPath config filename ∉ denied (disk w) →
  LocalStorageStrategy.upload config file filename w
  = (Ok (mkFileUploadResult
           (LocalStorageStrategy.getFullPath config filename)
           (Some (LocalStorageStrategy.getPublicUrl config filename))
           None None (Z.of_nat (String.length (buffer_of file)))
           match file with
           | IsBuffer _ => "application/octet-stream"
           | IsFile f => m_mimetype f
           end),
     set_log (log w ++ ["LOG " +:+ ("File uploaded successfully: "
                                    +:+ filename)])
       (set_disk (mkDisk (put_entry
                            (LocalStorageStrategy.getFullPath config filename)
                            (buffer_of file) (entries (disk w)))
                         (denied (disk w))) w)).
Proof.
  intros Hd. unfold LocalStorageStrategy.upload, try_catch. cbv zeta.
  rewrite ensure_directory_bind. unfold bind at 1.
  unfold fs_writeFile. rewrite bool_decide_eq_false_2 by done.
  unfold bind at 1. rewrite fs_stat_size_spec.
  unfold disk_lookup. simpl. rewrite entry_lookup_put, decide_True by done.
  reflexivity.
Qed.

Lemma local_upload_denied config file filename w :
  LocalStorageStrategy.getFullPath config filename ∈ denied (disk w) →
  LocalStorageStrategy.upload config file filename w
  = (Throw (Error ("EACCES: permission denied, open '"
                   +:+ LocalStorageStrategy.getFullPath config filename
                   +:+ "'")),
     set_log (log w ++ ["ERROR " +:+ ("Upload failed for " +:+ filename
                +:+ ": " +:+ ("EACCES: permission denied, open '"
                   +:+ LocalStorageStrategy.getFullPath config filename
                   +:+ "'"))]) w).
Proof.
  intros Hd. unfold LocalStorageStrategy.upload, try_catch. cbv zeta.
  rewrite ensure_directory_bind. unfold bind at 1.
  unfold fs_writeFile. rewrite bool_decide_eq_true_2 by done.
  reflexivity.
Qed.

Lemma disk_lookup_log p l w : disk_lookup p (set_log l w) = disk_lookup p w.
Proof. done. Qed.

Lemma local_delete_spec config p w :
  LocalStorageStrategy.delete config p w
  = if bool_decide (is_Some (disk_lookup
                               (LocalStorageStrategy.getFullPath config p) w))
    then
      if bool_decide (LocalStorageStrategy.getFullPath config p
                      ∈ denied (disk w))
      then
        (Ok (mkFileDeleteResult false
               (Some ("EACCES: permission denied, unlink '"
                      +:+ LocalStorageStrategy.getFullPath config p +:+ "'"))),
         set_log (log w ++ ["ERROR " +:+ ("Delete failed for " +:+ p +:+ ": "
                    +:+ ("EACCES: permission denied, unlink '"
                         +:+ LocalStorageStrategy.getFullPath config p
                         +:+ "'"))]) w)
      else
        (Ok (mkFileDeleteResult true (Some "File deleted successfully")),
         set_log (log w ++ ["LOG " +:+ ("File deleted successfully: " +:+ p)])
           (set_disk
              (mkDisk (filter (fun e => e.1 ≠ LocalStorageStrategy.getFullPath
                                                config p)
                              (entries (disk w)))
                      (denied (disk w))) w))
    else (Ok (mkFileDeleteResult false (Some "File not found")), w).
Proof.
  unfold LocalStorageStrategy.delete, try_catch, bind at 1.
  rewrite existsSync_spec.
  case_bool_decide as Hin; [|done].
  unfold bind at 1, fs_unlink.
  case_bool_decide as Hd; [done|].
  rewrite bool_decide_eq_true_2; [done|].
  by apply entry_lookup_elem.
Qed.

Lemma disk_lookup_unlink p q l w :
  disk_lookup q
    (set_log l (set_disk (mkDisk (filter (fun e => e.1 ≠ p) (entries (disk w)))
                                 (denied (disk w))) w))
  = if decide (q = p) then None else disk_lookup q w.
Proof. unfold disk_lookup. simpl. apply entry_lookup_remove. Qed.

(** X5. A file written by [upload] is the file [get] reads back under the
    same name, [exists] finds it, its reported size is the length of the
    buffer, and every file of the upload directory that is another file than
    the one written holds what it held. *)
Theorem local_upload_then_get (config : LocalStorageConfig) (file : Upload)
    (filename : string) (w : World) :
  LocalStorageStrategy.getFullPath config filename ∉ denied (disk w) →
  ∃ result w1,
    LocalStorageStrategy.upload config file filename w = (Ok result, w1)
    ∧ r_path result = LocalStorageStrategy.getFullPath config filename
    ∧ r_size result = Z.of_nat (String.length (buffer_of file))
    ∧ LocalStorageStrategy_get config filename w1 = (Ok (buffer_of file), w1)
    ∧ LocalStorageStrategy.exists_ config filename w1 = (Ok true, w1)
    ∧ ∀ other,
        distinct_files (LocalStorageStrategy.getFullPath config other)
                       (LocalStorageStrategy.getFullPath config filename) →
        disk_lookup (LocalStorageStrategy.getFullPath config other) w1
        = disk_lookup (LocalStorageStrategy.getFullPath config other) w.
Proof.
  intros Hd. rewrite local_upload_ok by done.
  eexists _, _. split; [reflexivity|]. split; [reflexivity|].
  split; [reflexivity|]. split_and!.
  - unfold LocalStorageStrategy_get, try_catch.
    rewrite fs_readFile_spec, disk_lookup_write, decide_True by done. done.
  - unfold LocalStorageStrategy.exists_.
    rewrite existsSync_spec, disk_lookup_write, decide_True by done.
    by rewrite bool_decide_eq_true_2 by by eexists.
  - intros other [Hq _]. by rewrite disk_lookup_write, decide_False.
Qed.

(** A report is uploaded under a name with a [.] segment: it lands beside the
    notes, which are as they were. *)
Lemma local_upload_then_get_witness :
  ∃ result w1,
    LocalStorageStrategy.upload local_config (IsFile report_pdf)
      "./report.pdf" notes_world = (Ok result, w1)
    ∧ r_path result = "uploads/report.pdf"
    ∧ r_size result = 13
    ∧ LocalStorageStrategy_get local_config "./report.pdf" w1
      = (Ok "%PDF-1.7 body", w1)
    ∧ LocalStorageStrategy.exists_ local_config "report.pdf" w1 = (Ok true, w1)
    ∧ disk_lookup "uploads/notes.txt" w1 = Some "hello".
Proof.
  destruct (local_upload_then_get local_config (IsFile report_pdf)
              "./report.pdf" notes_world) as (r & w1 & E & Hp & Hs & Hg & He & Hf);
    [by_evaluation|].
  exists r, w1. split; [exact E|]. split; [exact Hp|]. split; [exact Hs|].
  split; [exact Hg|]. split; [exact He|].
  apply (Hf "notes.txt"). by_evaluation.
Defined.

(** X6. [delete] never throws.  It answers [success] exactly when the file
    was there and the system let it go; the file is then gone, and otherwise
    the disk is as it was. *)
Theorem local_delete_outcome (config : LocalStorageConfig) (filepath : string)
    (w : World) :
  ∃ result w1,
    LocalStorageStrategy.delete config filepath w = (Ok result, w1)
    ∧ success result
      = bool_decide
          (is_Some (disk_lookup
                      (LocalStorageStrategy.getFullPath config filepath) w)
           ∧ LocalStorageStrategy.getFullPath config filepath
             ∉ denied (disk w))
    ∧ (if success result
       then LocalStorageStrategy.exists_ config filepath w1 = (Ok false, w1)
       else disk w1 = disk w).
Proof.
  rewrite local_delete_spec.
  case_bool_decide as Hin; [case_bool_decide as Hd|]; eexists _, _;
    (split; [reflexivity|]); cbn [success].
  - split; [|done]. symmetry. apply bool_decide_eq_false_2. tauto.
  - split; [symmetry; by apply bool_decide_eq_true_2|].
    unfold LocalStorageStrategy.exists_.
    rewrite existsSync_spec, disk_lookup_unlink, decide_True by done.
    rewrite bool_decide_eq_false_2; [done|]. by intros [? ?].
  - split; [|done]. symmetry. apply bool_decide_eq_false_2. tauto.
Qed.

Lemma local_delete_frame config p w :
  ∃ result w1,
    LocalStorageStrategy.delete config p w = (Ok result, w1)
    ∧ tables w1 = tables w
    ∧ denied (disk w1) = denied (disk w)
    ∧ ∀ q, q ≠ LocalStorageStrategy.getFullPath config p →
           disk_lookup q w1 = disk_lookup q w.
Proof.
  rewrite local_delete_spec.
  case_bool_decide as Hin; [case_bool_decide as Hd|]; eexists _, _;
    (split; [reflexivity|]); split_and!; try done.
  intros q Hq. by rewrite disk_lookup_unlink, decide_False.
Qed.

Lemma local_deleteMultiple_loop_total config paths acc w :
  ∃ results w1,
    LocalStorageStrategy.deleteMultiple_loop config paths acc w
    = (Ok (acc ++ results), w1)
    ∧ length results = length paths
    ∧ tables w1 = tables w
    ∧ ∀ q, (q ∉ (LocalStorageStrategy.getFullPath config <$> paths)) →
           disk_lookup q w1 = disk_lookup q w.
Proof.
  revert acc w. induction paths as [|p paths IH]; intros acc w.
  - exists [], w. by rewrite app_nil_r.
  - cbn [LocalStorageStrategy.deleteMultiple_loop].
    destruct (local_delete_frame config p w) as (r & w1 & E & Ht & _ & Hf).
    rewrite (bind_Ok _ _ _ _ _ E).
    destruct (IH (acc ++ [r]) w1) as (rs & w2 & E2 & Hl & Ht2 & Hf2).
    exists (r :: rs), w2. rewrite E2, <- app_assoc. split_and!; try done.
    + simpl. by rewrite Hl.
    + congruence.
    + intros q Hq. rewrite fmap_cons, not_elem_of_cons in Hq.
      destruct Hq as [Hq1 Hq2]. rewrite Hf2, Hf by done. done.
Qed.

(** X7. [deleteMultiple] never throws and answers with one result for each
    path; it touches no table, and a file of the upload directory that is
    another file than each of those named holds what it held. *)
Theorem local_deleteMultiple_total (config : LocalStorageConfig)
    (filepaths : list string) (w : World) :
  ∃ results w1,
    LocalStorageStrategy.deleteMultiple config filepaths w = (Ok results, w1)
    ∧ length results = length filepaths
    ∧ tables w1 = tables w
    ∧ ∀ other,
        (∀ p, p ∈ filepaths →
              distinct_files (LocalStorageStrategy.getFullPath config other)
                             (LocalStorageStrategy.getFullPath config p)) →
        disk_lookup (LocalStorageStrategy.getFullPath config other) w1
        = disk_lookup (LocalStorageStrategy.getFullPath config other) w.
Proof.
  destruct (local_deleteMultiple_loop_total config filepaths [] w)
    as (rs & w1 & E & Hl & Ht & Hf).
  exists rs, w1. split; [exact E|]. split; [exact Hl|]. split; [exact Ht|].
  intros other Hother. apply Hf.
  intros (p & Heq & Hp)%list_elem_of_fmap.
  by destruct (Hother p Hp) as [Hne _].
Qed.

(** Of three files, two are deleted under names with [.] segments and a
    name is deleted that is not there: the third file is as it was. *)
Example local_deleteMultiple_sample :
  let w := set_disk (mkDisk [("uploads/a.txt", "1"); ("uploads/b.txt", "2");
                             ("uploads/c.txt", "3")] []) empty_world in
  (LocalStorageStrategy.deleteMultiple local_config
     ["./a.txt"; "ghost.txt"; "x/../b.txt"] w).1
  = Ok [mkFileDeleteResult true (Some "File deleted successfully");
        mkFileDeleteResult false (Some "File not found");
        mkFileDeleteResult true (Some "File deleted successfully")]
  ∧ entries (disk (LocalStorageStrategy.deleteMultiple local_config
                     ["./a.txt"; "ghost.txt"; "x/../b.txt"] w).2)
    = [("uploads/c.txt", "3")].
Proof. vm_compute. done. Qed.

Lemma fs_copyFile_spec src dest w :
  fs_copyFile src dest w
  = match disk_lookup src w with
    | None =>
        (Throw (Error ("ENOENT: no such file or directory, copyfile '"
                       +:+ src +:+ "' -> '" +:+ dest +:+ "'")), w)
    | Some body =>
        if bool_decide (dest ∈ denied (disk w))
        then (Throw (Error ("EACCES: permission denied, copyfile '"
                            +:+ src +:+ "' -> '" +:+ dest +:+ "'")), w)
        else if bool_decide (src = dest) then (Ok tt, w)
        else (Ok tt,
              set_disk (mkDisk (put_entry dest body (entries (disk w)))
                               (denied (disk w))) w)
    end.
Proof.
  unfold fs_copyFile, disk_lookup.
  by destruct (list_find_lookup src (entries (disk w)))
    as [[-> ->]|(i & v & -> & ->)].
Qed.

Lemma disk_lookup_put p q body w :
  disk_lookup q
    (set_disk (mkDisk (put_entry p body (entries (disk w)))
                      (denied (disk w))) w)
  = if decide (q = p) then Some body else disk_lookup q w.
Proof. unfold disk_lookup. simpl. apply entry_lookup_put. Qed.

(** What a copy that goes through leaves behind. *)
Lemma local_copy_ok config sourcePath destinationPath body w :
  disk_lookup (LocalStorageStrategy.getFullPath config sourcePath) w
  = Some body →
  LocalStorageStrategy.getFullPath config destinationPath ∉ denied (disk w) →
  ∃ w1,
    LocalStorageStrategy_copy config sourcePath destinationPath w
    = (Ok (mkFileUploadResult
             (LocalStorageStrategy.getFullPath config destinationPath)
             (Some (LocalStorageStrategy.getPublicUrl config destinationPath))
             None None (Z.of_nat (String.length body))
             "application/octet-stream"), w1)
    ∧ tables w1 = tables w
    ∧ denied (disk w1) = denied (disk w)
    ∧ ∀ q, disk_lookup q w1
           = if decide (q = LocalStorageStrategy.getFullPath config
                                destinationPath)
             then Some body else disk_lookup q w.
Proof.
  intros Hsrc Hd.
  unfold LocalStorageStrategy_copy, try_catch. cbv zeta.
  rewrite ensure_directory_bind. unfold bind at 1.
  rewrite fs_copyFile_spec, Hsrc, bool_decide_eq_false_2 by done.
  case_bool_decide as Hsame.
  - unfold bind at 1. rewrite fs_stat_size_spec, <- Hsame, Hsrc.
    eexists. split; [reflexivity|]. split_and!; try done.
    intros q. rewrite disk_lookup_log. case_decide; congruence.
  - unfold bind at 1. rewrite fs_stat_size_spec, disk_lookup_put.
    rewrite decide_True by done.
    eexists. split; [reflexivity|]. split_and!; try done.
    intros q. by rewrite disk_lookup_log, disk_lookup_put.
Qed.

(** X8. [copy] of a file that is there, to a place the system lets the
    process write: the destination then holds the content of the source, the
    source is kept, the reported size is that of the content, and the
    reported type is always [application/octet-stream]. *)
Theorem local_copy_duplicates (config : LocalStorageConfig)
    (sourcePath destinationPath body : string) (w : World) :
  disk_lookup (LocalStorageStrategy.getFullPath config sourcePath) w
  = Some body →
  LocalStorageStrategy.getFullPath config destinationPath ∉ denied (disk w) →
  ∃ result w1,
    LocalStorageStrategy_copy config sourcePath destinationPath w
    = (Ok result, w1)
    ∧ r_size result = Z.of_nat (String.length body)
    ∧ r_mimetype result = "application/octet-stream"
    ∧ LocalStorageStrategy_get config destinationPath w1 = (Ok body, w1)
    ∧ LocalStorageStrategy_get config sourcePath w1 = (Ok body, w1).
Proof.
  intros Hsrc Hd.
  destruct (local_copy_ok config sourcePath destinationPath body w Hsrc Hd)
    as (w1 & E & _ & _ & Hl).
  eexists _, w1. split; [exact E|]. split_and!; try done.
  - unfold LocalStorageStrategy_get, try_catch.
    rewrite fs_readFile_spec, Hl, decide_True by done. done.
  - unfold LocalStorageStrategy_get, try_catch.
    rewrite fs_readFile_spec, Hl. case_decide; by rewrite ?Hsrc.
Qed.

Lemma local_copy_duplicates_witness :
  ∃ result w1,
    LocalStorageStrategy_copy local_config "notes.txt" "copy.txt" notes_world
    = (Ok result, w1)
    ∧ r_size result = Z.of_nat (String.length "hello")
    ∧ r_mimetype result = "application/octet-stream"
    ∧ LocalStorageStrategy_get local_config "copy.txt" w1 = (Ok "hello", w1)
    ∧ LocalStorageStrategy_get local_config "notes.txt" w1 = (Ok "hello", w1).
Proof.
  apply (local_copy_duplicates local_config "notes.txt" "copy.txt" "hello"
           notes_world); by_evaluation.
Defined.

(** X9. [move] of a file that is there, when the system lets the process
    write the destination and remove the source: the source path is empty
    afterwards, and a destination that is another file than the source holds
    the content. *)
Theorem local_move_relocates (config : LocalStorageConfig)
    (sourcePath destinationPath body : string) (w : World) :
  disk_lookup (LocalStorageStrategy.getFullPath config sourcePath) w
  = Some body →
  LocalStorageStrategy.getFullPath config sourcePath ∉ denied (disk w) →
  LocalStorageStrategy.getFullPath config destinationPath ∉ denied (disk w) →
  ∃ result w1,
    LocalStorageStrategy_move config sourcePath destinationPath w
    = (Ok result, w1)
    ∧ r_path result = LocalStorageStrategy.getFullPath config destinationPath
    ∧ disk_lookup (LocalStorageStrategy.getFullPath config sourcePath) w1
      = None
    ∧ (distinct_files
         (LocalStorageStrategy.getFullPath config destinationPath)
         (LocalStorageStrategy.getFullPath config sourcePath) →
       disk_lookup (LocalStorageStrategy.getFullPath config destinationPath) w1
       = Some body).
Proof.
  intros Hsrc Hds Hdd.
  destruct (local_copy_ok config sourcePath destinationPath body w Hsrc Hdd)
    as (w1 & E & _ & Hden & Hl).
  unfold LocalStorageStrategy_move, try_catch.
  rewrite (bind_Ok _ _ _ _ _ E). unfold bind at 1.
  rewrite local_delete_spec.
  rewrite bool_decide_eq_true_2
    by (rewrite Hl; case_decide; rewrite ?Hsrc; by eexists).
  rewrite bool_decide_eq_false_2 by by rewrite Hden.
  eexists _, _. split; [reflexivity|]. split; [reflexivity|]. split.
  - rewrite disk_lookup_log, disk_lookup_unlink, decide_True by done. done.
  - intros [Hne _]. rewrite disk_lookup_log, disk_lookup_unlink.
    rewrite decide_False, Hl, decide_True by done. done.
Qed.

(** The notes are moved to another name. *)
Lemma local_move_relocates_witness :
  ∃ result w1,
    LocalStorageStrategy_move local_config "notes.txt" "archive/notes.txt"
      notes_world = (Ok result, w1)
    ∧ r_path result = "uploads/archive/notes.txt"
    ∧ disk_lookup "uploads/notes.txt" w1 = None
    ∧ disk_lookup "uploads/archive/notes.txt" w1 = Some "hello".
Proof.
  destruct (local_move_relocates local_config "notes.txt" "archive/notes.txt"
              "hello" notes_world) as (r & w1 & E & Hp & Hs & Hd);
    [reflexivity|by_evaluation|by_evaluation|].
  exists r, w1. split; [exact E|]. split; [exact Hp|]. split; [exact Hs|].
  apply Hd. by_evaluation.
Defined.

(** Moving a file onto itself, under whatever spelling of its name, loses
    it: nothing is copied and the source is removed. *)
Example local_move_onto_itself :
  (LocalStorageStrategy_move local_config "notes.txt" "./notes.txt"
     notes_world).1
  = Ok (mkFileUploadResult "uploads/notes.txt"
          (Some "http://localhost:3000/uploads/./notes.txt") None None 5
          "application/octet-stream")
  ∧ entries (disk (LocalStorageStrategy_move local_config "notes.txt"
                     "./notes.txt" notes_world).2) = [].
Proof. vm_compute. done. Qed.

(** X10. [move] reports success although the source could not be removed:
    the result of [delete] is not read, and both paths hold the content
    afterwards. *)
Theorem local_move_leaves_protected_source (config : LocalStorageConfig)
    (sourcePath destinationPath body : string) (w : World) :
  disk_lookup (LocalStorageStrategy.getFullPath config sourcePath) w
  = Some body →
  LocalStorageStrategy.getFullPath config sourcePath ∈ denied (disk w) →
  LocalStorageStrategy.getFullPath config destinationPath ∉ denied (disk w) →
  ∃ result w1,
    LocalStorageStrategy_move config sourcePath destinationPath w
    = (Ok result, w1)
    ∧ disk_lookup (LocalStorageStrategy.getFullPath config sourcePath) w1
      = Some body
    ∧ disk_lookup (LocalStorageStrategy.getFullPath config destinationPath) w1
      = Some body.
Proof.
  intros Hsrc Hds Hdd.
  destruct (local_copy_ok config sourcePath destinationPath body w Hsrc Hdd)
    as (w1 & E & _ & Hden & Hl).
  unfold LocalStorageStrategy_move, try_catch.
  rewrite (bind_Ok _ _ _ _ _ E). unfold bind at 1.
  rewrite local_delete_spec.
  rewrite bool_decide_eq_true_2
    by (rewrite Hl; case_decide; rewrite ?Hsrc; by eexists).
  rewrite bool_decide_eq_true_2 by by rewrite Hden.
  eexists _, _. split; [reflexivity|].
  rewrite !disk_lookup_log, !Hl. split.
  - case_decide; by rewrite ?Hsrc.
  - by rewrite decide_True.
Qed.

Lemma local_move_leaves_protected_source_witness :
  ∃ result w1,
    LocalStorageStrategy_move local_config "notes.txt" "moved.txt"
      readonly_world = (Ok result, w1)
    ∧ disk_lookup (LocalStorageStrategy.getFullPath local_config "notes.txt")
        w1 = Some "hello"
    ∧ disk_lookup (LocalStorageStrategy.getFullPath local_config "moved.txt")
        w1 = Some "hello".
Proof.
  apply (local_move_leaves_protected_source local_config "notes.txt"
           "moved.txt" "hello" readonly_world); by_evaluation.
Defined.

(** X11. When the copy fails, for a source that is not there or a
    destination the system refuses, [copy] and [move] throw and every file is
    as it was: nothing has been written and nothing removed. *)
Theorem local_move_failed_copy (config : LocalStorageConfig)
    (sourcePath destinationPath : string) (w : World) :
  disk_lookup (LocalStorageStrategy.getFullPath config sourcePath) w = None
  ∨ LocalStorageStrategy.getFullPath config destinationPath
    ∈ denied (disk w) →
  (∃ e w1, LocalStorageStrategy_copy config sourcePath destinationPath w
           = (Throw e, w1)
           ∧ tables w1 = tables w
           ∧ ∀ q, disk_lookup q w1 = disk_lookup q w)
  ∧ (∃ e w1, LocalStorageStrategy_move config sourcePath destinationPath w
             = (Throw e, w1)
             ∧ tables w1 = tables w
             ∧ ∀ q, disk_lookup q w1 = disk_lookup q w).
Proof.
  intros H.
  assert (∃ e w1, LocalStorageStrategy_copy config sourcePath destinationPath w
                  = (Throw e, w1)
                  ∧ tables w1 = tables w
                  ∧ ∀ q, disk_lookup q w1 = disk_lookup q w)
    as (e & w1 & E & Ht & Hw).
  { unfold LocalStorageStrategy_copy, try_catch. cbv zeta.
    rewrite ensure_directory_bind. unfold bind at 1.
    rewrite fs_copyFile_spec.
    destruct (disk_lookup _ w) as [body|] eqn:Hsrc.
    - destruct H as [?|Hd]; [done|].
      rewrite bool_decide_eq_true_2 by done. by eexists _, _.
    - by eexists _, _. }
  split; [by eauto|].
  unfold LocalStorageStrategy_move, try_catch, bind at 1. rewrite E.
  eexists _, _. split; [reflexivity|]. split; [exact Ht|]. exact Hw.
Qed.

Lemma local_move_failed_copy_witness :
  (∃ e w1, LocalStorageStrategy_copy local_config "absent.txt" "moved.txt"
             notes_world = (Throw e, w1)
           ∧ tables w1 = tables notes_world
           ∧ ∀ q, disk_lookup q w1 = disk_lookup q notes_world)
  ∧ (∃ e w1, LocalStorageStrategy_move local_config "absent.txt" "moved.txt"
               notes_world = (Throw e, w1)
             ∧ tables w1 = tables notes_world
             ∧ ∀ q, disk_lookup q w1 = disk_lookup q notes_world).
Proof.
  apply (local_move_failed_copy local_config "absent.txt" "moved.txt"
           notes_world).
  left. reflexivity.
Defined.





(** ** The object store *)

Lemma send_GetObject_spec client bucket key w :
  send_GetObject client bucket key w
  = match outage (store client w) with
    | Some msg => (Throw (ServiceException "NetworkingError" msg), w)
    | None =>
        match object_lookup client bucket key w with
        | Some body => (Ok body, w)
        | None => (Throw (ServiceException "NoSuchKey"
                            "The specified key does not exist."), w)
        end
    end.
Proof.
  unfold send_GetObject, object_lookup.
  destruct (outage (store client w)); [done|].
  by destruct (list_find_lookup (bucket, key) (objects (store client w)))
    as [[-> ->]|(i & v & -> & ->)].
Qed.

Lemma send_HeadObject_spec client bucket key w :
  send_HeadObject client bucket key w
  = match outage (store client w) with
    | Some msg => (Throw (ServiceException "NetworkingError" msg), w)
    | None =>
        match object_lookup client bucket key w with
        | Some body => (Ok (Z.of_nat (String.length body)), w)
        | None => (Throw (ServiceException "NotFound" "NotFound"), w)
        end
    end.
Proof.
  unfold send_HeadObject, object_lookup.
  destruct (outage (store client w)); [done|].
  by destruct (list_find_lookup (bucket, key) (objects (store client w)))
    as [[-> ->]|(i & v & -> & ->)].
Qed.

Lemma s3_get_spec client config key w :
  outage (store client w) = None →
  AWSS3Strategy_get client config key w
  = match object_lookup client (bucket config) key w with
    | Some body => (Ok body, w)
    | None =>
        (Throw (ServiceException "NoSuchKey"
                  "The specified key does not exist."),
         set_log (log w ++ ["ERROR " +:+ ("S3 get file failed for " +:+ key
                    +:+ ": " +:+ "The specified key does not exist.")]) w)
    end.
Proof.
  intros Hup. unfold AWSS3Strategy_get, try_catch.
  rewrite send_GetObject_spec, Hup.
  by destruct (object_lookup client (bucket config) key w).
Qed.

Lemma s3_exists_spec client config key w :
  outage (store client w) = None →
  AWSS3Strategy.exists_ client config key w
  = (Ok (bool_decide (is_Some (object_lookup client (bucket config) key w))),
     w).
Proof.
  intros Hup. unfold AWSS3Strategy.exists_, try_catch, bind.
  rewrite send_HeadObject_spec, Hup.
  destruct (object_lookup client (bucket config) key w).
  - by rewrite bool_decide_eq_true_2 by by eexists.
  - rewrite bool_decide_eq_false_2; [done|]. by intros [? ?].
Qed.

(** X13. While the store answers, [exists] and [get] agree: [exists] never
    throws, and it answers [true] exactly for the keys [get] returns a body
    for. *)
Theorem s3_exists_agrees_with_get (client : S3Client) (config : AWSS3Config)
    (key : string) (w : World) :
  outage (store client w) = None →
  ∃ found,
    AWSS3Strategy.exists_ client config key w = (Ok found, w)
    ∧ (found = true
       ↔ ∃ body, AWSS3Strategy_get client config key w = (Ok body, w)).
Proof.
  intros Hup. rewrite s3_exists_spec, s3_get_spec by done.
  eexists. split; [reflexivity|].
  rewrite bool_decide_eq_true.
  destruct (object_lookup client (bucket config) key w) as [body|].
  - split; [by eexists|by eexists].
  - split; [by intros [? ?]|by intros [? ?]].
Qed.

Lemma s3_exists_agrees_with_get_witness :
  ∃ found,
    AWSS3Strategy.exists_ aws_client s3_config "logo.png" bucket_world
    = (Ok found, bucket_world)
    ∧ (found = true
       ↔ ∃ body, AWSS3Strategy_get aws_client s3_config "logo.png"
                   bucket_world = (Ok body, bucket_world)).
Proof.
  apply (s3_exists_agrees_with_get aws_client s3_config "logo.png"
           bucket_world).
  reflexivity.
Defined.

Lemma object_lookup_put client bucket key body b k w :
  endpoint_client client →
  object_lookup client b k
    (with_objects client
       (filter (fun o => o.1 ≠ (bucket, key)) (objects (store client w))
        ++ [((bucket, key), body)]) w)
  = if decide ((b, k) = (bucket, key)) then Some body
    else object_lookup client b k w.
Proof.
  intros [-> | ->]; unfold object_lookup, with_objects;
    cbn [store set_store aws_client spaces_client set_aws set_spaces aws
         spaces objects];
    rewrite entry_lookup_app, entry_lookup_remove;
    cbn [entry_lookup]; case_decide as Hq; try done.
  - by rewrite decide_True.
  - rewrite decide_False by done. by destruct (entry_lookup _ _).
  - by rewrite decide_True.
  - rewrite decide_False by done. by destruct (entry_lookup _ _).
Qed.

Lemma object_lookup_remove client bucket key b k w :
  endpoint_client client →
  object_lookup client b k
    (with_objects client
       (filter (fun o => o.1 ≠ (bucket, key)) (objects (store client w))) w)
  = if decide ((b, k) = (bucket, key)) then None
    else object_lookup client b k w.
Proof.
  intros [-> | ->]; unfold object_lookup, with_objects;
    cbn [store set_store aws_client spaces_client set_aws set_spaces aws
         spaces objects];
    by rewrite entry_lookup_remove.
Qed.

Lemma outage_with_objects client os w :
  endpoint_client client →
  outage (store client (with_objects client os w)) = outage (store client w).
Proof. by intros [-> | ->]. Qed.

Lemma store_log client l w :
  endpoint_client client → store client (set_log l w) = store client w.
Proof. by intros [-> | ->]. Qed.

Lemma object_lookup_log client b k l w :
  endpoint_client client →
  object_lookup client b k (set_log l w) = object_lookup client b k w.
Proof. by intros [-> | ->]. Qed.

(** X14. While the store answers, [upload] succeeds and what it has put is
    what [get] returns for the same key; the result names the key and the
    bucket, carries the length of the buffer, and has a URL exactly under
    the ACL [public-read]. *)
Theorem s3_upload_then_get (client : S3Client) (config : AWSS3Config)
    (getPublicUrl : string → string) (file : Upload) (filename : string)
    (w : World) :
  endpoint_client client →
  outage (store client w) = None →
  ∃ result w1,
    AWSS3Strategy.upload client config getPublicUrl file filename w
    = (Ok result, w1)
    ∧ r_key result = Some filename
    ∧ r_bucket result = Some (bucket config)
    ∧ r_size result = Z.of_nat (String.length (buffer_of file))
    ∧ r_url result
      = (if String.eqb (or_else (acl config) "private") "public-read"
         then Some (getPublicUrl filename) else None)
    ∧ AWSS3Strategy_get client config filename w1 = (Ok (buffer_of file), w1)
    ∧ AWSS3Strategy.exists_ client config filename w1 = (Ok true, w1).
Proof.
  intros Hc Hup.
  unfold AWSS3Strategy.upload, try_catch, bind at 1, send_PutObject.
  rewrite Hup. eexists _, _. split; [reflexivity|].
  split_and!; try reflexivity.
  - rewrite s3_get_spec by (by rewrite store_log, outage_with_objects).
    by rewrite object_lookup_log, object_lookup_put, decide_True.
  - rewrite s3_exists_spec by (by rewrite store_log, outage_with_objects).
    rewrite object_lookup_log, object_lookup_put, decide_True by done.
    by rewrite bool_decide_eq_true_2 by by eexists.
Qed.

Lemma s3_upload_then_get_witness :
  ∃ result w1,
    AWSS3Strategy.upload aws_client s3_config
      (AWSS3Strategy.getPublicUrl s3_config) (IsFile report_pdf) "report.pdf"
      bucket_world = (Ok result, w1)
    ∧ r_key result = Some "report.pdf"
    ∧ r_bucket result = Some (bucket s3_config)
    ∧ r_size result = Z.of_nat (String.length (buffer_of (IsFile report_pdf)))
    ∧ r_url result
      = (if String.eqb (or_else (acl s3_config) "private") "public-read"
         then Some (AWSS3Strategy.getPublicUrl s3_config "report.pdf")
         else None)
    ∧ AWSS3Strategy_get aws_client s3_config "report.pdf" w1
      = (Ok (buffer_of (IsFile report_pdf)), w1)
    ∧ AWSS3Strategy.exists_ aws_client s3_config "report.pdf" w1
      = (Ok true, w1).
Proof.
  apply (s3_upload_then_get aws_client s3_config
           (AWSS3Strategy.getPublicUrl s3_config) (IsFile report_pdf)
           "report.pdf" bucket_world).
  - left. reflexivity.
  - reflexivity.
Defined.

(** X15. During an outage [upload], [get] and [exists] throw the error of
    the client, [exists] included (it answers [false] only for the error
    named [NotFound]), while [delete] swallows the error and answers
    [success = false] with its message; none of them changes the store. *)
Theorem s3_outage (client : S3Client) (config : AWSS3Config)
    (getPublicUrl : string → string) (file : Upload) (key msg : string)
    (w : World) :
  endpoint_client client →
  outage (store client w) = Some msg →
  (∃ w1, AWSS3Strategy.upload client config getPublicUrl file key w
         = (Throw (ServiceException "NetworkingError" msg), w1)
         ∧ store client w1 = store client w)
  ∧ (∃ w1, AWSS3Strategy_get client config key w
           = (Throw (ServiceException "NetworkingError" msg), w1)
           ∧ store client w1 = store client w)
  ∧ AWSS3Strategy.exists_ client config key w
    = (Throw (ServiceException "NetworkingError" msg), w)
  ∧ (∃ w1, AWSS3Strategy.delete client config key w
           = (Ok (mkFileDeleteResult false (Some msg)), w1)
           ∧ store client w1 = store client w).
Proof.
  intros Hc Hout. split_and!.
  - unfold AWSS3Strategy.upload, try_catch, bind at 1, send_PutObject.
    rewrite Hout. eexists. split; [reflexivity|]. by rewrite store_log.
  - unfold AWSS3Strategy_get, try_catch. rewrite send_GetObject_spec, Hout.
    eexists. split; [reflexivity|]. by rewrite store_log.
  - unfold AWSS3Strategy.exists_, try_catch, bind.
    by rewrite send_HeadObject_spec, Hout.
  - unfold AWSS3Strategy.delete, try_catch, bind at 1, send_DeleteObject.
    rewrite Hout. eexists. split; [reflexivity|]. by rewrite store_log.
Qed.

Lemma s3_outage_witness :
  (∃ w1, AWSS3Strategy.upload aws_client s3_config
           (AWSS3Strategy.getPublicUrl s3_config) (IsFile report_pdf)
           "logo.png" outage_world
         = (Throw (ServiceException "NetworkingError" "connect ETIMEDOUT"), w1)
         ∧ store aws_client w1 = store aws_client outage_world)
  ∧ (∃ w1, AWSS3Strategy_get aws_client s3_config "logo.png" outage_world
           = (Throw (ServiceException "NetworkingError" "connect ETIMEDOUT"),
              w1)
           ∧ store aws_client w1 = store aws_client outage_world)
  ∧ AWSS3Strategy.exists_ aws_client s3_config "logo.png" outage_world
    = (Throw (ServiceException "NetworkingError" "connect ETIMEDOUT"),
       outage_world)
  ∧ (∃ w1, AWSS3Strategy.delete aws_client s3_config "logo.png" outage_world
           = (Ok (mkFileDeleteResult false (Some "connect ETIMEDOUT")), w1)
           ∧ store aws_client w1 = store aws_client outage_world).
Proof.
  apply (s3_outage aws_client s3_config (AWSS3Strategy.getPublicUrl s3_config)
           (IsFile report_pdf) "logo.png" "connect ETIMEDOUT" outage_world).
  - left. reflexivity.
  - reflexivity.
Defined.

(** X16. While the store answers and does not protect the key, [delete]
    answers [success], the key is gone afterwards whether or not it held an
    object, and every other object is as it was. *)
Theorem s3_delete_then_exists (client : S3Client) (config : AWSS3Config)
    (key : string) (w : World) :
  endpoint_client client →
  outage (store client w) = None →
  key ∉ locked (store client w) →
  ∃ w1,
    AWSS3Strategy.delete client config key w
    = (Ok (mkFileDeleteResult true (Some "File deleted successfully")), w1)
    ∧ AWSS3Strategy.exists_ client config key w1 = (Ok false, w1)
    ∧ ∀ b k, (b, k) ≠ (bucket config, key) →
             object_lookup client b k w1 = object_lookup client b k w.
Proof.
  intros Hc Hup Hl.
  unfold AWSS3Strategy.delete, try_catch, bind at 1, send_DeleteObject.
  rewrite Hup, bool_decide_eq_false_2 by done.
  eexists. split; [reflexivity|]. split.
  - rewrite s3_exists_spec by (by rewrite store_log, outage_with_objects).
    rewrite object_lookup_log, object_lookup_remove, decide_True by done.
    rewrite bool_decide_eq_false_2; [done|]. by intros [? ?].
  - intros b k Hne.
    by rewrite object_lookup_log, object_lookup_remove, decide_False.
Qed.

Lemma s3_delete_then_exists_witness :
  ∃ w1,
    AWSS3Strategy.delete aws_client s3_config "logo.png" bucket_world
    = (Ok (mkFileDeleteResult true (Some "File deleted successfully")), w1)
    ∧ AWSS3Strategy.exists_ aws_client s3_config "logo.png" w1 = (Ok false, w1)
    ∧ ∀ b k, (b, k) ≠ (bucket s3_config, "logo.png") →
             object_lookup aws_client b k w1
             = object_lookup aws_client b k bucket_world.
Proof.
  apply (s3_delete_then_exists aws_client s3_config "logo.png" bucket_world).
  - left. reflexivity.
  - reflexivity.
  - by_evaluation.
Defined.

(** ** The file service *)

(** X17. Whatever goes wrong in [uploadFile], the folder that is not found
    included, the caller sees a [StorageOperationException] of the operation
    [upload]: no other exception leaves the method. *)
Theorem uploadFile_throws_wrapped (strategies : StrategyMap)
    (file : MulterFile) (uploadDto : FileUploadDto) (w : World) (e : Exn) :
  (FileService.uploadFile strategies file uploadDto w).1 = Throw e →
  ∃ cause, e = StorageOperationException "upload" cause.
Proof.
  unfold FileService.uploadFile, try_catch.
  match goal with
  | |- context [match ?body w with _ => _ end] =>
      destruct (body w) as [[saved|cause|] w1]
  end; simpl; try discriminate.
  intros [= <-]. by eexists.
Qed.

Lemma uploadFile_throws_wrapped_witness :
  ∃ cause,
    StorageOperationException "upload"
      "Folder with ID 3f2b8c1e-7d4a-4b6f-9a1c-5e8d2f0b7a63 not found"
    = StorageOperationException "upload" cause.
Proof.
  apply (uploadFile_throws_wrapped both_backends report_pdf
           (mkFileUploadDto None (Some "3f2b8c1e-7d4a-4b6f-9a1c-5e8d2f0b7a63")
                            None None None None None None)
           empty_world).
  vm_compute. reflexivity.
Defined.

Lemma list_find_none {A} (P : A → Prop) `{∀ x, Decision (P x)} (l : list A) :
  Forall (fun x => ¬ P x) l → list_find P l = None.
Proof. intros H'. by apply list_find_None. Qed.

(** The three answers of the lookup of a file. *)
Lemma file_findOne_cases id wd w :
  (uuid_for (File.id <$> files w) id = false
   ∧ fileRepository.findOne id wd w = (Throw (uuid_syntax_error id), w))
  ∨ fileRepository.findOne id wd w = (Ok None, w)
  ∨ ∃ file, fileRepository.findOne id wd w = (Ok (Some file), w).
Proof.
  rewrite file_findOne_eq. destruct (uuid_for _ _); [|by left].
  right. destruct (snd <$> list_find _ (files w)); eauto.
Qed.

(** X18. The outcomes of [hardDelete], case by case.  An [id] that is no
    [uuid] makes the lookup, which stands before the [try], throw the error
    of the database as it is; an [id] without a row throws
    [FileNotFoundException]; both leave the world as it was.  Once the row is
    found the call throws exactly when the back-end of the row is not
    registered or its [delete] throws, and what it throws is a
    [StorageOperationException] of the operation [hard delete] with the
    message of the cause; when [delete] returns, whatever it answers, the
    call returns. *)
Theorem hardDelete_throws (strategies : StrategyMap) (id : string)
    (w : World) :
  match fileRepository.findOne id true w with
  | (Throw e, _) =>
      e = uuid_syntax_error id
      ∧ FileService.hardDelete strategies id w = (Throw e, w)
  | (Ok None, _) =>
      FileService.hardDelete strategies id w
      = (Throw (FileNotFoundException id), w)
  | (Ok (Some file), _) =>
      match map_get (File.storageType file) strategies with
      | None =>
          ∃ cause w1,
            FileService.hardDelete strategies id w
            = (Throw (StorageOperationException "hard delete" cause), w1)
            ∧ state w1 = state w
      | Some s =>
          match delete s (or_else (File.storageKey file) (File.path file)) w
          with
          | (Ok _, _) =>
              ∃ w1, FileService.hardDelete strategies id w = (Ok tt, w1)
          | (Throw e, w0) =>
              ∃ w1,
                FileService.hardDelete strategies id w
                = (Throw (StorageOperationException "hard delete"
                            (message e)), w1)
                ∧ state w1 = state w0
          | (Unfinished, w0) =>
              FileService.hardDelete strategies id w = (Unfinished, w0)
          end
      end
  | (Unfinished, _) => False
  end.
Proof.
  destruct (file_findOne_cases id true w) as [[_ E]|[E|[file E]]];
    rewrite E.
  - split; [done|]. unfold FileService.hardDelete, bind at 1. by rewrite E.
  - unfold FileService.hardDelete, bind at 1. by rewrite E.
  - assert (Hf : (fileRepository.findOne id true w).1 = Ok (Some file))
      by by rewrite E.
    destruct (map_get (File.storageType file) strategies) as [s|] eqn:Hs.
    + destruct (delete s _ w) as [[r|e|] w0] eqn:Hd.
      * destruct (hardDelete_ignores_delete_result strategies w id file s r
                    w0 Hf Hs Hd) as (w1 & Hr & _).
        by exists w1.
      * destruct (hardDelete_keeps_row_on_throw strategies w id file Hf)
          as [_ H].
        rewrite (H s e w0 Hs Hd). by eexists.
      * unfold FileService.hardDelete. rewrite (bind_Ok _ _ _ _ _ E).
        unfold try_catch, bind, StorageFactory.getStrategy. rewrite Hs.
        unfold ret at 1. by rewrite Hd.
    + destruct (hardDelete_keeps_row_on_throw strategies w id file Hf)
        as [H _].
      destruct (H Hs) as [m Hm]. rewrite Hm. by eexists _, _.
Qed.

(** An id that is no [uuid], an id without a row, and a row whose back-end
    is out of the registry. *)
Example hardDelete_throws_sample :
  (∃ cause,
     (FileService.hardDelete both_backends "ghost" empty_world).1
     = Throw (QueryFailedError cause))
  ∧ (FileService.hardDelete both_backends
       "3f2b8c1e-7d4a-4b6f-9a1c-5e8d2f0b7a63" empty_world).1
    = Throw (FileNotFoundException "3f2b8c1e-7d4a-4b6f-9a1c-5e8d2f0b7a63")
  ∧ (FileService.hardDelete s3_only "file-1" uploaded_world).1
    = Throw (StorageOperationException "hard delete"
        "Storage strategy not found for type: local. Make sure it's configured in the module.").
Proof. split_and!; [eexists|..]; vm_compute; reflexivity. Qed.

(** X19. The outcomes of [softDelete], case by case.  An [id] that is no
    [uuid] throws the error of the database, an [id] without a live row
    throws [FileNotFoundException], both leaving the world as it was, and
    every other call returns.  A row that is already soft-deleted is not
    found, so [FileAlreadyDeletedException] is never thrown. *)
Theorem softDelete_throws (id : string) (deletedBy : option string)
    (w : World) :
  match fileRepository.findOne id false w with
  | (Throw e, _) =>
      e = uuid_syntax_error id
      ∧ FileService.softDelete id deletedBy w = (Throw e, w)
  | (Ok None, _) =>
      FileService.softDelete id deletedBy w
      = (Throw (FileNotFoundException id), w)
  | (Ok (Some file), _) =>
      ∃ w1, FileService.softDelete id deletedBy w
            = (Ok (if truthy deletedBy
                   then File.with_deletedBy deletedBy file else file), w1)
  | (Unfinished, _) => False
  end.
Proof.
  destruct (file_findOne_cases id false w) as [[_ E]|[E|[file E]]];
    rewrite E.
  - split; [done|].
    unfold FileService.softDelete, FileService.findById, bind.
    by rewrite E.
  - unfold FileService.softDelete, FileService.findById, bind. by rewrite E.
  - rewrite (file_softDelete_spec w id deletedBy file) by by rewrite E.
    by eexists.
Qed.

(** A file that is soft-deleted twice: the second call does not find it. *)
Example softDelete_throws_sample :
  (∃ f, (FileService.softDelete "file-2" (Some "admin") stocked_world).1
        = Ok f)
  ∧ FileService.softDelete "file-2" (Some "admin") restocked_world
    = (Throw (FileNotFoundException "file-2"), restocked_world)
  ∧ ∃ cause,
      FileService.softDelete "ghost" None restocked_world
      = (Throw (QueryFailedError cause), restocked_world).
Proof. split_and!; [eexists| |eexists]; vm_compute; reflexivity. Qed.

Lemma file_ids_fmap (g : File.t → File.t) (fs : list File.t) :
  (∀ f, File.id (g f) = File.id f) →
  File.id <$> (g <$> fs) = File.id <$> fs.
Proof.
  intros Hg. rewrite <- list_fmap_compose. apply list_fmap_ext.
  intros i f _. apply Hg.
Qed.

Lemma file_ids_stamp id (t : option Date) (fs : list File.t) :
  File.id <$> ((fun f => if decide (File.id f = id)
                         then File.with_deletedAt t f else f) <$> fs)
  = File.id <$> fs.
Proof. apply file_ids_fmap. intros f. by case_decide. Qed.

(** A lookup that answers was asked for a [uuid]. *)
Lemma file_findOne_Ok id wd w o :
  (fileRepository.findOne id wd w).1 = Ok o →
  uuid_for (File.id <$> files w) id = true.
Proof.
  rewrite file_findOne_eq. by destruct (uuid_for _ _).
Qed.

(** What [softDelete] needs to return: a live row of that id. *)
Lemma file_softDelete_Ok_inv id by_ w file w1 :
  FileService.softDelete id by_ w = (Ok file, w1) →
  ∃ found, fileRepository.findOne id false w = (Ok (Some found), w).
Proof.
  intros H.
  destruct (file_findOne_cases id false w) as [[_ E]|[E|[found E]]];
    [| |by eauto];
    unfold FileService.softDelete, FileService.findById, bind in H;
    rewrite E in H; discriminate.
Qed.

Lemma file_findOne_hidden id l w :
  uuid_for (File.id <$> files w) id = true →
  fileRepository.findOne id false
    (set_log l
       (set_files
          ((fun f => if decide (File.id f = id)
                     then File.with_deletedAt (Some (now w)) f else f)
             <$> files w) w))
  = (Ok None,
     set_log l
       (set_files
          ((fun f => if decide (File.id f = id)
                     then File.with_deletedAt (Some (now w)) f else f)
             <$> files w) w)).
Proof.
  intros Hu. rewrite file_findOne_eq. cbn [files set_log set_files].
  rewrite file_ids_stamp, Hu. f_equal. f_equal.
  rewrite list_find_none; [done|].
  apply Forall_fmap, Forall_forall. intros f _. simpl.
  case_decide as Hid; [|tauto]. intros [_ Hvis]. done.
Qed.

(** X20. A file that has just been soft-deleted cannot be soft-deleted
    again: the second call throws [FileNotFoundException] and changes
    nothing. *)
Theorem softDelete_twice (id : string) (deletedBy again : option string)
    (w w1 : World) (file : File.t) :
  FileService.softDelete id deletedBy w = (Ok file, w1) →
  FileService.softDelete id again w1
  = (Throw (FileNotFoundException id), w1).
Proof.
  intros H.
  destruct (file_softDelete_Ok_inv _ _ _ _ _ H) as [found E].
  assert (Hfound : (fileRepository.findOne id false w).1 = Ok (Some found))
    by by rewrite E.
  rewrite (file_softDelete_spec w id deletedBy found Hfound) in H.
  injection H as _ <-.
  unfold FileService.softDelete, FileService.findById, bind.
  by rewrite (file_findOne_hidden _ _ _ (file_findOne_Ok _ _ _ _ Hfound)).
Qed.

Lemma softDelete_twice_witness :
  FileService.softDelete "f1" None
    (FileService.softDelete "f1" (Some "admin") docs_world).2
  = (Throw (FileNotFoundException "f1"),
     (FileService.softDelete "f1" (Some "admin") docs_world).2).
Proof.
  apply (softDelete_twice "f1" (Some "admin") None docs_world _
           (File.with_deletedBy (Some "admin")
              (file_in "f1" (Some "docs") 1000 None))).
  reflexivity.
Defined.

Lemma file_row_by_id (fs : list File.t) f g :
  NoDup (File.id <$> fs) → f ∈ fs → g ∈ fs → File.id f = File.id g → f = g.
Proof.
  intros Hnd Hf Hg Heq.
  apply list_elem_of_lookup in Hf as [i Hi].
  apply list_elem_of_lookup in Hg as [j Hj].
  assert (i = j) as ->; [|congruence].
  eapply NoDup_lookup; [exact Hnd| |]; rewrite list_lookup_fmap.
  - by rewrite Hi.
  - rewrite Hj. simpl. by rewrite Heq.
Qed.

Lemma file_stamp_undo (fs : list File.t) id t file :
  NoDup (File.id <$> fs) → file ∈ fs → File.id file = id →
  File.deletedAt file = None →
  (fun f => if decide (File.id f = id) then File.with_deletedAt None f else f)
    <$> ((fun f => if decide (File.id f = id)
                   then File.with_deletedAt (Some t) f else f) <$> fs)
  = fs.
Proof.
  intros Hnd Hin Hid Hlive.
  rewrite <- list_fmap_compose. rewrite <- (list_fmap_id fs) at 2.
  apply list_fmap_ext. intros i f Hf. simpl.
  apply list_elem_of_lookup_2 in Hf.
  destruct (decide (File.id f = id)) as [Hf_id|Hne]; simpl.
  - rewrite decide_True by done.
    assert (f = file) as -> by (eapply file_row_by_id; eauto; congruence).
    destruct file. simpl in *. by subst.
  - by rewrite decide_False.
Qed.

Lemma file_findOne_files id wd w w' :
  files w' = files w →
  (fileRepository.findOne id wd w').1 = (fileRepository.findOne id wd w).1.
Proof. rewrite !file_findOne_eq. simpl. by intros ->. Qed.

(** X21. Soft delete, then restore: when the ids of the table are distinct,
    [restore] succeeds, the table of files is what it was before the two
    calls, and the row returned is the row as it then was, without the
    deleter the soft delete was given. *)
Theorem softDelete_then_restore (id : string) (deletedBy : option string)
    (w w1 : World) (file : File.t) :
  NoDup (File.id <$> files w) →
  FileService.softDelete id deletedBy w = (Ok file, w1) →
  ∃ row w2,
    FileService.restore id w1 = (Ok row, w2)
    ∧ files w2 = files w
    ∧ FileService.findById id false w = (Ok row, w).
Proof.
  intros Hnd H.
  destruct (file_softDelete_Ok_inv _ _ _ _ _ H) as [found E].
  assert (Hfound : (fileRepository.findOne id false w).1 = Ok (Some found))
    by by rewrite E.
  pose proof (file_findOne_Ok _ _ _ _ Hfound) as Hu.
  rewrite (file_softDelete_spec w id deletedBy found Hfound) in H.
  injection H as _ <-.
  destruct (file_findOne_Some _ _ _ _ Hfound) as (Hin & Hid & Hvis).
  apply bool_decide_eq_true in Hvis.
  set (w1 := set_log _ _).
  assert (fileRepository.findOne id true w1
          = (Ok (snd <$> list_find
                   (fun f => File.id f = id
                             ∧ visible true (File.deletedAt f) = true)
                   (files w1)), w1)) as E1.
  { rewrite file_findOne_eq. subst w1. cbn [files set_log set_files].
    by rewrite file_ids_stamp, Hu. }
  destruct (snd <$> list_find _ (files w1)) as [r|] eqn:Efind.
  - assert (Hr : (fileRepository.findOne id true w1).1 = Ok (Some r))
      by by rewrite E1.
    destruct (file_findOne_Some _ _ _ _ Hr) as (Hrin & Hrid & _).
    subst w1. cbn [files set_log set_files] in Hrin.
    apply list_elem_of_fmap in Hrin as (x & -> & Hx).
    assert (File.id x = id) as Hxid.
    { revert Hrid. case_decide; [done|]. by intros ?. }
    rewrite decide_True in E1 by done.
    unfold FileService.restore, bind at 1. rewrite E1.
    rewrite bool_decide_eq_false_2 by done.
    unfold bind at 1, fileRepository.restore, modify.
    cbn [files set_log set_files now].
    rewrite (file_stamp_undo (files w) id (now w) found) by done.
    match goal with
    | |- context [bind (FileService.findById id false) _ ?w'] =>
        assert (Hback : FileService.findById id false w' = (Ok found, w'))
    end.
    { apply file_findById_found.
      by rewrite (file_findOne_files id false w). }
    rewrite (bind_Ok _ _ _ _ _ Hback).
    eexists _, _. split; [reflexivity|]. split; [done|].
    by apply file_findById_found.
  - exfalso. clear E1.
    apply fmap_None, list_find_None in Efind.
    subst w1. cbn [files set_log set_files] in Efind.
    rewrite Forall_fmap, Forall_forall in Efind.
    apply (Efind found Hin). simpl. by rewrite decide_True.
Qed.

Lemma softDelete_then_restore_witness :
  ∃ row w2,
    FileService.restore "f1"
      (FileService.softDelete "f1" (Some "admin") docs_world).2
    = (Ok row, w2)
    ∧ files w2 = files docs_world
    ∧ FileService.findById "f1" false docs_world = (Ok row, docs_world).
Proof.
  apply (softDelete_then_restore "f1" (Some "admin") docs_world _
           (File.with_deletedBy (Some "admin")
              (file_in "f1" (Some "docs") 1000 None))).
  - by_evaluation.
  - reflexivity.
Defined.

(** ** Bulk operations *)

Lemma bulk_loop_returns {A} (op : string → M A) (fileIds : list string) :
  (∀ id w, (op id w).1 ≠ Unfinished) →
  ∀ r0 w,
    ∃ r w1 done_ failed_,
      bulk_loop op fileIds r0 w = (Ok r, w1)
      ∧ successful r = successful r0 ++ done_
      ∧ failed r = failed r0 ++ failed_
      ∧ total r = total r0
      ∧ successCount r = (successCount r0 + length done_)%nat
      ∧ failureCount r = (failureCount r0 + length failed_)%nat
      ∧ done_ ++ failed_.*1 ≡ₚ fileIds.
Proof.
  intros Hop. induction fileIds as [|id ids IH]; intros r0 w.
  - exists r0, w, [], []. simpl. rewrite !app_nil_r, !Nat.add_0_r. done.
  - cbn [bulk_loop]. unfold bind at 1, try_catch, bind at 1.
    specialize (Hop id w).
    destruct (op id w) as [[a|e|] w0]; [| |done]; cbn [ret].
    + match goal with
      | |- context [bulk_loop op ids ?r' w0] =>
          destruct (IH r' w0) as (r & w1 & d & f & E & Hs & Hf & Ht & Hsc
                                  & Hfc & Hp)
      end.
      cbn [successful failed total successCount failureCount] in *.
      exists r, w1, (id :: d), f. rewrite E, Hs, Hf, Ht, Hsc, Hfc.
      rewrite <- app_assoc. simpl. split_and!; try done; try lia.
      by rewrite Hp.
    + match goal with
      | |- context [bulk_loop op ids ?r' w0] =>
          destruct (IH r' w0) as (r & w1 & d & f & E & Hs & Hf & Ht & Hsc
                                  & Hfc & Hp)
      end.
      cbn [successful failed total successCount failureCount] in *.
      exists r, w1, d, ((id, message e) :: f).
      rewrite E, Hs, Hf, Ht, Hsc, Hfc.
      rewrite <- app_assoc. simpl. split_and!; try done; try lia.
      rewrite <- Hp. by rewrite Permutation_middle.
Qed.

Lemma bulk_loop_accounts {A} (op : string → M A) (fileIds : list string) w :
  (∀ id w, (op id w).1 ≠ Unfinished) →
  ∃ r w1, bulk_loop op fileIds (bulk_start fileIds) w = (Ok r, w1)
          ∧ accounts_for fileIds r.
Proof.
  intros Hop.
  destruct (bulk_loop_returns op fileIds Hop (bulk_start fileIds) w)
    as (r & w1 & d & f & E & Hs & Hf & Ht & Hsc & Hfc & Hp).
  exists r, w1. split; [done|]. simpl in *.
  unfold accounts_for. rewrite Hs, Hf, Ht, Hsc, Hfc. done.
Qed.

Lemma file_softDelete_cases id by_ w :
  (∃ found,
     (fileRepository.findOne id false w).1 = Ok (Some found)
     ∧ FileService.softDelete id by_ w
       = (Ok (if truthy by_ then File.with_deletedBy by_ found else found),
          set_log (log w ++ ["LOG " +:+ ("File soft deleted: " +:+ id)])
            (set_files
               ((fun f => if decide (File.id f = id)
                          then File.with_deletedAt (Some (now w)) f else f)
                  <$> files w) w)))
  ∨ (∃ e, FileService.softDelete id by_ w = (Throw e, w)).
Proof.
  destruct (file_findOne_cases id false w) as [[_ E]|[E|[found E]]].
  - right. eexists.
    unfold FileService.softDelete, FileService.findById, bind. by rewrite E.
  - right. eexists.
    unfold FileService.softDelete, FileService.findById, bind. by rewrite E.
  - left. exists found. split; [by rewrite E|].
    apply file_softDelete_spec. by rewrite E.
Qed.

Lemma file_restore_finishes id w : (FileService.restore id w).1 ≠ Unfinished.
Proof.
  unfold FileService.restore, bind at 1.
  destruct (file_findOne_cases id true w) as [[_ ->]|[->|[file ->]]];
    [done..|].
  case_bool_decide; [done|].
  unfold bind at 1, fileRepository.restore, modify.
  unfold bind at 1, FileService.findById, bind at 1.
  match goal with
  | |- context [fileRepository.findOne id false ?w'] =>
      destruct (file_findOne_cases id false w') as [[_ ->]|[->|[row ->]]]
  end; done.
Qed.

Lemma file_updateMetadata_finishes id updates w :
  (FileService_updateMetadata id updates w).1 ≠ Unfinished.
Proof.
  unfold FileService_updateMetadata, bind at 1, FileService.findById,
    bind at 1.
  by destruct (file_findOne_cases id false w) as [[_ ->]|[->|[file ->]]].
Qed.

Lemma file_softDelete_finishes id by_ w :
  (FileService.softDelete id by_ w).1 ≠ Unfinished.
Proof.
  by destruct (file_softDelete_cases id by_ w) as [(f & _ & ->)|[e ->]].
Qed.

(** X22. [bulkSoftDelete], [bulkRestore] and [bulkUpdateMetadata] never
    throw, and their result accounts for the ids of the request: each id is
    among the successes or among the failures, as often as it was given;
    [total] is the number of ids, and the two counters are the lengths of
    the two lists, so that they add up to [total]. *)
Theorem bulk_results_account :
  (∀ dto w, ∃ r w1, FileService_bulkSoftDelete dto w = (Ok r, w1)
                    ∧ accounts_for (bd_fileIds dto) r)
  ∧ (∀ dto w, ∃ r w1, FileService_bulkRestore dto w = (Ok r, w1)
                      ∧ accounts_for (br_fileIds dto) r)
  ∧ (∀ dto w, ∃ r w1, FileService_bulkUpdateMetadata dto w = (Ok r, w1)
                      ∧ accounts_for (bu_fileIds dto) r)
  ∧ ∀ ids r, accounts_for ids r →
             (successCount r + failureCount r = total r)%nat.
Proof.
  split_and!.
  - intros dto w. apply bulk_loop_accounts.
    intros. apply file_softDelete_finishes.
  - intros dto w. apply bulk_loop_accounts.
    intros. apply file_restore_finishes.
  - intros dto w. apply bulk_loop_accounts.
    intros. apply file_updateMetadata_finishes.
  - intros ids r (Ht & Hs & Hf & Hp). rewrite Ht, Hs, Hf, <- Hp.
    by rewrite length_app, length_fmap.
Qed.

Lemma hidden_after_softDelete id acc w l :
  uuid_for (File.id <$> files w) id = true →
  hidden acc w →
  hidden (acc ++ [id])
    (set_log l
       (set_files
          ((fun f => if decide (File.id f = id)
                     then File.with_deletedAt (Some (now w)) f else f)
             <$> files w) w)).
Proof.
  intros Hu Hh i Hi.
  apply elem_of_app in Hi as [Hi|Hi%list_elem_of_singleton].
  - specialize (Hh i Hi).
    assert (Hi' : (fileRepository.findOne i false w).1 = Ok None)
      by by rewrite Hh.
    pose proof (file_findOne_Ok _ _ _ _ Hi') as Hui.
    rewrite file_findOne_eq, Hui in Hh.
    injection Hh as Hh. apply fmap_None, list_find_None in Hh.
    rewrite file_findOne_eq. cbn [files set_log set_files].
    rewrite file_ids_stamp, Hui. f_equal. f_equal.
    rewrite list_find_none; [done|].
    apply Forall_fmap, Forall_forall.
    intros f Hf. rewrite Forall_forall in Hh. specialize (Hh f Hf).
    simpl. case_decide; [|done]. by intros [_ ?].
  - subst i. by apply file_findOne_hidden.
Qed.

Lemma bulkSoftDelete_loop_distinct by_ (fileIds : list string) :
  ∀ r0 w,
    NoDup (successful r0) → hidden (successful r0) w →
    ∃ r w1,
      bulk_loop (fun fileId => FileService.softDelete fileId by_) fileIds r0 w
      = (Ok r, w1)
      ∧ NoDup (successful r) ∧ hidden (successful r) w1.
Proof.
  induction fileIds as [|id ids IH]; intros r0 w Hnd Hh.
  - by exists r0, w.
  - cbn [bulk_loop]. unfold bind at 1, try_catch, bind at 1.
    destruct (file_softDelete_cases id by_ w) as [(f & Hf & ->)|[e ->]];
      cbn [ret].
    + apply IH; cbn [successful].
      * apply NoDup_app. split_and!; [done| |apply NoDup_singleton].
        intros x Hx ->%list_elem_of_singleton.
        specialize (Hh _ Hx). rewrite Hh in Hf. discriminate.
      * apply hidden_after_softDelete; [|done].
        by eapply file_findOne_Ok.
    + by apply IH.
Qed.

(** X23. [bulkSoftDelete] lists no id twice among its successes, however
    often the request names it: once a file is soft-deleted, a later
    soft delete of the same id in the same request fails, and after the call
    none of the successes is found by [findById]. *)
Theorem bulkSoftDelete_distinct (dto : BulkDeleteDto) (w : World) :
  ∃ r w1,
    FileService_bulkSoftDelete dto w = (Ok r, w1)
    ∧ NoDup (successful r)
    ∧ ∀ id, id ∈ successful r →
            FileService.findById id false w1
            = (Throw (FileNotFoundException id), w1).
Proof.
  destruct (bulkSoftDelete_loop_distinct (bd_deletedBy dto) (bd_fileIds dto)
              (bulk_start (bd_fileIds dto)) w)
    as (r & w1 & E & Hnd & Hh).
  - apply NoDup_nil_2.
  - by intros i ?%elem_of_nil.
  - exists r, w1. split_and!; try done.
    intros id Hid. unfold FileService.findById, bind. by rewrite (Hh id Hid).
Qed.

Lemma preserves_try_catch {A} (P : World → Prop) (m : M A) (h : Exn → M A) :
  preserves P m → (∀ e, preserves P (h e)) → preserves P (try_catch m h).
Proof.
  intros Hm Hh w Hw. unfold try_catch. specialize (Hm w Hw).
  destruct (m w) as [[a|e|] w1]; simpl in *; [done|by apply Hh|done].
Qed.

Lemma bulk_loop_preserves {A} (P : World → Prop) (op : string → M A)
    (fileIds : list string) :
  (∀ id, preserves P (op id)) →
  ∀ r0, preserves P (bulk_loop op fileIds r0).
Proof.
  intros Hop. induction fileIds as [|id ids IH]; intros r0.
  - apply preserves_ret.
  - cbn [bulk_loop]. apply preserves_bind; [|intros r; apply IH].
    apply preserves_try_catch.
    + apply preserves_bind; [apply Hop|]. intros _. apply preserves_ret.
    + intros e. apply preserves_ret.
Qed.

Lemma file_softDelete_preserves id by_ (b : Disk * ObjectStore * ObjectStore)
    (n : nat) :
  preserves (fun w => backends w = b ∧ length (files w) = n)
            (FileService.softDelete id by_).
Proof.
  intros w [Hb Hn].
  destruct (file_softDelete_cases id by_ w) as [(f & _ & ->)|[e ->]];
    [|done].
  split; [done|]. simpl. by rewrite length_fmap.
Qed.

Lemma builtin_hardDelete_finishes configs id w :
  (FileService.hardDelete (StorageFactory.initializeStrategies configs) id w).1
  ≠ Unfinished.
Proof.
  destruct (file_findOne_cases id true w) as [[_ E]|[E|[file E]]];
    [unfold FileService.hardDelete, bind at 1; by rewrite E..|].
  - assert (Hf : (fileRepository.findOne id true w).1 = Ok (Some file))
      by by rewrite E.
    destruct (map_get (File.storageType file)
                (StorageFactory.initializeStrategies configs))
      as [s|] eqn:Hs.
    + pose proof (builtin_delete_returns configs) as Hall.
      rewrite Forall_forall in Hall.
      destruct (Hall _ (map_get_elem _ _ _ Hs)
                  (or_else (File.storageKey file) (File.path file)) w)
        as (r & w1 & Hd).
      destruct (hardDelete_ignores_delete_result _ _ _ _ _ _ _ Hf Hs Hd)
        as (w' & -> & _). done.
    + destruct (proj1 (hardDelete_keeps_row_on_throw _ _ _ _ Hf) Hs)
        as (m & ->). done.
Qed.

(** X24. The bulk delete of the controller, over the back-ends the factory
    builds, never throws and its result accounts for the ids of the
    request.  Unless the request says [soft: false] it is a soft delete: no
    back-end is touched and no row is removed. *)
Theorem bulkDelete_outcome (configs : StorageConfigMap) (dto : BulkDeleteDto)
    (w : World) :
  ∃ r w1,
    FileController_bulkDelete (StorageFactory.initializeStrategies configs)
      dto w = (Ok r, w1)
    ∧ accounts_for (bd_fileIds dto) r
    ∧ (bd_soft dto ≠ Some false →
       backends w1 = backends w ∧ length (files w1) = length (files w)).
Proof.
  unfold FileController_bulkDelete. case_bool_decide as Hsoft.
  - unfold FileService_bulkSoftDelete.
    destruct (bulk_loop_accounts
                (fun fileId => FileService.softDelete fileId (bd_deletedBy dto))
                (bd_fileIds dto) w) as (r & w1 & E & Hacc).
    { intros. apply file_softDelete_finishes. }
    exists r, w1. split_and!; try done. intros _.
    pose proof (bulk_loop_preserves
                  (fun w' => backends w' = backends w
                             ∧ length (files w') = length (files w))
                  (fun fileId =>
                     FileService.softDelete fileId (bd_deletedBy dto))
                  (bd_fileIds dto)
                  (fun id => file_softDelete_preserves id _ _ _)
                  (bulk_start (bd_fileIds dto)) w) as Hp.
    rewrite E in Hp. by apply Hp.
  - unfold FileService_bulkHardDelete.
    destruct (bulk_loop_accounts
                (fun fileId =>
                   FileService.hardDelete
                     (StorageFactory.initializeStrategies configs) fileId)
                (bd_fileIds dto) w) as (r & w1 & E & Hacc).
    { intros. apply builtin_hardDelete_finishes. }
    exists r, w1. split_and!; done.
Qed.

(** ** Uploading several files *)

Lemma bind_Unfinished_inv {A B} (m : M A) (k : A → M B) w w' :
  bind m k w = (Unfinished, w') →
  (∃ a w1, m w = (Ok a, w1) ∧ k a w1 = (Unfinished, w'))
  ∨ m w = (Unfinished, w').
Proof.
  unfold bind. destruct (m w) as [[a|e|] w1]; [by eauto|done|].
  intros [= <-]. by right.
Qed.

Lemma builtin_upload_finishes (configs : StorageConfigMap) :
  Forall (fun e => ∀ u n w, (upload e.2 u n w).1 ≠ Unfinished)
         (StorageFactory.initializeStrategies configs).
Proof.
  assert (Hlocal : ∀ c u n w,
            (LocalStorageStrategy.upload c u n w).1 ≠ Unfinished).
  { intros c u n w.
    destruct (decide (LocalStorageStrategy.getFullPath c n ∈ denied (disk w))).
    - by rewrite local_upload_denied.
    - by rewrite local_upload_ok. }
  assert (Hs3 : ∀ client c url u n w,
            (AWSS3Strategy.upload client c url u n w).1 ≠ Unfinished).
  { intros client c url u n w.
    unfold AWSS3Strategy.upload, try_catch, bind at 1, send_PutObject.
    by destruct (outage (store client w)). }
  assert (Hdo : ∀ c u n w,
            (DigitalOceanStrategy.upload c u n w).1 ≠ Unfinished).
  { intros c u n w. unfold DigitalOceanStrategy.upload, bind.
    specialize (Hs3 spaces_client (DigitalOceanStrategy.super c)
                  (DigitalOceanStrategy.getPublicUrl c) u n w).
    by destruct (AWSS3Strategy.upload _ _ _ u n w) as [[r|e|] w1]. }
  assert (Hlinux : ∀ c u n w,
            (LinuxFolderStrategy.upload c u n w).1 ≠ Unfinished).
  { intros c u n w. unfold LinuxFolderStrategy.upload, bind at 1.
    specialize (Hlocal (LinuxFolderStrategy.super c) u n w).
    destruct (LocalStorageStrategy.upload _ u n w) as [[r|e|] w1];
      [|done|done].
    unfold bind, LinuxFolderStrategy.setFilePermissions.
    by case_bool_decide. }
  unfold StorageFactory.initializeStrategies, StorageFactory.step.
  destruct configs as [[l|] [a|] [d|] [x|]]; cbn;
    repeat (apply Forall_cons; split; [cbn; auto|]); by apply Forall_nil.
Qed.

Lemma uploadFile_finishes (strategies : StrategyMap) file dto w :
  Forall (fun e => ∀ u n w, (upload e.2 u n w).1 ≠ Unfinished) strategies →
  (FileService.uploadFile strategies file dto w).1 ≠ Unfinished.
Proof.
  intros Hall. rewrite Forall_forall in Hall.
  unfold FileService.uploadFile, try_catch.
  match goal with
  | |- context [match ?body w with _ => _ end] =>
      destruct (body w) as [[saved|cause|] w9] eqn:E
  end; [done|done|]. exfalso.
  apply bind_Unfinished_inv in E as [(? & w1 & _ & E)|E]; cycle 1.
  { destruct (truthy (dto_folderId dto)); [|done].
    unfold bind in E. rewrite folder_findOne_eq in E.
    destruct (uuid_for _ _); [|done].
    by destruct (snd <$> list_find _ (folders w)). }
  apply bind_Unfinished_inv in E as [(s & w2 & Hs & E)|E]; cycle 1.
  { unfold StorageFactory.getStrategy in E.
    by destruct (map_get _ strategies). }
  apply getStrategy_inv in Hs as [-> Hs]. specialize (Hs s eq_refl).
  apply map_get_elem in Hs.
  apply bind_Unfinished_inv in E as [(filename & w3 & _ & E)|E]; cycle 1.
  { by destruct (truthy (dto_filename dto)). }
  apply bind_Unfinished_inv in E as [(res & w4 & _ & E)|E]; cycle 1.
  { apply (Hall _ Hs (IsFile file) filename w3). simpl. by rewrite E. }
  apply bind_Unfinished_inv in E as [(sv & w5 & _ & E)|E]; cycle 1.
  { match type of E with
    | fileRepository.save ?entity _ = _ =>
        destruct (file_save_spec entity w4) as [(? & H' & _)|(? & H')]
    end; rewrite H' in E; discriminate. }
  apply bind_Unfinished_inv in E as [(? & w6 & _ & E)|E]; cycle 1.
  { by apply stats_step_files in E as (_ & ? & _). }
  done.
Qed.

(** The rows an upload leaves: one more, the row returned, when it
    succeeds, and the rows there were when it does not. *)
Lemma uploadFile_rows (strategies : StrategyMap) file dto w r w' :
  Forall (fun e => keeps_tables e.2) strategies →
  FileService.uploadFile strategies file dto w = (r, w') →
  (∃ saved, r = Ok saved ∧ files w' = files w ++ [saved])
  ∨ ((∀ a, r ≠ Ok a) ∧ files w' = files w).
Proof.
  intros Hall. rewrite Forall_forall in Hall.
  unfold FileService.uploadFile, try_catch.
  match goal with
  | |- context [match ?body w with _ => _ end] =>
      destruct (body w) as [r0 w0] eqn:E
  end.
  assert ((∃ saved, r0 = Ok saved ∧ files w0 = files w ++ [saved])
          ∨ ((∀ a, r0 ≠ Ok a) ∧ files w0 = files w)) as Hbody.
  { apply bind_inv in E as [(? & w1 & H1 & E)|(r1 & H1 & ? & ?)]; cycle 1.
    { apply folder_check_world in H1 as ->. by right. }
    apply folder_check_world in H1 as ->.
    apply bind_inv in E as [(s & w2 & H2 & E)|(r1 & H2 & ? & ?)]; cycle 1.
    { apply getStrategy_inv in H2 as [-> _]. by right. }
    apply getStrategy_inv in H2 as [-> Hs]. specialize (Hs s eq_refl).
    apply map_get_elem in Hs.
    apply bind_inv in E as [(filename & w3 & H3 & E)|(r1 & H3 & ? & ?)];
      cycle 1.
    { apply filename_choice_inv in H3 as (Hw3 & _). right.
      split; [done|]. by destruct Hw3 as [->| ->]. }
    apply filename_choice_inv in H3 as (Hw3 & _).
    assert (files w3 = files w) as Hf3 by (by destruct Hw3 as [->| ->]).
    apply bind_inv in E as [(res & w4 & H4 & E)|(r1 & H4 & ? & ?)]; cycle 1.
    { destruct (Hall _ Hs (IsFile file) filename w3) as (Hf4 & _).
      simpl in Hf4. rewrite H4 in Hf4. simpl in Hf4. right. split; [done|].
      congruence. }
    assert (files w4 = files w) as Hf4.
    { destruct (Hall _ Hs (IsFile file) filename w3) as (Hf4 & _).
      simpl in Hf4. rewrite H4 in Hf4. simpl in Hf4. congruence. }
    match type of E with
    | bind (fileRepository.save ?entity) _ _ = _ =>
        destruct (file_save_spec entity w4) as [(sv & Hsave & _)|(e & Hsave)]
    end.
    - rewrite (bind_Ok _ _ _ _ _ Hsave) in E.
      apply bind_inv in E as [(? & w6 & H6 & E)|(r1 & H6 & Hno & ?)];
        cycle 1.
      { apply stats_step_files in H6 as (_ & -> & _). by destruct (Hno tt). }
      apply stats_step_files in H6 as [Hf6 _].
      injection E as <- <-. left. exists sv. split; [done|].
      cbn [files set_log]. rewrite Hf6. cbn [files set_files].
      by rewrite Hf4.
    - unfold bind at 1 in E. rewrite Hsave in E. injection E as <- <-.
      by right. }
  destruct r0 as [saved|e|].
  - intros [= <- <-]. exact Hbody.
  - intros [= <- <-]. right. split; [done|].
    destruct Hbody as [(? & ? & _)|[_ Hf]]; [done|exact Hf].
  - intros [= <- <-]. exact Hbody.
Qed.

Lemma uploadMultiple_loop_outcome (configs : StorageConfigMap) dto :
  ∀ files_ done_ failed_ w,
    ∃ new_done new_failed w1,
      FileService_uploadMultiple_loop
        (StorageFactory.initializeStrategies configs) files_ dto done_ failed_ w
      = (Ok (done_ ++ new_done, failed_ ++ new_failed), w1)
      ∧ (length new_done + length new_failed = length files_)%nat
      ∧ files w1 = files w ++ new_done.
Proof.
  induction files_ as [|file rest IH]; intros done_ failed_ w.
  - exists [], [], w. by rewrite !app_nil_r.
  - cbn [FileService_uploadMultiple_loop]. unfold bind at 1, try_catch.
    unfold bind at 1.
    pose proof (uploadFile_finishes _ file dto w
                  (builtin_upload_finishes configs)) as Hfin.
    destruct (FileService.uploadFile _ file dto w) as [r0 w0] eqn:E.
    apply uploadFile_rows in E; [|apply builtin_keeps_tables].
    destruct r0 as [saved|e|]; [| |done]; cbn [ret fst snd].
    + destruct E as [(sv & [= <-] & Hrows)|[Hno _]]; [|by destruct (Hno saved)].
      destruct (IH (done_ ++ [saved]) failed_ w0) as (nd & nf & w1 & -> & Hl & Hf).
      exists (saved :: nd), nf, w1. rewrite <- app_assoc. split_and!; try done.
      * simpl. lia.
      * rewrite Hf, Hrows, <- app_assoc. done.
    + destruct E as [(sv & [=] & _)|[_ Hrows]].
      destruct (IH done_ (failed_ ++ [(originalname file, message e)]) w0)
        as (nd & nf & w1 & -> & Hl & Hf).
      exists nd, ((originalname file, message e) :: nf), w1.
      rewrite <- app_assoc. split_and!; try done.
      * simpl. lia.
      * by rewrite Hf, Hrows.
Qed.

(** X25. Uploading several files, over the back-ends the factory builds,
    never throws: a file whose upload fails is listed among the failures and
    the loop goes on.  The response counts every file once, as a success or
    as a failure, and the rows the call has added to the table are the
    successes, in the order of the request. *)
Theorem uploadMultiple_outcome (configs : StorageConfigMap)
    (files_ : list MulterFile) (uploadDto : FileUploadDto) (w : World) :
  ∃ r w1,
    FileController_uploadMultiple (StorageFactory.initializeStrategies configs)
      files_ uploadDto w = (Ok r, w1)
    ∧ mu_total r = length files_
    ∧ (mu_successCount r + mu_failureCount r = mu_total r)%nat
    ∧ files w1 = files w ++ mu_successful r.
Proof.
  unfold FileController_uploadMultiple, FileService_uploadMultiple.
  destruct (uploadMultiple_loop_outcome configs uploadDto files_ [] [] w)
    as (nd & nf & w1 & E & Hl & Hf).
  rewrite (bind_Ok _ _ _ _ _ E). eexists _, _. split; [reflexivity|].
  cbn. split_and!; done.
Qed.

(** ** Metadata of a file *)

Lemma enumerate_storage_columns F (l l' : list File.t) :
  storage_columns <$> l = storage_columns <$> l' →
  enumerate F l = enumerate F l'.
Proof.
  revert l'. induction l as [|f l IH]; intros [|f' l'] H; try done.
  rewrite !fmap_cons in H. injection H as Hid Hpath Hty Hb Hk Hfo Hsz Hdel H.
  cbn [enumerate]. rewrite (IH l' H), Hfo, Hsz, Hdel. done.
Qed.

Lemma File_assign_idem updates f :
  File_assign updates (File_assign updates f) = File_assign updates f.
Proof.
  destruct updates as [[d|] [t|] [p|] [m|]]; reflexivity.
Qed.

Lemma file_findOne_fmap (g : File.t → File.t) id wd w w' :
  (∀ f, File.id (g f) = File.id f) →
  (∀ f, File.deletedAt (g f) = File.deletedAt f) →
  files w' = g <$> files w →
  (fileRepository.findOne id wd w').1
  = match (fileRepository.findOne id wd w).1 with
    | Ok o => Ok (g <$> o)
    | r => r
    end.
Proof.
  intros Hid Hdel Hfiles. rewrite !file_findOne_eq. simpl.
  rewrite Hfiles, (file_ids_fmap g _ Hid).
  destruct (uuid_for _ _); [|done]. f_equal.
  rewrite list_find_fmap.
  rewrite (list_find_ext _
             (fun f => File.id f = id
                       ∧ visible wd (File.deletedAt f) = true)).
  2:{ intros x. simpl. by rewrite Hid, Hdel. }
  by destruct (list_find _ (files w)) as [[i f]|].
Qed.

(** The loop of [bulkUpdateMetadata]: the rows of the ids that have
    succeeded so far carry the updates, the other rows are as they were. *)
Lemma bulkUpdateMetadata_loop updates (w : World) (fileIds : list string) :
  NoDup (File.id <$> files w) →
  ∀ r0 w0,
    files w0
    = (fun f => if decide (File.id f ∈ successful r0)
                then File_assign updates f else f) <$> files w →
    ∃ r w1,
      bulk_loop (fun fileId => FileService_updateMetadata fileId updates)
        fileIds r0 w0 = (Ok r, w1)
      ∧ files w1
        = (fun f => if decide (File.id f ∈ successful r)
                    then File_assign updates f else f) <$> files w
      ∧ (∀ id, id ∈ successful r ↔
               id ∈ successful r0
               ∨ (id ∈ fileIds
                  ∧ ∃ f, (fileRepository.findOne id false w).1 = Ok (Some f)))
      ∧ folders w1 = folders w0
      ∧ folders_closure w1 = folders_closure w0
      ∧ backends w1 = backends w0.
Proof.
  intros Hnd. induction fileIds as [|id ids IH]; intros r0 w0 Hfiles.
  - exists r0, w0. split_and!; try done.
    intros id. split; [by left|]. intros [?|[?%elem_of_nil _]]; done.
  - cbn [bulk_loop]. unfold bind at 1, try_catch, bind at 1.
    set (g := fun f => if decide (File.id f ∈ successful r0)
                       then File_assign updates f else f) in *.
    assert (Hgid : ∀ f, File.id (g f) = File.id f)
      by (intros f; unfold g; by case_decide).
    assert (Hgdel : ∀ f, File.deletedAt (g f) = File.deletedAt f)
      by (intros f; unfold g; by case_decide).
    pose proof (file_findOne_fmap g id false w w0 Hgid Hgdel Hfiles) as Hfind.
    destruct (file_findOne_cases id false w0) as [[_ E]|[E|[row E]]].
    + assert (FileService_updateMetadata id updates w0
              = (Throw (uuid_syntax_error id), w0)) as ->.
      { unfold FileService_updateMetadata, bind at 1, FileService.findById,
          bind at 1. by rewrite E. }
      cbn [ret].
      match goal with
      | |- context [bulk_loop _ ids ?r' w0] =>
          destruct (IH r' w0) as (r & w1 & Er & Hf1 & Hs1 & Hrest)
      end; [exact Hfiles|].
      exists r, w1. split; [exact Er|]. split; [exact Hf1|].
      split; [|exact Hrest].
      intros i. rewrite Hs1. cbn [successful]. split.
      * intros [?|[? ?]]; [by left|]. right. split; [by right|done].
      * intros [?|[[->|?]%elem_of_cons [f Hf]]]; [by left| |by eauto].
        exfalso. rewrite E, Hf in Hfind. done.
    + assert (FileService_updateMetadata id updates w0
              = (Throw (FileNotFoundException id), w0)) as ->.
      { unfold FileService_updateMetadata, bind at 1, FileService.findById,
          bind at 1. by rewrite E. }
      cbn [ret].
      match goal with
      | |- context [bulk_loop _ ids ?r' w0] =>
          destruct (IH r' w0) as (r & w1 & Er & Hf1 & Hs1 & Hrest)
      end; [exact Hfiles|].
      exists r, w1. split; [exact Er|]. split; [exact Hf1|].
      split; [|exact Hrest].
      intros i. rewrite Hs1. cbn [successful]. split.
      * intros [?|[? ?]]; [by left|]. right. split; [by right|done].
      * intros [?|[[->|?]%elem_of_cons [f Hf]]]; [by left| |by eauto].
        exfalso. rewrite E, Hf in Hfind. done.
    + rewrite E in Hfind. simpl in Hfind.
      destruct (fileRepository.findOne id false w).1 as [[f|]|e|] eqn:Ef;
        try discriminate.
      injection Hfind as ->.
      destruct (file_findOne_Some _ _ _ _ Ef) as (Hin & Hid & _).
      assert (FileService_updateMetadata id updates w0
              = (Ok (File_assign updates f),
                 set_log (log w0 ++ ["LOG " +:+ ("File metadata updated: "
                                                +:+ id)])
                   (set_files
                      ((fun x => if decide (File.id x = id)
                                 then File_assign updates f else x)
                         <$> files w0) w0))) as ->.
      { unfold FileService_updateMetadata, bind at 1, FileService.findById,
          bind at 1. rewrite E. cbn [ret].
        assert (File_assign updates (g f) = File_assign updates f) as ->.
        { unfold g. case_decide; [apply File_assign_idem|done]. }
        unfold bind, fileRepository_update, modify, logger_log, ret.
        cbn [File_assign File.id]. by rewrite Hid. }
      cbn [ret].
      match goal with
      | |- context [bulk_loop _ ids ?r' ?w'] =>
          destruct (IH r' w') as (r & w1 & Er & Hf1 & Hs1 & Hrest)
      end.
      { cbn [files set_log set_files successful]. rewrite Hfiles.
        rewrite <- list_fmap_compose. apply list_fmap_ext.
        intros i x Hx. simpl. apply list_elem_of_lookup_2 in Hx.
        rewrite Hgid.
        destruct (decide (File.id x = id)) as [Hxid|Hne].
        - assert (x = f) as -> by (eapply file_row_by_id; eauto; congruence).
          rewrite decide_True; [done|].
          apply elem_of_app. right. by apply list_elem_of_singleton.
        - unfold g. destruct (decide (File.id x ∈ successful r0)) as [Hs|Hs].
          + rewrite decide_True; [done|]. apply elem_of_app. by left.
          + rewrite decide_False; [done|].
            intros [?|?%list_elem_of_singleton]%elem_of_app; done. }
      exists r, w1. split; [exact Er|]. split; [exact Hf1|].
      split; [|exact Hrest].
      intros i. rewrite Hs1. cbn [successful]. rewrite elem_of_app.
      rewrite list_elem_of_singleton. split.
      * intros [[?| ->]|[? ?]]; [by left|right|right].
        -- split; [by left|by eexists].
        -- split; [by right|done].
      * intros [?|[[->|?]%elem_of_cons Hf]]; [by left; left|by left; right|].
        right. by split.
Qed.

(** X26. [bulkUpdateMetadata], in a table with distinct ids, never throws;
    it succeeds for exactly the ids of the request that have a live row,
    and it assigns to the rows of these ids the values the request gives for
    [description], [tags], [isPublic] and [metadata], keeping the value of
    the row for each key the request leaves out.  No other row changes, and
    none of the other columns of a row: not where the bytes are, nor their
    size, their folder or their deletion mark, so the statistics of every
    folder are what they were, and no folder and no back-end is touched. *)
Theorem bulkUpdateMetadata_assigns (dto : BulkUpdateMetadataDto)
    (w : World) :
  NoDup (File.id <$> files w) →
  ∃ result w1,
    FileService_bulkUpdateMetadata dto w = (Ok result, w1)
    ∧ (∀ id, id ∈ successful result ↔
             id ∈ bu_fileIds dto
             ∧ ∃ f, (fileRepository.findOne id false w).1 = Ok (Some f))
    ∧ Forall2
        (fun f g =>
           fixed_columns g = fixed_columns f
           ∧ if decide (File.id f ∈ successful result)
             then File.description g
                  = assigned (bu_description dto) (File.description f)
                  ∧ File.tags g = assigned (bu_tags dto) (File.tags f)
                  ∧ File.isPublic g
                    = default (File.isPublic f) (bu_isPublic dto)
                  ∧ File.metadata g
                    = assigned (bu_metadata dto) (File.metadata f)
             else g = f)
        (files w) (files w1)
    ∧ (∀ F, enumerate F (files w1) = enumerate F (files w))
    ∧ folders w1 = folders w
    ∧ backends w1 = backends w.
Proof.
  intros Hnd. unfold FileService_bulkUpdateMetadata. cbv zeta.
  set (updates := mkMetadataUpdates _ _ _ _).
  destruct (bulkUpdateMetadata_loop updates w (bu_fileIds dto) Hnd
              (bulk_start (bu_fileIds dto)) w)
    as (r & w1 & E & Hfiles & Hs & Hfo & _ & Hb).
  { rewrite <- (list_fmap_id (files w)) at 1.
    apply list_fmap_ext. intros i f _.
    destruct (decide (File.id f ∈ successful (bulk_start (bu_fileIds dto))))
      as [Hin|_]; [|done].
    by apply elem_of_nil in Hin. }
  exists r, w1. split; [exact E|]. split_and!; try done.
  - intros id. rewrite Hs. cbn [successful bulk_start]. split.
    + intros [Hin|?]; [by apply elem_of_nil in Hin|done].
    + by right.
  - rewrite Hfiles. apply Forall2_fmap_r, Forall_Forall2_diag, Forall_forall.
    intros f _. simpl.
    destruct (decide (File.id f ∈ successful r)) as [_|_]; [|done].
    split; [reflexivity|]. subst updates.
    destruct dto as [ids [t|] [d|] [p|] [m|]]; done.
  - intros F. apply enumerate_storage_columns. rewrite Hfiles.
    rewrite <- list_fmap_compose. apply list_fmap_ext. intros i f _. simpl.
    by case_decide.
Qed.

(** A request that names a file twice and a file that is not there, and
    gives a description and a visibility. *)
Lemma bulkUpdateMetadata_assigns_witness :
  ∃ result w1,
    FileService_bulkUpdateMetadata
      (mkBulkUpdateMetadataDto ["f1"; "ghost"; "f1"] None (Some "the first")
                               (Some false) None) docs_world
    = (Ok result, w1)
    ∧ successful result = ["f1"; "f1"]
    ∧ (failed result).*1 = ["ghost"]
    ∧ File.description <$> files w1 = [Some "the first"; None]
    ∧ File.isPublic <$> files w1 = [false; true]
    ∧ fixed_columns <$> files w1 = fixed_columns <$> files docs_world
    ∧ (∀ F, enumerate F (files w1) = enumerate F (files docs_world)).
Proof.
  destruct (bulkUpdateMetadata_assigns
              (mkBulkUpdateMetadataDto ["f1"; "ghost"; "f1"] None
                 (Some "the first") (Some false) None) docs_world)
    as (r & w1 & E & _ & _ & He & _); [by_evaluation|].
  exists r, w1. split; [exact E|].
  vm_compute in E. injection E as <- <-. by split_and!.
Defined.


(** ** The folder service *)

Lemma folder_findById_inv id folder w w1 :
  FolderService.findById id w = (Ok folder, w1) →
  w1 = w ∧ folder ∈ folders w ∧ Folder.id folder = id
  ∧ Folder.deletedAt folder = None.
Proof.
  unfold FolderService.findById, bind.
  destruct (folderRepository.findOne id false w) as [r w0] eqn:E.
  pose proof (folder_findOne_world id false w) as Hw. rewrite E in Hw.
  simpl in Hw. subst w0.
  destruct r as [[g|]|e|]; try discriminate. intros [= <- <-].
  assert (Hf : (folderRepository.findOne id false w).1 = Ok (Some g))
    by by rewrite E.
  destruct (folder_findOne_Some _ _ _ _ Hf) as (? & ? & Hvis).
  apply bool_decide_eq_true in Hvis. done.
Qed.

Lemma folder_findById_uuid id folder w w1 :
  FolderService.findById id w = (Ok folder, w1) →
  uuid_for (Folder.id <$> folders w) id = true.
Proof.
  unfold FolderService.findById, bind. rewrite folder_findOne_eq.
  by destruct (uuid_for _ _).
Qed.

Lemma folder_ids_stamp id (t : option Date) (fs : list Folder.t) :
  Folder.id <$> ((fun f => if decide (Folder.id f = id)
                           then Folder.with_deletedAt t f else f) <$> fs)
  = Folder.id <$> fs.
Proof.
  rewrite <- list_fmap_compose. apply list_fmap_ext.
  intros i f _. simpl. by case_decide.
Qed.

(** X28. [restore] of a folder clears the deletion mark of every file of
    the folder, those that had been soft-deleted one by one before the
    folder was included: after it no file of the folder is soft-deleted,
    and the folder is live. *)
Theorem folder_restore_revives_files (id : string) (w w1 : World)
    (folder : Folder.t) :
  FolderService.restore id w = (Ok folder, w1) →
  Folder.deletedAt folder = None
  ∧ Forall (fun f => File.folderId f = Some id → File.deletedAt f = None)
           (files w1)
  ∧ File.id <$> files w1 = File.id <$> files w.
Proof.
  unfold FolderService.restore. intros H.
  apply bind_Ok_inv in H as (o & w0 & Hfind & H).
  pose proof (folder_findOne_world id true w) as Hw. rewrite Hfind in Hw.
  simpl in Hw. subst w0. destruct o as [g|]; [|discriminate].
  unfold bind at 1, folderRepository.restore, modify in H.
  unfold bind at 1, fileRepository.restore_by_folder, modify in H.
  apply bind_Ok_inv in H as (restored & w2 & Hback & H).
  apply folder_findById_inv in Hback as (-> & _ & _ & Hlive).
  injection H as <- <-. split; [done|].
  cbn [files set_log set_files set_folders]. split.
  - apply Forall_fmap, Forall_forall. intros f _. simpl.
    by case_decide.
  - rewrite <- list_fmap_compose. apply list_fmap_ext. intros i f _. simpl.
    by case_decide.
Qed.

Lemma folder_restore_revives_files_witness :
  Folder.deletedAt docs = None
  ∧ Forall (fun f => File.folderId f = Some "docs" → File.deletedAt f = None)
           (files (FolderService.restore "docs" binned_world).2)
  ∧ File.id <$> files (FolderService.restore "docs" binned_world).2
    = File.id <$> files binned_world.
Proof.
  apply (folder_restore_revives_files "docs" binned_world _ docs).
  reflexivity.
Defined.

Lemma filter_fmap_unless {A} (P Q : A → Prop) `{∀ x, Decision (P x)}
    `{∀ x, Decision (Q x)} (g : A → A) (l : list A) :
  (∀ x, Q x → ¬ P x ∧ ¬ P (g x)) →
  filter P ((fun x => if decide (Q x) then g x else x) <$> l) = filter P l.
Proof.
  intros HQ. induction l as [|a l IH]; [done|].
  rewrite fmap_cons, !filter_cons.
  destruct (decide (Q a)) as [Hq|Hq].
  - destruct (HQ a Hq) as [Hn Hn']. by rewrite !decide_False.
  - by rewrite IH.
Qed.

(** X29. [softDelete] of a folder is not recursive: it marks the row of the
    folder and the files that sit in it, and leaves every other folder, its
    subfolders included, and every file of another folder as they were. *)
Theorem folder_softDelete_is_shallow (id : string) (deletedBy : option string)
    (w w1 : World) (folder : Folder.t) :
  FolderService.softDelete id deletedBy w = (Ok folder, w1) →
  filter (fun g => Folder.id g ≠ id) (folders w1)
  = filter (fun g => Folder.id g ≠ id) (folders w)
  ∧ filter (fun f => File.folderId f ≠ Some id) (files w1)
    = filter (fun f => File.folderId f ≠ Some id) (files w)
  ∧ FolderService.findById id w1 = (Throw (FolderNotFoundException id), w1).
Proof.
  unfold FolderService.softDelete. intros H.
  apply bind_Ok_inv in H as (g & w0 & Hfind & H).
  pose proof (folder_findById_uuid _ _ _ _ Hfind) as Hu.
  apply folder_findById_inv in Hfind as (-> & _ & _ & _).
  injection H as _ <-.
  cbn [files folders set_log set_files set_folders now].
  split_and!.
  - apply filter_fmap_unless. intros g' Hg'. simpl. tauto.
  - apply filter_fmap_unless. intros f Hf. simpl. tauto.
  - unfold FolderService.findById, bind. rewrite folder_findOne_eq.
    cbn [folders set_log set_files set_folders].
    rewrite folder_ids_stamp, Hu.
    rewrite list_find_none; [done|].
    apply Forall_fmap, Forall_forall. intros g' _. simpl.
    case_decide; [|tauto]. by intros [_ ?].
Qed.

Lemma folder_softDelete_is_shallow_witness :
  filter (fun g => Folder.id g ≠ "folder-0")
    (folders (FolderService.softDelete "folder-0" None tree_world).2)
  = filter (fun g => Folder.id g ≠ "folder-0") (folders tree_world)
  ∧ filter (fun f => File.folderId f ≠ Some "folder-0")
      (files (FolderService.softDelete "folder-0" None tree_world).2)
    = filter (fun f => File.folderId f ≠ Some "folder-0") (files tree_world)
  ∧ FolderService.findById "folder-0"
      (FolderService.softDelete "folder-0" None tree_world).2
    = (Throw (FolderNotFoundException "folder-0"),
       (FolderService.softDelete "folder-0" None tree_world).2).
Proof.
  apply (folder_softDelete_is_shallow "folder-0" None tree_world _
           (Folder.with_deletedBy None
              (Folder.mk "folder-0" "Docs" None (Some "/Docs") None None None
                 None true 0 0 None))).
  reflexivity.
Defined.

(** X30. Without [force], [hardDelete] refuses a folder that has a file or a
    child folder, soft-deleted ones included (both are counted with
    [withDeleted]): it throws [FolderNotEmptyException] and the world is as
    it was. *)
Theorem folder_hardDelete_refuses (depth : nat) (id : string)
    (folder : Folder.t) (w : World) :
  (folderRepository.findOne id true w).1 = Ok (Some folder) →
  Exists (fun f => File.folderId f = Some id) (files w)
  ∨ Exists (fun g => Folder.parentId g = Some id) (folders w) →
  FolderService.hardDelete (S depth) id false w
  = (Throw (FolderNotEmptyException id), w).
Proof.
  intros Hfind Hfull.
  assert (folderRepository.findOne id true w = (Ok (Some folder), w)) as E.
  { destruct (folderRepository.findOne id true w) as [o w0] eqn:E.
    pose proof (folder_findOne_world id true w) as Hw. rewrite E in Hw.
    simpl in Hfind, Hw. by subst. }
  cbn [FolderService.hardDelete]. rewrite (bind_Ok _ _ _ _ _ E).
  unfold bind at 1, fileRepository.count_by_folder, get.
  destruct (filter (fun f => File.folderId f = Some id) (files w))
    as [|f fs] eqn:Hfiles; [|done].
  cbn. unfold folderRepository.find_by_parent, bind, get.
  destruct (filter (fun g => Folder.parentId g = Some id) (folders w))
    as [|g gs] eqn:Hkids; [|done].
  exfalso. destruct Hfull as [Hx|Hx]; apply Exists_exists in Hx as (x & Hx & HP).
  - assert (x ∈ filter (fun f => File.folderId f = Some id) (files w))
      as Hin by by apply list_elem_of_filter.
    rewrite Hfiles in Hin. by apply elem_of_nil in Hin.
  - assert (x ∈ filter (fun g => Folder.parentId g = Some id) (folders w))
      as Hin by by apply list_elem_of_filter.
    rewrite Hkids in Hin. by apply elem_of_nil in Hin.
Qed.

Lemma folder_hardDelete_refuses_witness :
  FolderService.hardDelete 1 "docs" false binned_world
  = (Throw (FolderNotEmptyException "docs"), binned_world).
Proof.
  apply (folder_hardDelete_refuses 0 "docs"
           (Folder.with_deletedAt (Some 100%nat) docs) binned_world).
  - reflexivity.
  - left. by_evaluation.
Defined.
